(** * FEValues: row table, views, accumulation kernels and cell similarity

    A shallow embedding of [source/fe/fe_values.cc] (deal.II).

    Conventions of the embedding.
    - Loop counters and positions in a [std::vector] are natural numbers.
    - Values of type [unsigned int] that are stored (row numbers, the
      sentinel [numbers::invalid_unsigned_int]) are [N], and arithmetic on
      them wraps at [2^32]; values of type [int] (the classifier
      [single_nonzero_component]) are [Z].
    - [Assert (false, ...)] and [AssertIndexRange] raise: functions that
      contain one return a [result]. The index that the constructors of
      the views check, and the components that they visit, are computed
      in [unsigned int] and wrap at [2^32].
    - A [Table] is a function of the row and the quadrature point. The
      kernels of the views are stated for tables that hold the rows
      that the shape function data name; the kernels of [FEValuesBase]
      for elements with several components, whose rows depend on
      [component_multiple], check each row against the number of rows
      of the table as the accessor of the table does.
    - The template parameter [Number] is a type with the arithmetic the
      kernels use and the test [CheckForZero]. The kernels are stated for
      every such type; [double_number] is IEEE double precision, the type
      the tables of the source hold. A statement that needs exact
      arithmetic says so by assuming [NumberLaws], which [double_number]
      does not satisfy and [rational_number] does. *)

From Stdlib Require Import ZArith NArith QArith Qcanon Lia Ring List PrimFloat.
From stdpp Require Import base numbers list.

Local Open Scope nat_scope.

(** ** Errors *)

Inductive exception : Type :=
| ExcIndexRange
| ExcNotImplemented
| ExcInternalError
| ExcMessage.

Inductive result (A : Type) : Type :=
| Ok (a : A)
| Err (e : exception).
Arguments Ok {A} a.
Arguments Err {A} e.

Definition bind {A B} (r : result A) (k : A -> result B) : result B :=
  match r with
  | Ok a => k a
  | Err e => Err e
  end.

Definition is_ok {A} (r : result A) : bool :=
  match r with Ok _ => true | Err _ => false end.

(** Modelled from the spec: the macro [Assert (condition, exception)],
    declared outside this file, guards a precondition or an unimplemented
    path: when the condition is false it fails loudly with the exception
    and nothing after it runs. *)
Definition Assert {A} (condition : bool) (e : exception)
    (continue : result A) : result A :=
  if condition then continue else Err e.

(** A loop [for (k = 0; k < n; ++k) body] whose body may raise. *)
Definition for_loop {S} (n : nat) (body : S -> nat -> result S) (s : S)
  : result S :=
  foldl (fun r k => bind r (fun s => body s k)) (Ok s) (seq 0 n).

(** ** Machine integers *)

Definition wrap (x : N) : N := (x mod 2 ^ 32)%N.

(** [numbers::invalid_unsigned_int], that is [static_cast<unsigned int>(-1)]. *)
Definition invalid_unsigned_int : N := 4294967295%N.

(** Conversion [unsigned int -> int] (two's complement). *)
Definition to_int (u : N) : Z :=
  if (u <? 2 ^ 31)%N then Z.of_N u else (Z.of_N u - 2 ^ 32)%Z.

(** ** The finite element descriptor (external collaborator) *)

Record FiniteElement : Type := {
  n_dofs_per_cell : nat;
  n_components : nat;
  is_primitive : bool;
  is_primitive_shape : nat -> bool;
  (** [system_to_component_index(i).first] *)
  system_to_component_index : nat -> nat;
  (** [get_nonzero_components(i)[c]] *)
  get_nonzero_components : nat -> nat -> bool;
  n_nonzero_components : nat -> nat
}.

(** The mask of shape function [i] as a list over the components. *)
Definition nonzero_mask (fe : FiniteElement) (i : nat) : list bool :=
  map (get_nonzero_components fe i) (seq 0 (n_components fe)).

Fixpoint count_true (bs : list bool) : nat :=
  match bs with
  | [] => 0
  | b :: bs => (if b then 1 else 0) + count_true bs
  end.

(** Invariants that every descriptor of the library satisfies: the count
    of nonzero components is the number of bits set in the mask, and the
    size of the table of all (shape function, component) pairs is an
    [unsigned int]. *)
Record fe_wf (fe : FiniteElement) : Prop := {
  wf_count : forall i, i < n_dofs_per_cell fe ->
    n_nonzero_components fe i = count_true (nonzero_mask fe i);
  wf_size : (N.of_nat (n_dofs_per_cell fe * n_components fe) < 2 ^ 32)%N
}.

(** A further invariant of every descriptor: a primitive shape function
    is nonzero in the component it belongs to. *)
Definition fe_primitive_wf (fe : FiniteElement) : Prop :=
  forall i, i < n_dofs_per_cell fe ->
    is_primitive fe || is_primitive_shape fe i = true ->
    get_nonzero_components fe i (system_to_component_index fe i) = true.

(** ** internal::make_shape_function_to_row_table *)

(** Body of the loop over the components [c] of shape function [i]. *)
Definition row_table_component_step (fe : FiniteElement) (i : nat) (row : N)
    (st : list N * N) (c : nat) : list N * N :=
  let '(table, nth_nonzero_component) := st in
  if get_nonzero_components fe i c
  then (<[i * n_components fe + c := wrap (row + nth_nonzero_component)]> table,
        wrap (nth_nonzero_component + 1))
  else (table, nth_nonzero_component).

(** Body of the loop over the shape functions [i]. *)
Definition row_table_shape_function_step (fe : FiniteElement)
    (st : list N * N) (i : nat) : list N * N :=
  let '(table, row) := st in
  let '(table, _) :=
    foldl (row_table_component_step fe i row) (table, 0%N)
      (seq 0 (n_components fe)) in
  (table, wrap (row + N.of_nat (n_nonzero_components fe i))).

Definition make_shape_function_to_row_table (fe : FiniteElement) : list N :=
  let shape_function_to_row_table :=
    replicate (n_dofs_per_cell fe * n_components fe) invalid_unsigned_int in
  fst (foldl (row_table_shape_function_step fe)
         (shape_function_to_row_table, 0%N) (seq 0 (n_dofs_per_cell fe))).

(** The row of shape function [i] in a table. *)
Definition table_row (fe : FiniteElement) (table : list N) (i : nat)
  : list N :=
  take (n_components fe) (drop (i * n_components fe) table).

Definition non_sentinel (l : list N) : list N :=
  filter (fun r => r <> invalid_unsigned_int) l.

(** Number of rows declared by the shape functions before [i]. *)
Definition first_row (fe : FiniteElement) (i : nat) : nat :=
  sum_list (map (n_nonzero_components fe) (seq 0 i)).

(** Total number of (shape function, nonzero component) pairs. *)
Definition total_nonzero_pairs (fe : FiniteElement) : nat :=
  first_row fe (n_dofs_per_cell fe).

(** *** A functional description of the table *)

(** Rows handed out to one shape function, starting with row [next]. *)
Fixpoint assign_rows (bits : list bool) (next : N) : list N :=
  match bits with
  | [] => []
  | true :: bits => next :: assign_rows bits (next + 1)%N
  | false :: bits => invalid_unsigned_int :: assign_rows bits next
  end.

(** Number of bits set in the masks of the shape functions before [i]. *)
Definition rows_before (fe : FiniteElement) (i : nat) : nat :=
  sum_list (map (fun j => count_true (nonzero_mask fe j)) (seq 0 i)).

Definition table_spec (fe : FiniteElement) (n : nat) : list N :=
  concat (map (fun i => assign_rows (nonzero_mask fe i)
                          (N.of_nat (rows_before fe i))) (seq 0 n)).

(** ** FEValuesViews: the view descriptors *)

Module FEValuesViews.

(** [Scalar<dim, spacedim>::ShapeFunctionData] *)
Record ScalarShapeFunctionData : Type := {
  scalar_is_nonzero_shape_function_component : bool;
  scalar_row_index : N
}.

(** [ShapeFunctionData] of the [Vector], [SymmetricTensor] and [Tensor]
    views, which track [K] sub-components each. *)
Record ShapeFunctionData : Type := {
  is_nonzero_shape_function_component : list bool;
  row_index : list N;
  single_nonzero_component : Z;
  single_nonzero_component_index : nat
}.

(** The views without their back reference to the evaluation context. *)
Record ScalarView : Type := {
  component : nat;
  scalar_shape_function_data : list ScalarShapeFunctionData
}.

Record View : Type := {
  first_component : nat;
  shape_function_data : list ShapeFunctionData
}.

(** [s.is_nonzero_shape_function_component[d]] and [s.row_index[d]] *)
Definition flag (s : ShapeFunctionData) (d : nat) : bool :=
  is_nonzero_shape_function_component s !!! d.

Definition row (s : ShapeFunctionData) (d : nat) : N := row_index s !!! d.

(** Elements of [std::vector<ShapeFunctionData> (n)] are value
    initialised. *)
Definition scalar_value_initialized : ScalarShapeFunctionData :=
  {| scalar_is_nonzero_shape_function_component := false;
     scalar_row_index := 0%N |}.

Definition value_initialized (K : nat) : ShapeFunctionData :=
  {| is_nonzero_shape_function_component := replicate K false;
     row_index := replicate K 0%N;
     single_nonzero_component := 0%Z;
     single_nonzero_component_index := 0 |}.

(** The test shared by the four constructors: is shape function [i]
    nonzero in [component]? *)
Definition nonzero_in (fe : FiniteElement) (i component : nat) : bool :=
  let is_primitive := is_primitive fe || is_primitive_shape fe i in
  if is_primitive
  then component =? system_to_component_index fe i
  else get_nonzero_components fe i component.

(** The row stored next to the flag. *)
Definition row_of (fe : FiniteElement) (table : list N) (i component : nat)
    (nonzero : bool) : N :=
  if nonzero
  then table !!! (i * n_components fe + component)
  else invalid_unsigned_int.

Module Scalar.

(** [Scalar<dim, spacedim>::Scalar (fe_values, component)] *)
Definition Scalar (fe : FiniteElement) (component : nat)
  : result ScalarView :=
  Assert (component <? n_components fe) ExcIndexRange
    (let shape_function_to_row_table := make_shape_function_to_row_table fe in
     Ok {| component := component;
          scalar_shape_function_data :=
            foldl
              (fun data i =>
                 let nonzero := nonzero_in fe i component in
                 <[i := {| scalar_is_nonzero_shape_function_component :=
                             nonzero;
                           scalar_row_index :=
                             row_of fe shape_function_to_row_table i
                               component nonzero |}]> data)
              (replicate (n_dofs_per_cell fe) scalar_value_initialized)
              (seq 0 (n_dofs_per_cell fe)) |}).

End Scalar.

(** [shape_function_data[i].is_nonzero_shape_function_component[d] = flag;
    shape_function_data[i].row_index[d] = row] *)
Definition set_sub_component (d : nat) (nonzero : bool) (r : N)
    (s : ShapeFunctionData) : ShapeFunctionData :=
  {| is_nonzero_shape_function_component :=
       <[d := nonzero]> (is_nonzero_shape_function_component s);
     row_index := <[d := r]> (row_index s);
     single_nonzero_component := single_nonzero_component s;
     single_nonzero_component_index := single_nonzero_component_index s |}.

(** [first_component + d], an [unsigned int]. *)
Definition component_at (first_component d : nat) : nat :=
  N.to_nat (wrap (N.of_nat (first_component + d))).

(** First loop nest of the constructors: for every sub-component [d] and
    every shape function [i]. The descriptor is asked about [component]
    whatever its value; a component that is not one of the element is
    outside what the descriptor is declared for. *)
Definition fill_sub_components (K : nat) (fe : FiniteElement)
    (first_component : nat) (table : list N)
    (data : list ShapeFunctionData) : list ShapeFunctionData :=
  foldl
    (fun data d =>
       let component := component_at first_component d in
       foldl
         (fun (data : list ShapeFunctionData) i =>
            let nonzero := nonzero_in fe i component in
            alter (set_sub_component d nonzero
                     (row_of fe table i component nonzero)) i data)
         data (seq 0 (n_dofs_per_cell fe)))
    data (seq 0 K).

(** [for (d = 0; d < K; ++d) if (flag[d]) ++n_nonzero_components;] *)
Definition count_nonzero_components (K : nat) (s : ShapeFunctionData) : nat :=
  foldl
    (fun n_nonzero_components (d : nat) =>
       if flag s d
       then S n_nonzero_components
       else n_nonzero_components)
    0 (seq 0 K).

(** [for (d ...) if (flag[d]) { single_nonzero_component = row_index[d];
    single_nonzero_component_index = d; break; }] over the remaining
    sub-components [ds]. *)
Fixpoint set_single_nonzero_component (ds : list nat) (s : ShapeFunctionData)
  : ShapeFunctionData :=
  match ds with
  | [] => s
  | d :: ds =>
      if flag s d
      then {| is_nonzero_shape_function_component :=
                is_nonzero_shape_function_component s;
              row_index := row_index s;
              single_nonzero_component := to_int (row s d);
              single_nonzero_component_index := d |}
      else set_single_nonzero_component ds s
  end.

Definition with_single_nonzero_component (snc : Z) (s : ShapeFunctionData)
  : ShapeFunctionData :=
  {| is_nonzero_shape_function_component :=
       is_nonzero_shape_function_component s;
     row_index := row_index s;
     single_nonzero_component := snc;
     single_nonzero_component_index := single_nonzero_component_index s |}.

(** Body of the second loop of the constructors. *)
Definition classify (K : nat) (s : ShapeFunctionData) : ShapeFunctionData :=
  let n_nonzero_components := count_nonzero_components K s in
  if n_nonzero_components =? 0
  then with_single_nonzero_component (-2) s
  else if 1 <? n_nonzero_components
  then with_single_nonzero_component (-1) s
  else set_single_nonzero_component (seq 0 K) s.

(** [AssertIndexRange (first_component + K - 1, fe.n_components())]: the
    index is an [unsigned int], computed modulo [2^32]. It is the largest
    unsigned value, and out of range, when [first_component + K] is 0,
    and it wraps to a small value when [first_component + K] exceeds
    [2^32]. *)
Definition index_range_ok (K : nat) (fe : FiniteElement)
    (first_component : nat) : bool :=
  (wrap (N.of_nat first_component + N.of_nat K + (2 ^ 32 - 1))
   <? N.of_nat (n_components fe))%N.

(** The constructor shared, up to the number [K] of sub-components, by
    the [Vector], [SymmetricTensor] and [Tensor] views. *)
Definition make_view (K : nat) (fe : FiniteElement) (first_component : nat)
  : result View :=
  Assert (index_range_ok K fe first_component) ExcIndexRange
    (let shape_function_to_row_table := make_shape_function_to_row_table fe in
    let data :=
      fill_sub_components K fe first_component shape_function_to_row_table
        (replicate (n_dofs_per_cell fe) (value_initialized K)) in
    Ok {| first_component := first_component;
          shape_function_data :=
            foldl
              (fun (data : list ShapeFunctionData) i =>
                 alter (classify K) i data)
              data (seq 0 (n_dofs_per_cell fe)) |}).

(** [Tensor<rank, dim>::n_independent_components] and
    [SymmetricTensor<2, dim>::n_independent_components] *)
Definition Tensor_n_independent_components (rank dim : nat) : nat :=
  dim ^ rank.

Definition SymmetricTensor_n_independent_components (dim : nat) : nat :=
  (dim * dim + dim) / 2.

Module Vector.

(** [Vector<dim, spacedim>::Vector (fe_values, first_vector_component)] *)
Definition Vector (spacedim : nat) (fe : FiniteElement)
    (first_vector_component : nat) : result View :=
  make_view spacedim fe first_vector_component.

End Vector.

Module SymmetricTensor.

(** [SymmetricTensor<2, dim, spacedim>::SymmetricTensor
    (fe_values, first_tensor_component)] *)
Definition SymmetricTensor (dim : nat) (fe : FiniteElement)
    (first_tensor_component : nat) : result View :=
  make_view (SymmetricTensor_n_independent_components dim) fe
    first_tensor_component.

End SymmetricTensor.

Module Tensor.

(** [Tensor<2, dim, spacedim>::Tensor (fe_values, first_tensor_component)] *)
Definition Tensor (dim : nat) (fe : FiniteElement)
    (first_tensor_component : nat) : result View :=
  make_view (dim * dim) fe first_tensor_component.

End Tensor.

(** *** internal::FEValuesViews::Cache *)

Record Cache : Type := {
  scalars : list ScalarView;
  vectors : list View;
  symmetric_second_order_tensors : list View;
  second_order_tensors : list View
}.

(** [views.emplace_back (fe_values, component)] for every [component]
    below [n]. *)
Definition emplace_views {V : Type} (make : nat -> result V) (n : nat)
  : result (list V) :=
  for_loop n
    (fun views component =>
       bind (make component) (fun v => Ok (views ++ [v])))
    [].

(** Number of windows of [width] consecutive components: [width] is a
    number of independent components, and the count is
    [n_components >= width ? n_components - width + 1 : 0]. *)
Definition n_windows (fe : FiniteElement) (width : nat) : nat :=
  if width <=? n_components fe then n_components fe - width + 1 else 0.

(** [Cache<dim, spacedim>::Cache (fe_values)] *)
Definition make_Cache (dim spacedim : nat) (fe : FiniteElement)
  : result Cache :=
  let n_scalars := n_components fe in
  bind (emplace_views (Scalar.Scalar fe) n_scalars) (fun scalars =>
  let n_vectors :=
    n_windows fe (Tensor_n_independent_components 1 spacedim) in
  bind (emplace_views (Vector.Vector spacedim fe) n_vectors) (fun vectors =>
  let n_symmetric_second_order_tensors :=
    n_windows fe (SymmetricTensor_n_independent_components spacedim) in
  bind (emplace_views (SymmetricTensor.SymmetricTensor dim fe)
          n_symmetric_second_order_tensors)
    (fun symmetric_second_order_tensors =>
  let n_second_order_tensors :=
    n_windows fe (Tensor_n_independent_components 2 spacedim) in
  bind (emplace_views (Tensor.Tensor dim fe) n_second_order_tensors)
    (fun second_order_tensors =>
  Ok {| scalars := scalars;
        vectors := vectors;
        symmetric_second_order_tensors := symmetric_second_order_tensors;
        second_order_tensors := second_order_tensors |})))).

End FEValuesViews.

(** *** What the constructors establish *)

Import FEValuesViews.

(** The sub-components of one shape function after the first loop nest. *)
Definition sub_components (K : nat) (fe : FiniteElement)
    (first_component : nat) (table : list N) (i : nat)
    (s : ShapeFunctionData) : ShapeFunctionData :=
  foldl
    (fun s d =>
       let component := component_at first_component d in
       set_sub_component d (nonzero_in fe i component)
         (row_of fe table i component (nonzero_in fe i component)) s)
    s (seq 0 K).

(** The classifier of a shape function agrees with its [K] flags. *)
Definition classifier_consistent (K : nat) (s : ShapeFunctionData) : Prop :=
  (single_nonzero_component s = (-2)%Z
   <-> forall d, d < K -> flag s d = false) /\
  (single_nonzero_component s = (-1)%Z
   <-> exists d1 d2, d1 < d2 /\ d2 < K /\
         flag s d1 = true /\ flag s d2 = true) /\
  (forall d, d < K -> flag s d = true ->
     (forall d', d' < K -> flag s d' = true -> d' = d) ->
     single_nonzero_component s = Z.of_N (row s d) /\
     single_nonzero_component_index s = d).

(** A view over the [K] components starting at [first] as the
    constructors leave it. *)
Definition view_consistent (K : nat) (fe : FiniteElement) (first : nat)
    (v : View) : Prop :=
  first_component v = first /\
  length (shape_function_data v) = n_dofs_per_cell fe /\
  forall i s, shape_function_data v !! i = Some s ->
    length (is_nonzero_shape_function_component s) = K /\
    length (row_index s) = K /\
    (forall d, d < K -> flag s d = nonzero_in fe i (first + d)) /\
    (forall d, d < K -> flag s d = true ->
       make_shape_function_to_row_table fe
         !! (i * n_components fe + (first + d)) = Some (row s d) /\
       (row s d < N.of_nat (total_nonzero_pairs fe))%N) /\
    classifier_consistent K s.

(** *** A small element used to exercise the statements

    Three shape functions and two components: shape function 0 is
    primitive in component 0, shape function 1 is primitive in component
    1, and shape function 2 is nonzero in both components. *)
Definition example_fe : FiniteElement :=
  {| n_dofs_per_cell := 3;
     n_components := 2;
     is_primitive := false;
     is_primitive_shape := fun i => i <? 2;
     system_to_component_index := fun i => i;
     get_nonzero_components :=
       fun i c => if i <? 2 then c =? i else true;
     n_nonzero_components := fun i => if i <? 2 then 1 else 2 |}.

(** ** FEValuesBase: cell similarity and reinit *)

Module CellSimilarity.

Inductive Similarity : Type :=
| none
| translation
| inverted_translation
| invalid_next_cell.

Definition eqb (a b : Similarity) : bool :=
  match a, b with
  | none, none
  | translation, translation
  | inverted_translation, inverted_translation
  | invalid_next_cell, invalid_next_cell => true
  | _, _ => false
  end.

End CellSimilarity.

(** The mesh (external collaborator): its cells, whether a cell is a
    translate of another, the direction flag of a cell and whether two
    cells belong to the same triangulation. *)
Record Mesh : Type := {
  Cell : Type;
  is_translation_of : Cell -> Cell -> bool;
  direction_flag : Cell -> bool;
  same_triangulation : Cell -> Cell -> bool
}.

(** The part of the state of [FEValuesBase] that the reinit protocol
    touches. [present_cell] is [None] while no cell is bound;
    [update_mapping] says whether [update_flags & update_mapping] is
    nonzero. *)
Record FEValuesBase (mesh : Mesh) : Type := {
  present_cell : option (Cell mesh);
  cell_similarity : CellSimilarity.Similarity;
  update_mapping : bool
}.
Arguments present_cell {mesh} _.
Arguments cell_similarity {mesh} _.
Arguments update_mapping {mesh} _.

Section Reinit.
Variables dim spacedim : nat.
Variable mesh : Mesh.
(** [Mapping::fill_fe_values], reduced to the similarity it returns. *)
Variable fill_fe_values :
  Cell mesh -> CellSimilarity.Similarity -> CellSimilarity.Similarity.

Definition set_cell_similarity (s : CellSimilarity.Similarity)
    (fev : FEValuesBase mesh) : FEValuesBase mesh :=
  {| present_cell := present_cell fev;
     cell_similarity := s;
     update_mapping := update_mapping fev |}.

Definition set_present_cell (c : option (Cell mesh))
    (fev : FEValuesBase mesh) : FEValuesBase mesh :=
  {| present_cell := c;
     cell_similarity := cell_similarity fev;
     update_mapping := update_mapping fev |}.

(** The state the constructor of [FEValuesBase] leaves. *)
Definition constructed (flags_update_mapping : bool) : FEValuesBase mesh :=
  {| present_cell := None;
     cell_similarity := CellSimilarity.none;
     update_mapping := flags_update_mapping |}.

(** [FEValuesBase::invalidate_present_cell]. Its assertion that a cell is
    bound holds where [maybe_invalidate_previous_present_cell] calls it;
    the listeners it disconnects are not part of the state kept here. *)
Definition invalidate_present_cell (fev : FEValuesBase mesh)
  : FEValuesBase mesh :=
  set_present_cell None fev.

(** [FEValuesBase::maybe_invalidate_previous_present_cell] *)
Definition maybe_invalidate_previous_present_cell (cell : Cell mesh)
    (fev : FEValuesBase mesh) : FEValuesBase mesh :=
  match present_cell fev with
  | Some previous =>
      if same_triangulation mesh cell previous
      then fev
      else invalidate_present_cell fev
  | None => fev
  end.

(** [FEValuesBase::check_cell_similarity]; [n_threads] is
    [MultithreadInfo::n_threads()]. *)
Definition check_cell_similarity (n_threads : nat) (cell : Cell mesh)
    (fev : FEValuesBase mesh) : FEValuesBase mesh :=
  if 1 <? n_threads
  then set_cell_similarity CellSimilarity.none fev
  else
    let fev :=
      match present_cell fev with
      | None => set_cell_similarity CellSimilarity.none fev
      | Some previous =>
          if CellSimilarity.eqb (cell_similarity fev)
               CellSimilarity.invalid_next_cell
          then set_cell_similarity CellSimilarity.none fev
          else set_cell_similarity
                 (if is_translation_of mesh cell previous
                  then CellSimilarity.translation
                  else CellSimilarity.none) fev
      end in
    if (dim <? spacedim)
       && CellSimilarity.eqb (cell_similarity fev) CellSimilarity.translation
    then
      match present_cell fev with
      | Some previous =>
          if negb (Bool.eqb (direction_flag mesh previous)
                     (direction_flag mesh cell))
          then set_cell_similarity CellSimilarity.inverted_translation fev
          else fev
      | None => fev
      end
    else fev.

(** [FEValues::do_reinit]: the mapping fills first and may replace the
    classification; what the element fills afterwards is not part of the
    state kept here. The function runs with a cell bound ([reinit] binds
    it just before the call); without one the state is left as it is. *)
Definition do_reinit (fev : FEValuesBase mesh) : FEValuesBase mesh :=
  if update_mapping fev
  then
    match present_cell fev with
    | Some cell =>
        set_cell_similarity (fill_fe_values cell (cell_similarity fev)) fev
    | None => fev
    end
  else fev.

(** [FEValues::reinit (cell)], for a cell that meets the preconditions
    the function asserts on its collaborators (the mapping is compatible
    with the reference cell, the element is the one of the cell). *)
Definition reinit (n_threads : nat) (cell : Cell mesh)
    (fev : FEValuesBase mesh) : FEValuesBase mesh :=
  let fev := maybe_invalidate_previous_present_cell cell fev in
  let fev := check_cell_similarity n_threads cell fev in
  let fev := set_present_cell (Some cell) fev in
  do_reinit fev.

End Reinit.

(** ** Numbers and tensors *)

(** The template parameter [Number] of the kernels, with the arithmetic
    the kernels use, the constant 0.5 used to symmetrize, and
    [internal::CheckForZero<Number>::value]. The entries of the shape
    function tables, of type [double] in the source, are taken in the
    same type. *)
Class NumberType : Type := {
  Number : Type;
  num_zero : Number;
  num_one : Number;
  num_add : Number -> Number -> Number;
  num_mul : Number -> Number -> Number;
  num_sub : Number -> Number -> Number;
  num_opp : Number -> Number;
  num_half : Number;
  CheckForZero : Number -> bool
}.

Declare Scope number_scope.
Delimit Scope number_scope with num.
Notation "0" := num_zero : number_scope.
Notation "1" := num_one : number_scope.
Infix "+" := num_add : number_scope.
Infix "*" := num_mul : number_scope.
Infix "-" := num_sub : number_scope.
Notation "- x" := (num_opp x) : number_scope.

(** The laws of exact arithmetic: the numbers form a commutative ring in
    which [num_half] is one half, and the zero test only ever accepts
    zero (the test of the automatically differentiable numbers accepts
    nothing). Floating point numbers do not satisfy them. *)
Class NumberLaws (num : NumberType) : Prop := {
  number_ring :
    ring_theory num_zero num_one num_add num_mul num_sub num_opp eq;
  num_half_half : (num_half + num_half = 1)%num;
  CheckForZero_sound : forall x : Number, CheckForZero x = true -> x = 0%num
}.

(** [double]: IEEE 754 binary64 with the zero test of the plain number
    types, [value == 0.0]. *)
Definition double_number : NumberType :=
  {| Number := float;
     num_zero := 0%float;
     num_one := 1%float;
     num_add := PrimFloat.add;
     num_mul := PrimFloat.mul;
     num_sub := PrimFloat.sub;
     num_opp := PrimFloat.opp;
     num_half := 0.5%float;
     CheckForZero := fun x => PrimFloat.eqb x 0%float |}.

(** The rational numbers, a number type with exact arithmetic, with the
    zero test of the plain number types. *)
Definition rational_number : NumberType :=
  {| Number := Qc;
     num_zero := 0%Qc;
     num_one := 1%Qc;
     num_add := Qcplus;
     num_mul := Qcmult;
     num_sub := Qcminus;
     num_opp := Qcopp;
     num_half := Q2Qc (Qmake 1 2);
     CheckForZero := fun x => Qeq_bool x 0 |}.

(** The number [n] of a number type: [n] times one. *)
Fixpoint number_of_nat {num : NumberType} (n : nat) : Number :=
  match n with
  | 0 => 0%num
  | S n => (number_of_nat n + 1)%num
  end.

Definition numbers {num : NumberType} (l : list nat) : list Number :=
  map number_of_nat l.

Section Tensors.
Context {num : NumberType}.

(** [Tensor<rank, spacedim, Number>]: a tensor of rank 0 is a number, a
    tensor of rank [r + 1] maps an index to a tensor of rank [r]. *)
Fixpoint Tensor (rank : nat) : Type :=
  match rank with
  | 0 => Number
  | S r => nat -> Tensor r
  end.

Fixpoint tensor_zero (rank : nat) : Tensor rank :=
  match rank with
  | 0 => 0%num
  | S r => fun _ => tensor_zero r
  end.

Fixpoint tensor_add (rank : nat) : Tensor rank -> Tensor rank -> Tensor rank :=
  match rank with
  | 0 => num_add
  | S r => fun s t i => tensor_add r (s i) (t i)
  end.

(** [value * tensor] *)
Fixpoint tensor_scale (rank : nat) (value : Number)
  : Tensor rank -> Tensor rank :=
  match rank with
  | 0 => num_mul value
  | S r => fun t i => tensor_scale r value (t i)
  end.

(** Equality of all components. *)
Fixpoint tensor_eq (rank : nat) : Tensor rank -> Tensor rank -> Prop :=
  match rank with
  | 0 => eq
  | S r => fun s t => forall i, tensor_eq r (s i) (t i)
  end.

(** [t[k] = f (t[k])] *)
Definition tensor_update_at {rank : nat} (k : nat)
    (f : Tensor rank -> Tensor rank) (t : Tensor (S rank))
  : Tensor (S rank) :=
  fun j => if j =? k then f (t j) else t j.

(** [t[k] += x] *)
Definition tensor_add_at (rank : nat) (k : nat) (x : Tensor rank)
    (t : Tensor (S rank)) : Tensor (S rank) :=
  tensor_update_at k (fun y => tensor_add rank y x) t.

(** [SymmetricTensor<2, spacedim, Number>], stored by unrolled index. *)
Definition SymmetricTensor2 : Type := Tensor 1.

(** A table [Table<2, T>], read at (row, quadrature point). *)
Definition Table (T : Type) : Type := nat -> nat -> T.

(** [std::fill (values.begin(), values.end(), zero)] *)
Definition fill {T} (zero : T) (values : list T) : list T :=
  map (fun _ => zero) values.

(** [for (q_point = 0; q_point < n_quadrature_points; ++q_point)
      values[q_point] = body (q_point, values[q_point])] *)
Definition for_each_q_point {T} (values : list T) (body : nat -> T -> T)
  : list T :=
  imap body values.

#[global] Instance number_inhabited : Inhabited Number := populate 0%num.

End Tensors.

#[global] Instance scalar_shape_function_data_inhabited :
  Inhabited FEValuesViews.ScalarShapeFunctionData :=
  populate FEValuesViews.scalar_value_initialized.

#[global] Instance shape_function_data_inhabited :
  Inhabited FEValuesViews.ShapeFunctionData :=
  populate (FEValuesViews.value_initialized 0).

(** ** FEValuesViews::internal: the accumulation kernels *)

Module Kernels.
Import FEValuesViews.

Section Kernels.
Context {num : NumberType}.
Variables dim spacedim : nat.

(** The layout of tensors, declared outside this file:
    [SymmetricTensor<2, spacedim>::unrolled_to_component_indices],
    [SymmetricTensor<2, spacedim>::component_to_unrolled_index] and
    [Tensor<2, spacedim>::unrolled_to_component_indices]. *)
Variable symmetric_unrolled_to_component_indices : nat -> nat * nat.
Variable symmetric_component_to_unrolled_index : nat * nat -> nat.
Variable tensor_unrolled_to_component_indices : nat -> nat * nat.

Local Open Scope number_scope.

(** Modelled from the spec: [trace] of a tensor of rank 2, declared
    outside this file, is the sum of the diagonal entries. *)
Definition trace (t : Tensor 2) : Number :=
  foldl (fun sum i => sum + t i i) 0 (seq 0 spacedim).

(** Modelled from the spec: [symmetrize] of a tensor of rank 2, declared
    outside this file, is the average of the tensor and its transpose,
    here in unrolled symmetric storage. *)
Definition symmetrize (t : Tensor 2) : SymmetricTensor2 :=
  fun u =>
    let '(i, j) := symmetric_unrolled_to_component_indices u in
    num_half * (t i j + t j i).

(** Modelled from the spec: [symmetrize_single_row (n, row)], declared
    outside this file, symmetrizes the tensor of rank 2 whose row [n] is
    [row] and whose other rows are zero. *)
Definition symmetrize_single_row (n : nat) (row : Tensor 1)
  : SymmetricTensor2 :=
  fun u =>
    let '(i, j) := symmetric_unrolled_to_component_indices u in
    num_half * ((if i =? n then row j else 0) + (if j =? n then row i else 0)).

(** *** Scalar views *)

Definition do_function_values_Scalar (dof_values : list Number)
    (shape_values : Table Number)
    (shape_function_data : list ScalarShapeFunctionData)
    (values : list Number) : list Number :=
  let dofs_per_cell := length dof_values in
  let values := fill 0 values in
  foldl
    (fun values shape_function =>
       let s := shape_function_data !!! shape_function in
       if scalar_is_nonzero_shape_function_component s then
         let value := dof_values !!! shape_function in
         if CheckForZero value then values
         else
           for_each_q_point values
             (fun q_point v =>
                v + value * shape_values (N.to_nat (scalar_row_index s))
                              q_point)
       else values)
    values (seq 0 dofs_per_cell).

Definition do_function_derivatives_Scalar (order : nat)
    (dof_values : list Number)
    (shape_derivatives : Table (Tensor order))
    (shape_function_data : list ScalarShapeFunctionData)
    (derivatives : list (Tensor order)) : list (Tensor order) :=
  let dofs_per_cell := length dof_values in
  let derivatives := fill (tensor_zero order) derivatives in
  foldl
    (fun derivatives shape_function =>
       let s := shape_function_data !!! shape_function in
       if scalar_is_nonzero_shape_function_component s then
         let value := dof_values !!! shape_function in
         if CheckForZero value then derivatives
         else
           for_each_q_point derivatives
             (fun q_point v =>
                tensor_add order v
                  (tensor_scale order value
                     (shape_derivatives (N.to_nat (scalar_row_index s))
                        q_point)))
       else derivatives)
    derivatives (seq 0 dofs_per_cell).

Definition do_function_laplacians_Scalar (dof_values : list Number)
    (shape_hessians : Table (Tensor 2))
    (shape_function_data : list ScalarShapeFunctionData)
    (laplacians : list Number) : list Number :=
  let dofs_per_cell := length dof_values in
  let laplacians := fill 0 laplacians in
  foldl
    (fun laplacians shape_function =>
       let s := shape_function_data !!! shape_function in
       if scalar_is_nonzero_shape_function_component s then
         let value := dof_values !!! shape_function in
         if CheckForZero value then laplacians
         else
           for_each_q_point laplacians
             (fun q_point v =>
                v + value * trace (shape_hessians
                                     (N.to_nat (scalar_row_index s)) q_point))
       else laplacians)
    laplacians (seq 0 dofs_per_cell).

(** *** Vector views *)

(** The frame shared by the kernels of the views with sub-components:
    skip a shape function that is zero in the selected components or
    whose coefficient is zero, else run the fast path when there is a
    single nonzero component and the general path otherwise. *)
Definition accumulate {T : Type} (dof_values : list Number)
    (shape_function_data : list ShapeFunctionData)
    (single : Number -> Z -> nat -> T -> T)
    (multiple : Number -> ShapeFunctionData -> T -> T)
    (out : T) : T :=
  let dofs_per_cell := length dof_values in
  foldl
    (fun out shape_function =>
       let s := shape_function_data !!! shape_function in
       let snc := single_nonzero_component s in
       if (snc =? -2)%Z then out
       else
         let value := dof_values !!! shape_function in
         if CheckForZero value then out
         else if negb (snc =? -1)%Z
         then single value snc (single_nonzero_component_index s) out
         else multiple value s out)
    out (seq 0 dofs_per_cell).

Definition do_function_values_Vector (dof_values : list Number)
    (shape_values : Table Number)
    (shape_function_data : list ShapeFunctionData)
    (values : list (Tensor 1)) : list (Tensor 1) :=
  accumulate dof_values shape_function_data
    (fun value snc comp values =>
       for_each_q_point values
         (fun q_point v =>
            tensor_add_at 0 comp
              (value * shape_values (Z.to_nat snc) q_point) v))
    (fun value s values =>
       foldl
         (fun values d =>
            if flag s d then
              for_each_q_point values
                (fun q_point v =>
                   tensor_add_at 0 d
                     (value * shape_values (N.to_nat (row s d)) q_point) v)
            else values)
         values (seq 0 spacedim))
    (fill (tensor_zero 1) values).

Definition do_function_derivatives_Vector (order : nat)
    (dof_values : list Number)
    (shape_derivatives : Table (Tensor order))
    (shape_function_data : list ShapeFunctionData)
    (derivatives : list (Tensor (S order))) : list (Tensor (S order)) :=
  accumulate dof_values shape_function_data
    (fun value snc comp derivatives =>
       for_each_q_point derivatives
         (fun q_point v =>
            tensor_add_at order comp
              (tensor_scale order value
                 (shape_derivatives (Z.to_nat snc) q_point)) v))
    (fun value s derivatives =>
       foldl
         (fun derivatives d =>
            if flag s d then
              for_each_q_point derivatives
                (fun q_point v =>
                   tensor_add_at order d
                     (tensor_scale order value
                        (shape_derivatives (N.to_nat (row s d)) q_point)) v)
            else derivatives)
         derivatives (seq 0 spacedim))
    (fill (tensor_zero (S order)) derivatives).

Definition do_function_symmetric_gradients_Vector (dof_values : list Number)
    (shape_gradients : Table (Tensor 1))
    (shape_function_data : list ShapeFunctionData)
    (symmetric_gradients : list SymmetricTensor2) : list SymmetricTensor2 :=
  accumulate dof_values shape_function_data
    (fun value snc comp symmetric_gradients =>
       for_each_q_point symmetric_gradients
         (fun q_point v =>
            tensor_add 1 v
              (tensor_scale 1 value
                 (symmetrize_single_row comp
                    (shape_gradients (Z.to_nat snc) q_point)))))
    (fun value s symmetric_gradients =>
       for_each_q_point symmetric_gradients
         (fun q_point v =>
            let grad :=
              foldl
                (fun (grad : Tensor 2) d =>
                   if flag s d then
                     tensor_update_at d
                       (fun _ =>
                          tensor_scale 1 value
                            (shape_gradients (N.to_nat (row s d)) q_point))
                       grad
                   else grad)
                (tensor_zero 2) (seq 0 spacedim) in
            tensor_add 1 v (symmetrize grad)))
    (fill (tensor_zero 1) symmetric_gradients).

Definition do_function_divergences_Vector (dof_values : list Number)
    (shape_gradients : Table (Tensor 1))
    (shape_function_data : list ShapeFunctionData)
    (divergences : list Number) : list Number :=
  accumulate dof_values shape_function_data
    (fun value snc comp divergences =>
       for_each_q_point divergences
         (fun q_point v =>
            v + value * shape_gradients (Z.to_nat snc) q_point comp))
    (fun value s divergences =>
       foldl
         (fun divergences d =>
            if flag s d then
              for_each_q_point divergences
                (fun q_point v =>
                   v + value * shape_gradients (N.to_nat (row s d)) q_point d)
            else divergences)
         divergences (seq 0 spacedim))
    (fill 0 divergences).

Definition do_function_laplacians_Vector (dof_values : list Number)
    (shape_hessians : Table (Tensor 2))
    (shape_function_data : list ShapeFunctionData)
    (laplacians : list (Tensor 1)) : list (Tensor 1) :=
  accumulate dof_values shape_function_data
    (fun value snc comp laplacians =>
       for_each_q_point laplacians
         (fun q_point v =>
            tensor_add_at 0 comp
              (value * trace (shape_hessians (Z.to_nat snc) q_point)) v))
    (fun value s laplacians =>
       foldl
         (fun laplacians d =>
            if flag s d then
              for_each_q_point laplacians
                (fun q_point v =>
                   tensor_add_at 0 d
                     (value * trace (shape_hessians (N.to_nat (row s d))
                                       q_point)) v)
            else laplacians)
         laplacians (seq 0 spacedim))
    (fill (tensor_zero 1) laplacians).

(** The same frame for the kernels that contain an assertion. *)
Definition accumulate_checked {T : Type} (dof_values : list Number)
    (shape_function_data : list ShapeFunctionData)
    (single : Number -> Z -> nat -> T -> result T)
    (multiple : Number -> ShapeFunctionData -> T -> result T)
    (out : T) : result T :=
  let dofs_per_cell := length dof_values in
  for_loop dofs_per_cell
    (fun out shape_function =>
       let s := shape_function_data !!! shape_function in
       let snc := single_nonzero_component s in
       if (snc =? -2)%Z then Ok out
       else
         let value := dof_values !!! shape_function in
         if CheckForZero value then Ok out
         else if negb (snc =? -1)%Z
         then single value snc (single_nonzero_component_index s) out
         else multiple value s out)
    out.

(** [curl[k] += value * gradient[j]] and [curl[k] -= value * gradient[j]] *)
Definition curl_add (value : Number) (gradient : Tensor 1) (k j : nat)
    (curl : Tensor 1) : Tensor 1 :=
  tensor_update_at (rank := 0) k (fun y => y + value * gradient j) curl.

Definition curl_sub (value : Number) (gradient : Tensor 1) (k j : nat)
    (curl : Tensor 1) : Tensor 1 :=
  tensor_update_at (rank := 0) k (fun y => y - value * gradient j) curl.

(** The three loops over the quadrature points of the curl in three
    space dimensions, for a contribution of sub-component 0, 1 and 2. *)
Definition curl_3d (shape_gradients : Table (Tensor 1)) (r : nat)
    (value : Number) (d : nat) (curls : list (Tensor 1))
  : list (Tensor 1) :=
  for_each_q_point curls
    (fun q_point v =>
       let gradient := shape_gradients r q_point in
       match d with
       | 0 => curl_sub value gradient 2 1 (curl_add value gradient 1 2 v)
       | 1 => curl_add value gradient 2 0 (curl_sub value gradient 0 2 v)
       | _ => curl_sub value gradient 1 0 (curl_add value gradient 0 1 v)
       end).

(** The fast path and the general path of [case 2]. *)
Definition curl_2d_single (shape_gradients : Table (Tensor 1))
    (value : Number) (snc : Z) (index : nat) (curls : list (Tensor 1))
  : result (list (Tensor 1)) :=
  Assert (0 <=? snc)%Z ExcInternalError
    (if index =? 0
     then
       Ok (for_each_q_point curls
             (fun q_point v =>
                curl_sub value (shape_gradients (Z.to_nat snc) q_point) 0 1
                  v))
     else
       Ok (for_each_q_point curls
             (fun q_point v =>
                curl_add value (shape_gradients (Z.to_nat snc) q_point) 0 0
                  v))).

Definition curl_2d_multiple (shape_gradients : Table (Tensor 1))
    (value : Number) (s : ShapeFunctionData) (curls : list (Tensor 1))
  : result (list (Tensor 1)) :=
  let curls :=
    if flag s 0
    then
      for_each_q_point curls
        (fun q_point v =>
           curl_sub value
             (shape_gradients (N.to_nat (row s 0)) q_point) 0 1 v)
    else curls in
  let curls :=
    if flag s 1
    then
      for_each_q_point curls
        (fun q_point v =>
           curl_add value
             (shape_gradients (N.to_nat (row s 1)) q_point) 0 0 v)
    else curls in
  Ok curls.

(** The fast path and the general path of [case 3]. *)
Definition curl_3d_single (shape_gradients : Table (Tensor 1))
    (value : Number) (snc : Z) (index : nat) (curls : list (Tensor 1))
  : result (list (Tensor 1)) :=
  match index with
  | 0 | 1 | 2 =>
      Ok (curl_3d shape_gradients (Z.to_nat snc) value index curls)
  | _ => Assert false ExcInternalError (Ok curls)
  end.

Definition curl_3d_multiple (shape_gradients : Table (Tensor 1))
    (value : Number) (s : ShapeFunctionData) (curls : list (Tensor 1))
  : result (list (Tensor 1)) :=
  let curls :=
    if flag s 0
    then curl_3d shape_gradients (N.to_nat (row s 0)) value 0 curls
    else curls in
  let curls :=
    if flag s 1
    then curl_3d shape_gradients (N.to_nat (row s 1)) value 1 curls
    else curls in
  let curls :=
    if flag s 2
    then curl_3d shape_gradients (N.to_nat (row s 2)) value 2 curls
    else curls in
  Ok curls.

Definition do_function_curls_Vector (dof_values : list Number)
    (shape_gradients : Table (Tensor 1))
    (shape_function_data : list ShapeFunctionData)
    (curls : list (Tensor 1)) : result (list (Tensor 1)) :=
  let curls := fill (tensor_zero 1) curls in
  match spacedim with
  | 1 => Assert false ExcMessage (Ok curls)
  | 2 =>
      accumulate_checked dof_values shape_function_data
        (curl_2d_single shape_gradients) (curl_2d_multiple shape_gradients)
        curls
  | 3 =>
      accumulate_checked dof_values shape_function_data
        (curl_3d_single shape_gradients) (curl_3d_multiple shape_gradients)
        curls
  | _ => Ok curls
  end.

(** *** Symmetric tensor views *)

Definition do_function_values_SymmetricTensor (dof_values : list Number)
    (shape_values : Table Number)
    (shape_function_data : list ShapeFunctionData)
    (values : list SymmetricTensor2) : list SymmetricTensor2 :=
  accumulate dof_values shape_function_data
    (fun value snc index values =>
       let comp := symmetric_unrolled_to_component_indices index in
       for_each_q_point values
         (fun q_point v =>
            tensor_add_at 0 (symmetric_component_to_unrolled_index comp)
              (value * shape_values (Z.to_nat snc) q_point) v))
    (fun value s values =>
       foldl
         (fun values d =>
            if flag s d then
              let comp := symmetric_unrolled_to_component_indices d in
              for_each_q_point values
                (fun q_point v =>
                   tensor_add_at 0
                     (symmetric_component_to_unrolled_index comp)
                     (value * shape_values (N.to_nat (row s d)) q_point) v)
            else values)
         values (seq 0 (SymmetricTensor_n_independent_components spacedim)))
    (fill (tensor_zero 1) values).

(** The fast path of the divergence of a symmetric tensor. *)
Definition symmetric_divergence_single
    (shape_gradients : Table (Tensor 1)) (value : Number) (snc : Z)
    (comp : nat) (divergences : list (Tensor 1)) : list (Tensor 1) :=
  let ii := fst (symmetric_unrolled_to_component_indices comp) in
  let jj := snd (symmetric_unrolled_to_component_indices comp) in
  for_each_q_point divergences
    (fun q_point v =>
       let gradient := shape_gradients (Z.to_nat snc) q_point in
       let v := tensor_add_at 0 ii (value * gradient jj) v in
       if negb (ii =? jj)
       then tensor_add_at 0 jj (value * gradient ii) v
       else v).

(** [for (d = 0; d < K; ++d) if (flag[d]) { Assert (false,
    ExcNotImplemented()); ... }], where [unreached] stands for the
    statements that follow the assertion. *)
Definition not_implemented {T : Type} (K : nat) (s : ShapeFunctionData)
    (unreached : nat -> T -> T) (out : T) : result T :=
  for_loop K
    (fun out d =>
       if flag s d
       then Assert false ExcNotImplemented (Ok (unreached d out))
       else Ok out)
    out.

(** The statements that follow the assertion in the divergence of a
    symmetric tensor: the pointer into the row of gradients advances
    with every [j] and once more with every quadrature point. *)
Definition symmetric_divergence_unreached
    (shape_gradients : Table (Tensor 1)) (value : Number)
    (s : ShapeFunctionData) (d : nat) (divergences : list (Tensor 1))
  : list (Tensor 1) :=
  let comp := single_nonzero_component_index s in
  for_each_q_point divergences
    (fun q_point v =>
       foldl
         (fun v j =>
            let vector_component :=
              symmetric_component_to_unrolled_index (comp, j) in
            tensor_add_at 0 vector_component
              (value * shape_gradients (N.to_nat (row s d))
                         (q_point * (spacedim + 1) + j)%nat j) v)
         v (seq 0 spacedim)).

Definition do_function_divergences_SymmetricTensor
    (dof_values : list Number)
    (shape_gradients : Table (Tensor 1))
    (shape_function_data : list ShapeFunctionData)
    (divergences : list (Tensor 1)) : result (list (Tensor 1)) :=
  accumulate_checked dof_values shape_function_data
    (fun value snc comp divergences =>
       Ok (symmetric_divergence_single shape_gradients value snc comp
             divergences))
    (fun value s divergences =>
       not_implemented (SymmetricTensor_n_independent_components spacedim)
         s (symmetric_divergence_unreached shape_gradients value s)
         divergences)
    (fill (tensor_zero 1) divergences).

(** *** Tensor views *)

Definition do_function_values_Tensor (dof_values : list Number)
    (shape_values : Table Number)
    (shape_function_data : list ShapeFunctionData)
    (values : list (Tensor 2)) : list (Tensor 2) :=
  accumulate dof_values shape_function_data
    (fun value snc comp values =>
       let indices := tensor_unrolled_to_component_indices comp in
       for_each_q_point values
         (fun q_point v =>
            tensor_update_at (fst indices)
              (tensor_add_at 0 (snd indices)
                 (value * shape_values (Z.to_nat snc) q_point)) v))
    (fun value s values =>
       foldl
         (fun values d =>
            if flag s d then
              let indices := tensor_unrolled_to_component_indices d in
              for_each_q_point values
                (fun q_point v =>
                   tensor_update_at (fst indices)
                     (tensor_add_at 0 (snd indices)
                        (value * shape_values (N.to_nat (row s d)) q_point))
                     v)
            else values)
         values (seq 0 (dim * dim)))
    (fill (tensor_zero 2) values).

Definition do_function_divergences_Tensor (dof_values : list Number)
    (shape_gradients : Table (Tensor 1))
    (shape_function_data : list ShapeFunctionData)
    (divergences : list (Tensor 1)) : result (list (Tensor 1)) :=
  accumulate_checked dof_values shape_function_data
    (fun value snc comp divergences =>
       let indices := tensor_unrolled_to_component_indices comp in
       let ii := fst indices in
       let jj := snd indices in
       Ok (for_each_q_point divergences
             (fun q_point v =>
                tensor_add_at 0 ii
                  (value * shape_gradients (Z.to_nat snc) q_point jj) v)))
    (fun value s divergences =>
       not_implemented (dim * dim) s (fun _ divergences => divergences)
         divergences)
    (fill (tensor_zero 1) divergences).

Definition do_function_gradients_Tensor (dof_values : list Number)
    (shape_gradients : Table (Tensor 1))
    (shape_function_data : list ShapeFunctionData)
    (gradients : list (Tensor 3)) : result (list (Tensor 3)) :=
  accumulate_checked dof_values shape_function_data
    (fun value snc comp gradients =>
       let indices := tensor_unrolled_to_component_indices comp in
       let ii := fst indices in
       let jj := snd indices in
       Ok (for_each_q_point gradients
             (fun q_point v =>
                tensor_update_at ii
                  (tensor_add_at 1 jj
                     (tensor_scale 1 value
                        (shape_gradients (Z.to_nat snc) q_point))) v)))
    (fun value s gradients =>
       not_implemented (dim * dim) s (fun _ gradients => gradients)
         gradients)
    (fill (tensor_zero 3) gradients).

End Kernels.
End Kernels.

(** *** Linear contractions *)

Section Contractions.
Context {num : NumberType}.

(** The sum of [f 0], ..., [f (n - 1)]. *)
Fixpoint tensor_sum (rank : nat) (n : nat) (f : nat -> Tensor rank)
  : Tensor rank :=
  match n with
  | 0 => tensor_zero rank
  | S n => tensor_add rank (tensor_sum rank n f) (f n)
  end.

(** [out'] is [out] with [g q] added at every quadrature point [q]. *)
Definition adds (rank : nat) (g : nat -> Tensor rank)
    (out out' : list (Tensor rank)) : Prop :=
  length out' = length out /\
  forall q v, out !! q = Some v ->
    exists v', out' !! q = Some v' /\
      tensor_eq rank v' (tensor_add rank v (g q)).

(** The value at quadrature point [q] of every element of [out] is the
    contraction of the coefficients with [phi]. *)
Definition contracts (rank : nat) (phi : nat -> nat -> Tensor rank)
    (dof_values : list Number) (out : list (Tensor rank)) : Prop :=
  forall q v, out !! q = Some v ->
    tensor_eq rank v
      (tensor_sum rank (length dof_values)
         (fun i => tensor_scale rank (dof_values !!! i) (phi i q))).

(** [a * c1 + b * c2] *)
Definition linear_combination (a b : Number) (c1 c2 : list Number)
  : list Number :=
  zip_with (fun x y => (a * x + b * y)%num) c1 c2.

(** [v] is [a * v1 + b * v2], component-wise at every quadrature point. *)
Definition is_linear_combination (rank : nat) (a b : Number)
    (v v1 v2 : list (Tensor rank)) : Prop :=
  length v = length v1 /\ length v = length v2 /\
  forall q w w1 w2,
    v !! q = Some w -> v1 !! q = Some w1 -> v2 !! q = Some w2 ->
    tensor_eq rank w
      (tensor_add rank (tensor_scale rank a w1) (tensor_scale rank b w2)).

(** A kernel that always returns is linear in the coefficient array. *)
Definition linear_kernel (rank : nat)
    (kernel : list Number -> list (Tensor rank) -> list (Tensor rank))
  : Prop :=
  forall a b c1 c2 out, length c1 = length c2 ->
    is_linear_combination rank a b
      (kernel (linear_combination a b c1 c2) out)
      (kernel c1 out) (kernel c2 out).

(** A kernel that may raise is linear wherever it returns: when it
    returns for [c1] and for [c2] it returns for [a * c1 + b * c2], with
    the linear combination of the two results. *)
Definition linear_where_defined (rank : nat)
    (kernel : list Number -> list (Tensor rank)
              -> result (list (Tensor rank))) : Prop :=
  forall a b c1 c2 out v1 v2, length c1 = length c2 ->
    kernel c1 out = Ok v1 -> kernel c2 out = Ok v2 ->
    exists v, kernel (linear_combination a b c1 c2) out = Ok v /\
      is_linear_combination rank a b v v1 v2.

(** The claim of linearity as the specification states it for every
    kernel: the kernel returns for every coefficient array, and linearly
    so. *)
Definition linear_as_stated (rank : nat)
    (kernel : list Number -> list (Tensor rank)
              -> result (list (Tensor rank))) : Prop :=
  forall a b c1 c2 out, length c1 = length c2 ->
    exists v v1 v2,
      kernel (linear_combination a b c1 c2) out = Ok v /\
      kernel c1 out = Ok v1 /\ kernel c2 out = Ok v2 /\
      is_linear_combination rank a b v v1 v2.

(** The claim of linearity for coefficient arrays with one coefficient
    per shape function of [shape_function_data]: the kernel returns for
    every such array, and linearly so. *)
Definition linear_for (rank : nat)
    (shape_function_data : list FEValuesViews.ShapeFunctionData)
    (kernel : list Number -> list (Tensor rank)
              -> result (list (Tensor rank))) : Prop :=
  forall a b c1 c2 out,
    length c1 = length shape_function_data ->
    length c2 = length shape_function_data ->
    exists v v1 v2,
      kernel (linear_combination a b c1 c2) out = Ok v /\
      kernel c1 out = Ok v1 /\ kernel c2 out = Ok v2 /\
      is_linear_combination rank a b v v1 v2.

(** The tensor of rank [rank + 1] whose component [k] is [x] and whose
    other components are zero. *)
Definition unit_at (rank : nat) (k : nat) (x : Tensor rank)
  : Tensor (S rank) :=
  fun j => if j =? k then x else tensor_zero rank.

(** The contribution per unit coefficient of the general path that
    loops over [K] sub-components, each flagged sub-component [d]
    contributing [psi d]. *)
Definition sub_component_sum (rank : nat) (K : nat)
    (psi : FEValuesViews.ShapeFunctionData -> nat -> nat -> Tensor rank)
    (s : FEValuesViews.ShapeFunctionData) (q : nat) : Tensor rank :=
  tensor_sum rank K
    (fun d => if FEValuesViews.flag s d then psi s d q else tensor_zero rank).

(** The contribution of shape function [i] per unit coefficient in a
    kernel of a scalar view that reads [table]. *)
Definition scalar_basis (rank : nat) (table : Table (Tensor rank))
    (shape_function_data : list FEValuesViews.ScalarShapeFunctionData)
    (i q : nat) : Tensor rank :=
  let s := shape_function_data !!! i in
  if FEValuesViews.scalar_is_nonzero_shape_function_component s
  then table (N.to_nat (FEValuesViews.scalar_row_index s)) q
  else tensor_zero rank.

(** The gradient of vector component [d] of a shape function: the row
    of the table of shape gradients for that component, or zero when the
    shape function is zero in that component. *)
Definition gradient_row (shape_gradients : Table (Tensor 1))
    (s : FEValuesViews.ShapeFunctionData) (d q : nat) : Tensor 1 :=
  if FEValuesViews.flag s d
  then shape_gradients (N.to_nat (FEValuesViews.row s d)) q
  else tensor_zero 1.

(** Is some flag among the first [K] sub-components set? *)
Definition any_flag (K : nat) (s : FEValuesViews.ShapeFunctionData) : bool :=
  existsb (FEValuesViews.flag s) (seq 0 K).

(** The curl, per unit coefficient, of a field whose component [d] has
    the gradient [gradient] and whose other components are constant: in
    two space dimensions (one component) and in three. *)
Definition curl_basis_2d (gradient : Tensor 1) (d : nat) : Tensor 1 :=
  if d =? 0
  then unit_at 0 0 (num_opp (gradient 1))
  else unit_at 0 0 (gradient 0).

Definition curl_basis_3d (gradient : Tensor 1) (d : nat) : Tensor 1 :=
  match d with
  | 0 => tensor_add 1 (unit_at 0 1 (gradient 2))
           (unit_at 0 2 (num_opp (gradient 1)))
  | 1 => tensor_add 1 (unit_at 0 0 (num_opp (gradient 2)))
           (unit_at 0 2 (gradient 0))
  | _ => tensor_add 1 (unit_at 0 0 (gradient 1))
           (unit_at 0 1 (num_opp (gradient 0)))
  end.

(** The contribution per unit coefficient of the general path of the
    curl: the sum over the flagged sub-components. *)
Definition curl_multiple (curl_basis : Tensor 1 -> nat -> Tensor 1)
    (K : nat) (shape_gradients : Table (Tensor 1))
    (s : FEValuesViews.ShapeFunctionData) (q : nat) : Tensor 1 :=
  foldr
    (fun d sum =>
       tensor_add 1
         (if FEValuesViews.flag s d
          then curl_basis
                 (shape_gradients (N.to_nat (FEValuesViews.row s d)) q) d
          else tensor_zero 1)
         sum)
    (tensor_zero 1) (seq 0 K).

(** The contribution of shape function [i] per unit coefficient in a
    kernel of a view with sub-components, given the contribution
    [phi_single] of the fast path and [phi_multiple] of the general
    path. *)
Definition basis (rank : nat)
    (phi_single : Z -> nat -> nat -> Tensor rank)
    (phi_multiple : FEValuesViews.ShapeFunctionData -> nat -> Tensor rank)
    (shape_function_data : list FEValuesViews.ShapeFunctionData)
    (i q : nat) : Tensor rank :=
  let s := shape_function_data !!! i in
  let snc := FEValuesViews.single_nonzero_component s in
  if (snc =? -2)%Z then tensor_zero rank
  else if negb (snc =? -1)%Z
  then phi_single snc (FEValuesViews.single_nonzero_component_index s) q
  else phi_multiple s q.

(** Does the path taken for a shape function end in an assertion, given
    which fast paths [fail_single] and which general paths
    [fail_multiple] do? *)
Definition structural_failure (fail_single : Z -> nat -> bool)
    (fail_multiple : FEValuesViews.ShapeFunctionData -> bool)
    (s : FEValuesViews.ShapeFunctionData) : bool :=
  let snc := FEValuesViews.single_nonzero_component s in
  if (snc =? -2)%Z then false
  else if negb (snc =? -1)%Z
  then fail_single snc (FEValuesViews.single_nonzero_component_index s)
  else fail_multiple s.

(** Shape function [i] raises: its path ends in an assertion and its
    coefficient is not filtered by the zero test. *)
Definition raises (fail_single : Z -> nat -> bool)
    (fail_multiple : FEValuesViews.ShapeFunctionData -> bool)
    (dof_values : list Number)
    (shape_function_data : list FEValuesViews.ShapeFunctionData)
    (i : nat) : bool :=
  structural_failure fail_single fail_multiple (shape_function_data !!! i)
  && negb (CheckForZero (dof_values !!! i)).

End Contractions.

(** *** Example data for the kernels

    An element with one shape function and four components, nonzero in
    components 0 and 1; the layout of symmetric and general tensors of
    rank 2 in two space dimensions; a table of shape gradients. *)
Definition example_tensor_fe : FiniteElement :=
  {| n_dofs_per_cell := 1;
     n_components := 4;
     is_primitive := false;
     is_primitive_shape := fun _ => false;
     system_to_component_index := fun _ => 0;
     get_nonzero_components := fun _ c => c <? 2;
     n_nonzero_components := fun _ => 2 |}.

Definition view_data (v : result FEValuesViews.View)
  : list FEValuesViews.ShapeFunctionData :=
  match v with
  | Ok v => FEValuesViews.shape_function_data v
  | Err _ => []
  end.

Definition example_symmetric_data : list FEValuesViews.ShapeFunctionData :=
  view_data (FEValuesViews.SymmetricTensor.SymmetricTensor 2
               example_tensor_fe 0).

Definition example_tensor_data : list FEValuesViews.ShapeFunctionData :=
  view_data (FEValuesViews.Tensor.Tensor 2 example_tensor_fe 0).

Definition example_vector_data : list FEValuesViews.ShapeFunctionData :=
  view_data (FEValuesViews.Vector.Vector 2 example_fe 0).

Definition example_symmetric_unrolled (u : nat) : nat * nat :=
  match u with
  | 0 => (0, 0)
  | 1 => (1, 1)
  | _ => (0, 1)
  end.

Definition example_symmetric_index (c : nat * nat) : nat :=
  match c with
  | (0, 0) => 0
  | (1, 1) => 1
  | _ => 2
  end.

Definition example_tensor_unrolled (u : nat) : nat * nat :=
  (u / 2, u mod 2).

Definition example_gradients {num : NumberType} : Table (Tensor 1) :=
  fun r q k => number_of_nat (1 + r + 2 * q + 3 * k).

Definition example_hessians {num : NumberType} : Table (Tensor 2) :=
  fun r q i j => number_of_nat (1 + r + 2 * q + 3 * i + 5 * j).

Definition example_scalar_data
  : list FEValuesViews.ScalarShapeFunctionData :=
  match FEValuesViews.Scalar.Scalar example_fe 0 with
  | Ok v => FEValuesViews.scalar_shape_function_data v
  | Err _ => []
  end.

(** *** Example data for the reinit protocol

    Cells are numbered; a cell is a translate of another when the two
    numbers have the same parity, and cells below 10 have the direction
    flag set. *)
Definition example_mesh : Mesh :=
  {| Cell := nat;
     is_translation_of := fun a b => a mod 2 =? b mod 2;
     direction_flag := fun c => c <? 10;
     same_triangulation := fun _ _ => true |}.

Definition example_bound (previous : Cell example_mesh)
    (similarity : CellSimilarity.Similarity) : FEValuesBase example_mesh :=
  {| present_cell := Some previous;
     cell_similarity := similarity;
     update_mapping := true |}.

(** *** What the kernels of the vector views compute, by component *)

Section ComponentBases.
Context {num : NumberType}.

(** The row of [table] that holds sub-component [d] of a shape function,
    or zero when the shape function is zero in that sub-component. *)
Definition component_row (rank : nat) (table : Table (Tensor rank))
    (s : FEValuesViews.ShapeFunctionData) (d q : nat) : Tensor rank :=
  if FEValuesViews.flag s d
  then table (N.to_nat (FEValuesViews.row s d)) q
  else tensor_zero rank.

(** The contribution per unit coefficient of shape function [i] in a
    kernel that adds a row of [table] to the component [position d] of
    the output. *)
Definition component_basis (order K : nat) (position : nat -> nat)
    (table : Table (Tensor order))
    (shape_function_data : list FEValuesViews.ShapeFunctionData)
    (i q : nat) : Tensor (S order) :=
  basis (S order)
    (fun snc index q =>
       unit_at order (position index) (table (Z.to_nat snc) q))
    (sub_component_sum (S order) K
       (fun s d q =>
          unit_at order (position d)
            (table (N.to_nat (FEValuesViews.row s d)) q)))
    shape_function_data i q.

(** The same for a kernel with a scalar output that adds entry [d] of a
    row of [table]. *)
Definition entry_basis (K : nat) (table : Table (Tensor 1))
    (shape_function_data : list FEValuesViews.ShapeFunctionData)
    (i q : nat) : Tensor 0 :=
  basis 0
    (fun snc index q => table (Z.to_nat snc) q index)
    (sub_component_sum 0 K
       (fun s d q => table (N.to_nat (FEValuesViews.row s d)) q d))
    shape_function_data i q.

(** The gradient that the general path of the symmetric gradient
    assembles at a quadrature point from the rows [rows d] of the
    flagged sub-components. *)
Definition assembled_gradient (K : nat)
    (s : FEValuesViews.ShapeFunctionData) (rows : nat -> Tensor 1)
  : Tensor 2 :=
  foldl
    (fun (grad : Tensor 2) d =>
       if FEValuesViews.flag s d
       then tensor_update_at d (fun _ => rows d) grad
       else grad)
    (tensor_zero 2) (seq 0 K).

End ComponentBases.

(** A number type with the zero test of the automatically
    differentiable numbers, which filters nothing, and otherwise the
    arithmetic of [num]. *)
Definition never_filter (num : NumberType) : NumberType :=
  {| Number := @Number num;
     num_zero := @num_zero num;
     num_one := @num_one num;
     num_add := @num_add num;
     num_mul := @num_mul num;
     num_sub := @num_sub num;
     num_opp := @num_opp num;
     num_half := @num_half num;
     CheckForZero := fun _ => false |}.

(** ** internal: the kernels of FEValuesBase *)

(** Modelled from the spec: the macro [AssertDimension (a, b)], declared
    outside this file, is an assertion on array sizes: when the two
    sizes differ it fails loudly with [ExcDimensionMismatch], naming the
    mismatched pair, and nothing after it runs. The accessors of a
    [Table], declared outside this file, assert in the same way that the
    row they are given is a row of the table: the sentinel of the row
    table is never a valid row, and reading a row that the table does
    not have fails loudly, here with [ExcTableIndexRange]. These are the
    exceptions of the kernels below. *)
Inductive dimension_result (A : Type) : Type :=
| Computed (a : A)
| ExcDimensionMismatch
| ExcTableIndexRange.
Arguments Computed {A} a.
Arguments ExcDimensionMismatch {A}.
Arguments ExcTableIndexRange {A}.

(** The statements after a statement that may fail. *)
Definition and_then {A B} (r : dimension_result A)
    (k : A -> dimension_result B) : dimension_result B :=
  match r with
  | Computed a => k a
  | ExcDimensionMismatch => ExcDimensionMismatch
  | ExcTableIndexRange => ExcTableIndexRange
  end.

(** [&table(row, 0)] and [&table[row][0]] for a table of [n_rows] rows,
    followed by [continue]. The table is taken to have a column, so
    that the index 0 of the first entry of the row is in range. *)
Definition table_row_at {A} (n_rows : nat) (row : N)
    (continue : dimension_result A) : dimension_result A :=
  if (row <? N.of_nat n_rows)%N then continue else ExcTableIndexRange.

Module internal.
Section internal.
Context {num : NumberType}.

(** [do_function_values (dof_values_ptr, shape_values, values)] for a
    scalar element; [n_rows] is [shape_values.n_rows()]. The test that
    skips a coefficient equal to zero, unless the numbers are
    automatically differentiable, is [CheckForZero]. *)
Definition do_function_values (n_rows : nat) (dof_values : list Number)
    (shape_values : Table Number) (values : list Number) : list Number :=
  let dofs_per_cell := n_rows in
  let values := fill 0%num values in
  foldl
    (fun values shape_func =>
       let value := dof_values !!! shape_func in
       if CheckForZero value then values
       else
         for_each_q_point values
           (fun point v => (v + value * shape_values shape_func point)%num))
    values (seq 0 dofs_per_cell).

(** [do_function_derivatives (dof_values_ptr, shape_derivatives,
    derivatives)] for a scalar element; [n_rows] is
    [shape_derivatives.size()[0]]. *)
Definition do_function_derivatives (order : nat) (n_rows : nat)
    (dof_values : list Number) (shape_derivatives : Table (Tensor order))
    (derivatives : list (Tensor order)) : list (Tensor order) :=
  let dofs_per_cell := n_rows in
  let derivatives := fill (tensor_zero order) derivatives in
  foldl
    (fun derivatives shape_func =>
       let value := dof_values !!! shape_func in
       if CheckForZero value then derivatives
       else
         for_each_q_point derivatives
           (fun point v =>
              tensor_add order v
                (tensor_scale order value
                   (shape_derivatives shape_func point))))
    derivatives (seq 0 dofs_per_cell).

(** [do_function_laplacians (dof_values_ptr, shape_hessians,
    laplacians)] for a scalar element of an evaluation context in
    [spacedim] space dimensions; [n_rows] is
    [shape_hessians.size()[0]]. *)
Definition do_function_laplacians (spacedim : nat) (n_rows : nat)
    (dof_values : list Number) (shape_hessians : Table (Tensor 2))
    (laplacians : list Number) : list Number :=
  let dofs_per_cell := n_rows in
  let laplacians := fill 0%num laplacians in
  foldl
    (fun laplacians shape_func =>
       let value := dof_values !!! shape_func in
       if CheckForZero value then laplacians
       else
         for_each_q_point laplacians
           (fun point v =>
              (v + value
                   * Kernels.trace spacedim (shape_hessians shape_func point))
              %num))
    laplacians (seq 0 dofs_per_cell).

(** [values[i][j] += x]; an index outside the arrays, undefined in the
    source, leaves them alone. *)
Definition add_at {rank : nat} (i j : nat) (x : Tensor rank)
    (values : list (list (Tensor rank))) : list (list (Tensor rank)) :=
  alter (alter (fun v => tensor_add rank v x) j) i values.

(** The two loops over the quadrature points that add the row [row] of
    a table, scaled by [value], to component [comp]:
    [values[comp][point] += ...] when the quadrature points run fastest
    and [values[point][comp] += ...] otherwise. *)
Definition add_row {rank : nat} (quadrature_points_fastest : bool)
    (n_quadrature_points : nat) (comp : nat) (value : Number)
    (table : Table (Tensor rank)) (row : nat)
    (values : list (list (Tensor rank))) : list (list (Tensor rank)) :=
  if quadrature_points_fastest
  then
    foldl
      (fun values point =>
         add_at comp point (tensor_scale rank value (table row point))
           values)
      values (seq 0 n_quadrature_points)
  else
    foldl
      (fun values point =>
         add_at point comp (tensor_scale rank value (table row point))
           values)
      values (seq 0 n_quadrature_points).

(** The assertions on the sizes of the result arrays. *)
Definition dimensions_ok {T : Type} (quadrature_points_fastest : bool)
    (n_quadrature_points result_components : nat)
    (values : list (list T)) : bool :=
  if quadrature_points_fastest
  then (length values =? result_components)
       && forallb (fun v => length v =? n_quadrature_points) values
  else (length values =? n_quadrature_points)
       && forallb (fun v => length v =? result_components) values.

(** The body shared by the three kernels for elements with several
    components, after [n_quadrature_points] has been read off the
    result arrays; [n_rows] is the number of rows of the table of the
    shape functions, which the accessor of the table checks the row
    against. The coefficients are read through a pointer and the row
    table by index: reading outside them, undefined in the source,
    yields a default here. The products with [component_multiple], of
    type [unsigned int] in the source, are taken in [nat]: they are what
    the source computes while [n_components * component_multiple] and
    [dofs_per_cell * component_multiple] are below 2^32. *)
Definition accumulate_components {rank : nat} (fe : FiniteElement)
    (shape_function_to_row_table : list N) (dof_values : list Number)
    (n_rows : nat) (table : Table (Tensor rank))
    (values : list (list (Tensor rank)))
    (quadrature_points_fastest : bool) (component_multiple : nat)
    (n_quadrature_points : nat)
  : dimension_result (list (list (Tensor rank))) :=
  let dofs_per_cell := n_dofs_per_cell fe in
  let n_components := n_components fe in
  let result_components := n_components * component_multiple in
  if negb (dimensions_ok quadrature_points_fastest n_quadrature_points
             result_components values)
  then ExcDimensionMismatch
  else
    foldl
      (fun values mc =>
         foldl
           (fun values shape_func =>
              and_then values
                (fun values =>
                   let value :=
                     dof_values !!! (shape_func + mc * dofs_per_cell) in
                   if CheckForZero value then Computed values
                   else if is_primitive_shape fe shape_func
                   then
                     let comp :=
                       system_to_component_index fe shape_func
                       + mc * n_components in
                     let row :=
                       shape_function_to_row_table
                         !!! (shape_func * n_components + comp) in
                     table_row_at n_rows row
                       (Computed
                          (add_row quadrature_points_fastest
                             n_quadrature_points comp value table
                             (N.to_nat row) values))
                   else
                     foldl
                       (fun values c =>
                          and_then values
                            (fun values =>
                               if negb (get_nonzero_components fe
                                          shape_func c)
                               then Computed values
                               else
                                 let row :=
                                   shape_function_to_row_table
                                     !!! (shape_func * n_components + c) in
                                 table_row_at n_rows row
                                   (let comp := c + mc * n_components in
                                    Computed
                                      (add_row quadrature_points_fastest
                                         n_quadrature_points comp value
                                         table (N.to_nat row) values))))
                       (Computed values) (seq 0 n_components)))
           values (seq 0 dofs_per_cell))
      (Computed values) (seq 0 component_multiple).

(** [for (i ...) std::fill_n (values[i].begin(), values[i].size(),
    zero)] *)
Definition fill_all {T : Type} (zero : T) (values : list (list T))
  : list (list T) :=
  map (fill zero) values.

(** [values[0].size()]; the source reads it without a check that
    [values] has an element. *)
Definition size_of_first {T : Type} (values : list (list T)) : nat :=
  length (values !!! 0%nat).

(** [do_function_values (dof_values_ptr, shape_values, fe,
    shape_function_to_row_table, values, quadrature_points_fastest,
    component_multiple)]; [n_rows] is [shape_values.n_rows()]. *)
Definition do_function_values_fe (fe : FiniteElement)
    (shape_function_to_row_table : list N) (dof_values : list Number)
    (n_rows : nat) (shape_values : Table Number)
    (values : list (list Number))
    (quadrature_points_fastest : bool) (component_multiple : nat)
  : dimension_result (list (list Number)) :=
  let values := fill_all 0%num values in
  let dofs_per_cell := n_dofs_per_cell fe in
  if dofs_per_cell =? 0 then Computed values
  else
    let n_quadrature_points :=
      if quadrature_points_fastest then size_of_first values
      else length values in
    accumulate_components (rank := 0) fe shape_function_to_row_table
      dof_values n_rows shape_values values quadrature_points_fastest
      component_multiple n_quadrature_points.

(** [do_function_derivatives (dof_values_ptr, shape_derivatives, fe,
    shape_function_to_row_table, derivatives,
    quadrature_points_fastest, component_multiple)]; [n_rows] is
    [shape_derivatives.size()[0]]. *)
Definition do_function_derivatives_fe (order : nat) (fe : FiniteElement)
    (shape_function_to_row_table : list N) (dof_values : list Number)
    (n_rows : nat) (shape_derivatives : Table (Tensor order))
    (derivatives : list (list (Tensor order)))
    (quadrature_points_fastest : bool) (component_multiple : nat)
  : dimension_result (list (list (Tensor order))) :=
  let derivatives := fill_all (tensor_zero order) derivatives in
  let dofs_per_cell := n_dofs_per_cell fe in
  if dofs_per_cell =? 0 then Computed derivatives
  else
    let n_quadrature_points :=
      if quadrature_points_fastest then size_of_first derivatives
      else length derivatives in
    accumulate_components fe shape_function_to_row_table dof_values
      n_rows shape_derivatives derivatives quadrature_points_fastest
      component_multiple n_quadrature_points.

(** [do_function_laplacians (dof_values_ptr, shape_hessians, fe,
    shape_function_to_row_table, laplacians, quadrature_points_fastest,
    component_multiple)]: the number of quadrature points is
    [laplacians.size()] whichever index runs fastest; [n_rows] is
    [shape_hessians.size()[0]]. *)
Definition do_function_laplacians_fe (spacedim : nat) (fe : FiniteElement)
    (shape_function_to_row_table : list N) (dof_values : list Number)
    (n_rows : nat) (shape_hessians : Table (Tensor 2))
    (laplacians : list (list Number))
    (quadrature_points_fastest : bool) (component_multiple : nat)
  : dimension_result (list (list Number)) :=
  let laplacians := fill_all 0%num laplacians in
  let dofs_per_cell := n_dofs_per_cell fe in
  if dofs_per_cell =? 0 then Computed laplacians
  else
    let n_quadrature_points := length laplacians in
    accumulate_components (rank := 0) fe shape_function_to_row_table
      dof_values n_rows
      (fun r q => Kernels.trace spacedim (shape_hessians r q))
      laplacians quadrature_points_fastest component_multiple
      n_quadrature_points.

(** What one shape function adds to component [c] of the result, below
    the number of components of the element: its row of the table when
    it is nonzero in the component, scaled by its coefficient. *)
Definition component_step {rank : nat} (fe : FiniteElement)
    (shape_function_to_row_table : list N) (dof_values : list Number)
    (table : Table (Tensor rank)) (c : nat) (out : list (Tensor rank))
    (shape_func : nat) : list (Tensor rank) :=
  let value := dof_values !!! shape_func in
  if CheckForZero value then out
  else if (if is_primitive_shape fe shape_func
           then c =? system_to_component_index fe shape_func
           else get_nonzero_components fe shape_func c)
  then
    let row :=
      shape_function_to_row_table !!! (shape_func * n_components fe + c) in
    for_each_q_point out
      (fun point v =>
         tensor_add rank v
           (tensor_scale rank value (table (N.to_nat row) point)))
  else out.

(** Component [c] of the result for one coefficient per shape function:
    what both layouts of the result hold for that component. *)
Definition component_values {rank : nat} (fe : FiniteElement)
    (shape_function_to_row_table : list N) (dof_values : list Number)
    (table : Table (Tensor rank)) (c : nat) (out : list (Tensor rank))
  : list (Tensor rank) :=
  foldl
    (component_step fe shape_function_to_row_table dof_values table c)
    (fill (tensor_zero rank) out) (seq 0 (n_dofs_per_cell fe)).

End internal.
End internal.

(** Column [c] of an array of rows: the entries [values[point][c]]. *)
Definition column {num : NumberType} {rank : nat} (c : nat)
    (values : list (list (Tensor rank))) : list (Tensor rank) :=
  map (fun row => default (tensor_zero rank) (row !! c)) values.

(** An array of [rows] rows with [columns] entries each. *)
Definition has_size {T : Type} (rows columns : nat)
    (values : list (list T)) : Prop :=
  length values = rows /\
  forall i row, values !! i = Some row -> length row = columns.

(** A further invariant of every descriptor: a primitive shape function
    belongs to one of the components of the element. *)
Definition fe_component_wf (fe : FiniteElement) : Prop :=
  forall i, i < n_dofs_per_cell fe -> is_primitive_shape fe i = true ->
    system_to_component_index fe i < n_components fe.

(** A primitive element has only primitive shape functions. *)
Definition fe_primitive_shapes (fe : FiniteElement) : Prop :=
  is_primitive fe = true ->
  forall i, i < n_dofs_per_cell fe -> is_primitive_shape fe i = true.

(** An element with one component in which every shape function is
    nonzero. *)
Definition scalar_element (fe : FiniteElement) : Prop :=
  n_components fe = 1 /\
  forall i, i < n_dofs_per_cell fe ->
    get_nonzero_components fe i 0 = true /\
    system_to_component_index fe i = 0.

(** A scalar element with three shape functions. *)
Definition example_scalar_fe : FiniteElement :=
  {| n_dofs_per_cell := 3;
     n_components := 1;
     is_primitive := true;
     is_primitive_shape := fun _ => true;
     system_to_component_index := fun _ => 0;
     get_nonzero_components := fun _ c => c =? 0;
     n_nonzero_components := fun _ => 1 |}.

(** Component [c] of a result array in either layout: row [c] when the
    quadrature points run fastest, column [c] otherwise. *)
Definition component_of {num : NumberType} {rank : nat}
    (quadrature_points_fastest : bool) (c : nat)
    (values : list (list (Tensor rank))) : list (Tensor rank) :=
  if quadrature_points_fastest then default [] (values !! c)
  else column c values.

(** A result array for [n_quadrature_points] quadrature points and
    [result_components] components in either layout. *)
Definition has_layout {T : Type} (quadrature_points_fastest : bool)
    (n_quadrature_points result_components : nat)
    (values : list (list T)) : Prop :=
  if quadrature_points_fastest
  then has_size result_components n_quadrature_points values
  else has_size n_quadrature_points result_components values.

(** ** internal::FEValuesImplementation::FiniteElementRelatedData *)

Module FEValuesImplementation.
Section FiniteElementRelatedData.

(** The entries of the four tables, [double] and [Tensor<k, spacedim>]
    for [k = 1, 2, 3], and [numbers::signaling_nan<T>()] for each. *)
Variables value gradient hessian third_derivative : Type.
Variable nan_value : value.
Variable nan_gradient : gradient.
Variable nan_hessian : hessian.
Variable nan_third_derivative : third_derivative.

(** The bits [update_values], [update_gradients], [update_hessians] and
    [update_3rd_derivatives] of [UpdateFlags], an enumeration declared
    outside this file. *)
Variables update_values update_gradients update_hessians
  update_3rd_derivatives : N.

(** The tables are stored by rows. *)
Record FiniteElementRelatedData : Type := {
  shape_values : list (list value);
  shape_gradients : list (list gradient);
  shape_hessians : list (list hessian);
  shape_3rd_derivatives : list (list third_derivative);
  shape_function_to_row_table : list N
}.

(** [table.reinit (n_rows, n_columns); table.fill (nan)] *)
Definition reinit_fill {T : Type} (n_rows n_columns : nat) (nan : T)
  : list (list T) :=
  replicate n_rows (replicate n_columns nan).

(** [flags & bit], converted to [bool] *)
Definition has_flag (flags bit : N) : bool :=
  negb (N.land flags bit =? 0)%N.

(** [FiniteElementRelatedData<dim, spacedim>::initialize
    (n_quadrature_points, fe, flags)] *)
Definition initialize (n_quadrature_points : nat) (fe : FiniteElement)
    (flags : N) (this : FiniteElementRelatedData)
  : result FiniteElementRelatedData :=
  let shape_function_to_row_table := make_shape_function_to_row_table fe in
  let n_nonzero_shape_components :=
    foldl (fun n i => wrap (n + N.of_nat (n_nonzero_components fe i)))
      0%N (seq 0 (n_dofs_per_cell fe)) in
  Assert (N.of_nat (n_dofs_per_cell fe) <=? n_nonzero_shape_components)%N
    ExcInternalError
    (let n_rows := N.to_nat n_nonzero_shape_components in
     Ok {| shape_values :=
             if has_flag flags update_values
             then reinit_fill n_rows n_quadrature_points nan_value
             else shape_values this;
           shape_gradients :=
             if has_flag flags update_gradients
             then reinit_fill n_rows n_quadrature_points nan_gradient
             else shape_gradients this;
           shape_hessians :=
             if has_flag flags update_hessians
             then reinit_fill n_rows n_quadrature_points nan_hessian
             else shape_hessians this;
           shape_3rd_derivatives :=
             if has_flag flags update_3rd_derivatives
             then reinit_fill n_rows n_quadrature_points
                    nan_third_derivative
             else shape_3rd_derivatives this;
           shape_function_to_row_table := shape_function_to_row_table |}).

End FiniteElementRelatedData.
End FEValuesImplementation.

(** The vector view of the first three components of
    [example_tensor_fe] in three space dimensions. *)
Definition example_vector_data_3d : list FEValuesViews.ShapeFunctionData :=
  view_data (FEValuesViews.Vector.Vector 3 example_tensor_fe 0).

(** The vector view of the last two components of [example_tensor_fe],
    in which its shape function is zero. *)
Definition example_zero_data : list FEValuesViews.ShapeFunctionData :=
  view_data (FEValuesViews.Vector.Vector 2 example_tensor_fe 2).

(** Cells of two triangulations: the cells below 100 belong to one, the
    others to the other; translates and direction flags as in
    [example_mesh]. *)
Definition example_two_triangulations : Mesh :=
  {| Cell := nat;
     is_translation_of := fun a b => a mod 2 =? b mod 2;
     direction_flag := fun c => c <? 10;
     same_triangulation := fun a b => Bool.eqb (a <? 100) (b <? 100) |}.

(** The row table of [example_fe]. *)
Definition example_row_table : list N :=
  make_shape_function_to_row_table example_fe.

(** *** Example data in double precision

    A table of shape values, a table of shape Hessians with the diagonal
    (1e16, 1) and a table of shape gradients whose entries 1e16 absorb
    an added 1. *)
Definition rounding_values : Table (Tensor (num := double_number) 0) :=
  fun _ _ => 3%float.

Definition rounding_hessians : Table (Tensor (num := double_number) 2) :=
  fun _ _ i j =>
    if i =? j then (if i =? 0 then 1e16%float else 1%float) else 0%float.

Definition rounding_gradients : Table (Tensor (num := double_number) 1) :=
  fun r _ k =>
    match r, k with
    | 1, 0 => 1%float
    | 2, 1 => 1e16%float
    | 3, 0 => 1e16%float
    | _, _ => 0%float
    end.

(** The coefficients 0, 1, 1. *)
Definition rounding_coefficients : list (@Number double_number) :=
  [0; 1; 1]%float.

(** An element with three components and one primitive shape function
    for each, and its symmetric tensor view in two space dimensions:
    the classifiers are the rows 0, 1 and 2, and sub-component 2 unrolls
    to the entry (0, 1) off the diagonal. *)
Definition example_primitive_fe : FiniteElement :=
  {| n_dofs_per_cell := 3;
     n_components := 3;
     is_primitive := true;
     is_primitive_shape := fun _ => true;
     system_to_component_index := fun i => i;
     get_nonzero_components := fun i c => c =? i;
     n_nonzero_components := fun _ => 1 |}.

Definition example_primitive_symmetric_data
  : list FEValuesViews.ShapeFunctionData :=
  view_data (FEValuesViews.SymmetricTensor.SymmetricTensor 2
               example_primitive_fe 0).

(** * Properties *)

(** ** The row table *)

Lemma wrap_small (x : N) : (x < 2 ^ 32)%N -> wrap x = x.
Proof. intros H. unfold wrap. now apply N.mod_small. Qed.

Lemma count_true_app (l k : list bool) :
  count_true (l ++ k) = count_true l + count_true k.
Proof. induction l as [|[] l IH]; simpl; lia. Qed.

Lemma count_true_le_length (l : list bool) : count_true l <= length l.
Proof. induction l as [|[] l IH]; simpl; lia. Qed.

Lemma length_assign_rows (bits : list bool) (next : N) :
  length (assign_rows bits next) = length bits.
Proof.
  revert next. induction bits as [|[] bits IH]; intros next; simpl;
    now rewrite ?IH.
Qed.

Lemma assign_rows_app (l k : list bool) (next : N) :
  assign_rows (l ++ k) next
  = assign_rows l next ++ assign_rows k (next + N.of_nat (count_true l))%N.
Proof.
  revert next. induction l as [|[] l IH]; intros next; simpl.
  - now rewrite N.add_0_r.
  - rewrite IH. do 3 f_equal. lia.
  - now rewrite IH.
Qed.

Lemma length_nonzero_mask (fe : FiniteElement) (i : nat) :
  length (nonzero_mask fe i) = n_components fe.
Proof. unfold nonzero_mask. now rewrite length_map, length_seq. Qed.

Lemma rows_before_S (fe : FiniteElement) (i : nat) :
  rows_before fe (S i) = rows_before fe i + count_true (nonzero_mask fe i).
Proof.
  unfold rows_before. rewrite seq_S, map_app, sum_list_with_app. simpl. lia.
Qed.

Lemma rows_before_le (fe : FiniteElement) (i : nat) :
  rows_before fe i <= i * n_components fe.
Proof.
  induction i as [|i IH]; [reflexivity|].
  rewrite rows_before_S.
  pose proof (count_true_le_length (nonzero_mask fe i)) as H.
  rewrite length_nonzero_mask in H. lia.
Qed.

Lemma rows_before_mono (fe : FiniteElement) (i j : nat) :
  i <= j -> rows_before fe i <= rows_before fe j.
Proof.
  induction 1 as [|j _ IH]; [lia|]. rewrite rows_before_S. lia.
Qed.

(** The loop over the components of shape function [i] writes the next
    [k] entries of the table. *)
Lemma component_loop (fe : FiniteElement) (i : nat) (row : N)
    (P : list N) (m k : nat) :
  length P = i * n_components fe ->
  k <= m ->
  (row + N.of_nat k < 2 ^ 32)%N ->
  foldl (row_table_component_step fe i row)
    (P ++ replicate m invalid_unsigned_int, 0%N) (seq 0 k)
  = (P ++ assign_rows (map (get_nonzero_components fe i) (seq 0 k)) row
       ++ replicate (m - k) invalid_unsigned_int,
     N.of_nat (count_true (map (get_nonzero_components fe i) (seq 0 k)))).
Proof.
  intros HP. induction k as [|k IH]; intros Hk Hrow.
  - simpl. now rewrite Nat.sub_0_r.
  - rewrite seq_S, foldl_app, IH by lia. simpl.
    rewrite map_app, assign_rows_app, count_true_app. simpl.
    set (bits := map (get_nonzero_components fe i) (seq 0 k)).
    assert (Hlen : length bits = k)
      by (unfold bits; now rewrite length_map, length_seq).
    pose proof (count_true_le_length bits) as Hcount.
    replace (m - k) with (S (m - S k)) by lia.
    destruct (get_nonzero_components fe i k); simpl.
    + f_equal.
      * rewrite insert_app_r_alt by lia.
        rewrite insert_app_r_alt
          by (rewrite length_assign_rows; lia).
        rewrite length_assign_rows, HP, Hlen.
        replace (i * n_components fe + k - i * n_components fe - k) with 0
          by lia.
        simpl. rewrite wrap_small by lia.
        now rewrite <- !app_assoc.
      * rewrite wrap_small by lia. lia.
    + f_equal; [|lia]. now rewrite <- !app_assoc.
Qed.

Lemma length_table_spec (fe : FiniteElement) (n : nat) :
  length (table_spec fe n) = n * n_components fe.
Proof.
  unfold table_spec. induction n as [|n IH]; [reflexivity|].
  rewrite seq_S, map_app, concat_app, length_app, IH. simpl.
  rewrite app_nil_r, length_assign_rows, length_nonzero_mask. lia.
Qed.

Lemma table_spec_S (fe : FiniteElement) (n : nat) :
  table_spec fe (S n)
  = table_spec fe n
      ++ assign_rows (nonzero_mask fe n) (N.of_nat (rows_before fe n)).
Proof.
  unfold table_spec. rewrite seq_S, map_app, concat_app. simpl.
  now rewrite app_nil_r.
Qed.

(** The loop over the shape functions fills the table row by row. *)
Lemma shape_function_loop (fe : FiniteElement) (n : nat) :
  fe_wf fe ->
  n <= n_dofs_per_cell fe ->
  foldl (row_table_shape_function_step fe)
    (replicate (n_dofs_per_cell fe * n_components fe) invalid_unsigned_int,
     0%N) (seq 0 n)
  = (table_spec fe n
       ++ replicate ((n_dofs_per_cell fe - n) * n_components fe)
            invalid_unsigned_int,
     N.of_nat (rows_before fe n)).
Proof.
  intros Hwf. induction n as [|n IH]; intros Hn.
  - simpl. now rewrite Nat.sub_0_r.
  - rewrite seq_S, foldl_app, IH by lia. simpl.
    pose proof (wf_size fe Hwf) as Hsize.
    pose proof (rows_before_le fe (S n)) as Hle.
    rewrite rows_before_S in Hle.
    pose proof (count_true_le_length (nonzero_mask fe n)) as Hc.
    rewrite length_nonzero_mask in Hc.
    assert (S n * n_components fe <= n_dofs_per_cell fe * n_components fe)
      by (apply Nat.mul_le_mono_r; lia).
    rewrite component_loop.
    + rewrite (wf_count fe Hwf) by lia.
      rewrite wrap_small by lia.
      rewrite table_spec_S, rows_before_S. fold (nonzero_mask fe n).
      f_equal; [|lia].
      rewrite <- app_assoc. do 3 f_equal.
      rewrite !Nat.mul_sub_distr_r. lia.
    + apply length_table_spec.
    + replace (n_dofs_per_cell fe - n) with (S (n_dofs_per_cell fe - S n))
        by lia.
      simpl. lia.
    + pose proof (rows_before_le fe n). lia.
Qed.

Lemma make_shape_function_to_row_table_spec (fe : FiniteElement) :
  fe_wf fe ->
  make_shape_function_to_row_table fe = table_spec fe (n_dofs_per_cell fe).
Proof.
  intros Hwf. unfold make_shape_function_to_row_table.
  rewrite shape_function_loop by (auto; lia).
  rewrite Nat.sub_diag. simpl. now rewrite app_nil_r.
Qed.

Lemma table_row_spec (fe : FiniteElement) (n i : nat) :
  i < n ->
  table_row fe (table_spec fe n) i
  = assign_rows (nonzero_mask fe i) (N.of_nat (rows_before fe i)).
Proof.
  intros Hi. unfold table_row.
  induction n as [|n IH]; [lia|].
  rewrite table_spec_S.
  destruct (decide (i = n)) as [->|Hne].
  - rewrite drop_app_length'
      by (now rewrite length_table_spec).
    apply take_ge. rewrite length_assign_rows, length_nonzero_mask. lia.
  - rewrite drop_app_le by (rewrite length_table_spec; nia).
    rewrite take_app_le; [apply IH; lia|].
    rewrite length_drop, length_table_spec. nia.
Qed.

(** The rows handed out to one shape function are consecutive. *)
Lemma non_sentinel_assign_rows (bits : list bool) (next : N) :
  (next + N.of_nat (count_true bits) <= invalid_unsigned_int)%N ->
  non_sentinel (assign_rows bits next)
  = map (fun k => (next + N.of_nat k)%N) (seq 0 (count_true bits)).
Proof.
  unfold non_sentinel. revert next.
  induction bits as [|[] bits IH]; intros next Hb; simpl in *.
  - reflexivity.
  - rewrite filter_cons_True by lia.
    rewrite IH by lia. rewrite N.add_0_r. f_equal.
    rewrite <- seq_shift, map_map. apply map_ext. intros k. lia.
  - rewrite filter_cons_False by (intros H; now apply H).
    now apply IH.
Qed.

Lemma non_sentinel_app (l k : list N) :
  non_sentinel (l ++ k) = non_sentinel l ++ non_sentinel k.
Proof. apply filter_app. Qed.

Lemma map_add_seq (a b n : nat) :
  map (fun k => (N.of_nat a + N.of_nat k)%N) (seq b n)
  = map N.of_nat (seq (a + b) n).
Proof.
  revert b. induction n as [|n IH]; intros b; simpl; [reflexivity|].
  rewrite IH, Nat.add_succ_r. f_equal. lia.
Qed.

Lemma non_sentinel_table_spec (fe : FiniteElement) (n : nat) :
  (N.of_nat (n * n_components fe) < 2 ^ 32)%N ->
  non_sentinel (table_spec fe n) = map N.of_nat (seq 0 (rows_before fe n)).
Proof.
  induction n as [|n IH]; intros Hb; [reflexivity|].
  pose proof (rows_before_le fe (S n)) as Hle.
  rewrite table_spec_S, non_sentinel_app, IH by lia.
  rewrite rows_before_S in *.
  rewrite non_sentinel_assign_rows by (unfold invalid_unsigned_int; lia).
  rewrite map_add_seq, Nat.add_0_r, seq_app, map_app. reflexivity.
Qed.

Lemma first_row_rows_before (fe : FiniteElement) (n : nat) :
  fe_wf fe -> n <= n_dofs_per_cell fe -> first_row fe n = rows_before fe n.
Proof.
  intros Hwf. unfold first_row, rows_before.
  induction n as [|n IH]; intros Hn; [reflexivity|].
  rewrite seq_S, !map_app, !sum_list_with_app, IH by lia. simpl.
  now rewrite (wf_count fe Hwf) by lia.
Qed.

Lemma lookup_assign_rows (bits : list bool) (next : N) (c : nat) (b : bool) :
  bits !! c = Some b ->
  assign_rows bits next !! c
  = Some (if b then (next + N.of_nat (count_true (take c bits)))%N
          else invalid_unsigned_int).
Proof.
  revert next c. induction bits as [|b' bits IH]; intros next c Hc;
    [discriminate|].
  destruct c as [|c]; simpl in Hc.
  - injection Hc as ->. destruct b; simpl; [|reflexivity].
    now rewrite N.add_0_r.
  - destruct b'; simpl; rewrite (IH _ _ Hc); destruct b; try reflexivity.
    f_equal. lia.
Qed.

Lemma count_true_take_lt (bits : list bool) (c : nat) :
  bits !! c = Some true -> count_true (take c bits) < count_true bits.
Proof.
  revert c. induction bits as [|b bits IH]; intros c Hc; [discriminate|].
  destruct c as [|c]; simpl in *.
  - injection Hc as ->. lia.
  - specialize (IH _ Hc). lia.
Qed.

Lemma lookup_nonzero_mask (fe : FiniteElement) (i c : nat) :
  c < n_components fe ->
  nonzero_mask fe i !! c = Some (get_nonzero_components fe i c).
Proof.
  intros Hc. unfold nonzero_mask.
  change (map ?f ?l) with (f <$> l).
  now rewrite list_lookup_fmap, lookup_seq_lt.
Qed.

(** The entry of the table for shape function [i] and component [c]. *)
Lemma lookup_row_table (fe : FiniteElement) (i c : nat) :
  fe_wf fe ->
  i < n_dofs_per_cell fe -> c < n_components fe ->
  make_shape_function_to_row_table fe !! (i * n_components fe + c)
  = Some (if get_nonzero_components fe i c
          then N.of_nat (rows_before fe i
                         + count_true (take c (nonzero_mask fe i)))
          else invalid_unsigned_int).
Proof.
  intros Hwf Hi Hc.
  rewrite make_shape_function_to_row_table_spec by assumption.
  pose proof (table_row_spec fe (n_dofs_per_cell fe) i Hi) as Hrow.
  unfold table_row in Hrow.
  rewrite <- lookup_drop, <- (lookup_take_lt _ (n_components fe)), Hrow
    by assumption.
  rewrite (lookup_assign_rows _ _ _ _ (lookup_nonzero_mask fe i c Hc)).
  destruct (get_nonzero_components fe i c); [|reflexivity].
  f_equal. lia.
Qed.

(** A row number stored in the table is smaller than the number of
    entries of the table. *)
Lemma row_number_bound (fe : FiniteElement) (i c : nat) :
  i < n_dofs_per_cell fe -> c < n_components fe ->
  get_nonzero_components fe i c = true ->
  rows_before fe i + count_true (take c (nonzero_mask fe i))
  < n_dofs_per_cell fe * n_components fe.
Proof.
  intros Hi Hc Hbit.
  pose proof (lookup_nonzero_mask fe i c Hc) as Hl. rewrite Hbit in Hl.
  apply count_true_take_lt in Hl.
  pose proof (rows_before_le fe (S i)) as Hle. rewrite rows_before_S in Hle.
  assert (S i * n_components fe <= n_dofs_per_cell fe * n_components fe)
    by (apply Nat.mul_le_mono_r; lia).
  lia.
Qed.

(** C2. Row table completeness: the table has one entry per (shape
    function, component) pair; the entry is a row number exactly when the
    component's nonzero bit is set; the row of shape function [i] holds
    [n_nonzero_components(i)] row numbers, consecutive and in increasing
    component order, starting after the rows of the earlier shape
    functions; and the row numbers of the whole table, read in table
    order, are [0, 1, ..., total_nonzero_pairs - 1]: a contiguous range
    without gaps or repeats. *)
Theorem row_table_completeness (fe : FiniteElement) :
  fe_wf fe ->
  let table := make_shape_function_to_row_table fe in
  length table = n_dofs_per_cell fe * n_components fe /\
  (forall i c, i < n_dofs_per_cell fe -> c < n_components fe ->
     exists r, table !! (i * n_components fe + c) = Some r /\
       (r <> invalid_unsigned_int <-> get_nonzero_components fe i c = true)) /\
  (forall i, i < n_dofs_per_cell fe ->
     length (non_sentinel (table_row fe table i)) = n_nonzero_components fe i /\
     non_sentinel (table_row fe table i)
     = map N.of_nat (seq (first_row fe i) (n_nonzero_components fe i))) /\
  non_sentinel table = map N.of_nat (seq 0 (total_nonzero_pairs fe)).
Proof.
  intros Hwf table. pose proof (wf_size fe Hwf) as Hsize.
  assert (Htable : table = table_spec fe (n_dofs_per_cell fe))
    by now apply make_shape_function_to_row_table_spec.
  split; [|split; [|split]].
  - rewrite Htable. apply length_table_spec.
  - intros i c Hi Hc. eexists. split.
    + now apply lookup_row_table.
    + pose proof (row_number_bound fe i c Hi Hc) as Hb.
      destruct (get_nonzero_components fe i c).
      * split; [reflexivity|]. intros _. unfold invalid_unsigned_int.
        specialize (Hb eq_refl). lia.
      * split; [intros H; now contradiction H|discriminate].
  - intros i Hi.
    assert (Hrow : non_sentinel (table_row fe table i)
              = map N.of_nat
                  (seq (first_row fe i) (n_nonzero_components fe i))).
    { rewrite Htable, table_row_spec by assumption.
      pose proof (rows_before_le fe (S i)) as Hle.
      rewrite rows_before_S in Hle.
      assert (S i * n_components fe <= n_dofs_per_cell fe * n_components fe)
        by (apply Nat.mul_le_mono_r; lia).
      rewrite non_sentinel_assign_rows by (unfold invalid_unsigned_int; lia).
      rewrite map_add_seq, Nat.add_0_r.
      rewrite first_row_rows_before by (auto; lia).
      now rewrite (wf_count fe Hwf). }
    split; [|exact Hrow].
    now rewrite Hrow, length_map, length_seq.
  - rewrite Htable, non_sentinel_table_spec by assumption.
    unfold total_nonzero_pairs.
    now rewrite first_row_rows_before.
Qed.

(** ** The view descriptors *)

(** A loop that alters element [i] in iteration [i]. *)
Lemma lookup_foldl_alter {A} (g : nat -> A -> A) (data : list A) (n i : nat) :
  foldl (fun (data : list A) i => alter (g i) i data) data (seq 0 n) !! i
  = if decide (i < n) then g i <$> data !! i else data !! i.
Proof.
  induction n as [|n IH]; [reflexivity|].
  rewrite seq_S, foldl_app. simpl.
  destruct (decide (n = i)) as [->|Hne].
  - rewrite list_lookup_alter_eq, IH.
    now rewrite decide_False, decide_True by lia.
  - rewrite list_lookup_alter_ne, IH by assumption.
    repeat case_decide; try lia; reflexivity.
Qed.

Lemma length_foldl_alter {A} (g : nat -> A -> A) (data : list A) (n : nat) :
  length (foldl (fun (data : list A) i => alter (g i) i data) data (seq 0 n))
  = length data.
Proof.
  induction n as [|n IH]; [reflexivity|].
  rewrite seq_S, foldl_app. simpl. now rewrite length_alter.
Qed.

Lemma lookup_fill_sub_components (K : nat) (fe : FiniteElement)
    (first_component : nat) (table : list N)
    (data : list ShapeFunctionData) (i : nat) :
  i < n_dofs_per_cell fe ->
  fill_sub_components K fe first_component table data !! i
  = sub_components K fe first_component table i <$> data !! i.
Proof.
  intros Hi. unfold fill_sub_components, sub_components.
  induction K as [|K IH].
  - simpl. now destruct (data !! i).
  - rewrite seq_S, !foldl_app. cbn [foldl]. cbv zeta.
    change (0 + K) with K.
    rewrite (lookup_foldl_alter
               (fun i =>
                  let component := component_at first_component K in
                  set_sub_component K (nonzero_in fe i component)
                    (row_of fe table i component
                       (nonzero_in fe i component)))).
    rewrite decide_True by assumption.
    rewrite IH. destruct (data !! i); simpl; [|reflexivity].
    now rewrite foldl_app.
Qed.

Lemma length_fill_sub_components (K : nat) (fe : FiniteElement)
    (first_component : nat) (table : list N)
    (data : list ShapeFunctionData) :
  length (fill_sub_components K fe first_component table data) = length data.
Proof.
  unfold fill_sub_components. induction K as [|K IH]; [reflexivity|].
  rewrite seq_S, foldl_app. cbn [foldl]. cbv zeta. change (0 + K) with K.
  rewrite (length_foldl_alter
             (fun i =>
                let component := component_at first_component K in
                set_sub_component K (nonzero_in fe i component)
                  (row_of fe table i component
                     (nonzero_in fe i component)))).
  exact IH.
Qed.

Lemma insert_snoc_drop {A} (l : list A) (k : nat) (f : nat -> A) :
  k < length l ->
  <[k := f k]> (map f (seq 0 k) ++ drop k l)
  = map f (seq 0 (S k)) ++ drop (S k) l.
Proof.
  intros Hk. destruct (lookup_lt_is_Some_2 l k Hk) as [x Hx].
  rewrite seq_S, map_app, <- app_assoc.
  rewrite insert_app_r_alt by (rewrite length_map, length_seq; lia).
  rewrite length_map, length_seq, Nat.sub_diag.
  now rewrite (drop_S _ _ _ Hx).
Qed.

Lemma sub_components_value_initialized (K k : nat) (fe : FiniteElement)
    (first_component : nat) (table : list N) (i : nat) :
  k <= K ->
  sub_components k fe first_component table i (value_initialized K)
  = {| is_nonzero_shape_function_component :=
         map (fun d => nonzero_in fe i (component_at first_component d))
           (seq 0 k)
           ++ drop k (replicate K false);
       row_index :=
         map (fun d =>
                row_of fe table i (component_at first_component d)
                  (nonzero_in fe i (component_at first_component d)))
           (seq 0 k)
           ++ drop k (replicate K 0%N);
       single_nonzero_component := 0;
       single_nonzero_component_index := 0 |}.
Proof.
  unfold sub_components. induction k as [|k IH]; intros Hk.
  - reflexivity.
  - rewrite seq_S, foldl_app, IH by lia. cbn [foldl]. cbv zeta.
    change (0 + k) with k. unfold set_sub_component. simpl.
    rewrite (insert_snoc_drop _ _
               (fun d => nonzero_in fe i (component_at first_component d)))
      by (rewrite length_replicate; lia).
    rewrite (insert_snoc_drop _ _
               (fun d => row_of fe table i (component_at first_component d)
                           (nonzero_in fe i (component_at first_component d))))
      by (rewrite length_replicate; lia).
    now rewrite seq_S.
Qed.

Lemma count_nonzero_components_spec (K : nat) (s : ShapeFunctionData) :
  K <= length (is_nonzero_shape_function_component s) ->
  count_nonzero_components K s
  = count_true (take K (is_nonzero_shape_function_component s)).
Proof.
  unfold count_nonzero_components, flag.
  induction K as [|K IH]; intros HK; [reflexivity|].
  destruct (lookup_lt_is_Some_2 (is_nonzero_shape_function_component s) K)
    as [b Hb]; [lia|].
  rewrite seq_S, foldl_app, IH by lia. simpl.
  rewrite (take_S_r _ _ _ Hb), count_true_app.
  rewrite (list_lookup_total_correct _ _ _ Hb).
  destruct b; simpl; lia.
Qed.

Lemma count_true_zero (bs : list bool) :
  count_true bs = 0 <-> forall d b, bs !! d = Some b -> b = false.
Proof.
  induction bs as [|b bs IH]; simpl.
  - split; [intros _ d b' H; discriminate|reflexivity].
  - split.
    + intros H [|d] b' Hd; simpl in Hd.
      * injection Hd as <-. destruct b; [discriminate|reflexivity].
      * apply (proj1 IH) with d; [destruct b; lia|assumption].
    + intros H. rewrite (H 0 b eq_refl). simpl. apply IH.
      intros d b' Hd. exact (H (S d) b' Hd).
Qed.

Lemma count_true_two (bs : list bool) :
  1 < count_true bs
  <-> exists d1 d2, d1 < d2 /\ bs !! d1 = Some true /\ bs !! d2 = Some true.
Proof.
  induction bs as [|b bs IH]; simpl.
  - split; [lia|]. intros (d1 & d2 & _ & H & _). discriminate.
  - split.
    + intros H. destruct b.
      * destruct (count_true bs) as [|n] eqn:E; [lia|].
        assert (Hex : exists d, bs !! d = Some true).
        { clear -E. induction bs as [|[] bs IH]; simpl in E.
          - discriminate.
          - now exists 0.
          - destruct (IH E) as [d Hd]. now exists (S d). }
        destruct Hex as [d Hd]. exists 0, (S d). repeat split; [lia|exact Hd].
      * destruct (proj1 IH H) as (d1 & d2 & Hlt & H1 & H2).
        exists (S d1), (S d2). repeat split; [lia|exact H1|exact H2].
    + intros (d1 & d2 & Hlt & H1 & H2).
      destruct d2 as [|d2]; [lia|]. simpl in H2.
      destruct d1 as [|d1]; simpl in H1.
      * injection H1 as ->.
        pose proof (count_true_take_lt bs d2 H2). lia.
      * assert (1 < count_true bs)
          by (apply IH; exists d1, d2; repeat split; [lia|assumption..]).
        destruct b; lia.
Qed.

Lemma set_single_nonzero_component_spec (ds : list nat)
    (s : ShapeFunctionData) (d : nat) :
  In d ds -> flag s d = true ->
  (forall d', In d' ds -> flag s d' = true -> d' = d) ->
  set_single_nonzero_component ds s
  = {| is_nonzero_shape_function_component :=
         is_nonzero_shape_function_component s;
       row_index := row_index s;
       single_nonzero_component := to_int (row s d);
       single_nonzero_component_index := d |}.
Proof.
  induction ds as [|d0 ds IH]; intros Hin Hd Huniq; [destruct Hin|].
  simpl. destruct (flag s d0) eqn:E.
  - now rewrite (Huniq d0 (or_introl eq_refl) E).
  - destruct Hin as [->|Hin]; [congruence|].
    apply IH; [assumption..|]. intros d' H'. apply Huniq. now right.
Qed.

Lemma to_int_small (u : N) : (u < 2 ^ 31)%N -> to_int u = Z.of_N u.
Proof.
  intros H. unfold to_int. now rewrite (proj2 (N.ltb_lt _ _) H).
Qed.

Lemma flag_lookup (s : ShapeFunctionData) (d : nat) :
  d < length (is_nonzero_shape_function_component s) ->
  is_nonzero_shape_function_component s !! d = Some (flag s d).
Proof.
  intros H. destruct (lookup_lt_is_Some_2 _ _ H) as [b Hb].
  unfold flag. now rewrite (list_lookup_total_correct _ _ _ Hb).
Qed.

(** The classification of one shape function. *)
Lemma classify_consistent (K : nat) (s : ShapeFunctionData) :
  length (is_nonzero_shape_function_component s) = K ->
  (forall d, d < K -> flag s d = true -> (row s d < 2 ^ 31)%N) ->
  is_nonzero_shape_function_component (classify K s)
  = is_nonzero_shape_function_component s /\
  row_index (classify K s) = row_index s /\
  classifier_consistent K (classify K s).
Proof.
  intros Hlen Hrows.
  set (bs := is_nonzero_shape_function_component s) in *.
  assert (Hflag : forall d, d < K -> bs !! d = Some (flag s d))
    by (intros d Hd; apply flag_lookup; fold bs; lia).
  assert (Hcount : count_nonzero_components K s = count_true bs).
  { rewrite count_nonzero_components_spec by (fold bs; lia).
    fold bs. now rewrite take_ge by lia. }
  assert (Hzero : count_true bs = 0 <-> forall d, d < K -> flag s d = false).
  { rewrite count_true_zero. split.
    - intros H d Hd. exact (H d _ (Hflag d Hd)).
    - intros H d b Hb. pose proof (lookup_lt_Some _ _ _ Hb) as Hd.
      rewrite Hflag in Hb by lia. injection Hb as <-. apply H. lia. }
  assert (Htwo : 1 < count_true bs
            <-> exists d1 d2, d1 < d2 /\ d2 < K /\
                  flag s d1 = true /\ flag s d2 = true).
  { rewrite count_true_two. split.
    - intros (d1 & d2 & Hlt & H1 & H2).
      pose proof (lookup_lt_Some _ _ _ H2) as Hd2.
      rewrite Hflag in H1, H2 by lia.
      exists d1, d2. repeat split; [lia..|congruence|congruence].
    - intros (d1 & d2 & Hlt & Hd2 & H1 & H2).
      exists d1, d2. rewrite !Hflag by lia. rewrite H1, H2. auto. }
  unfold classify. rewrite Hcount.
  destruct (count_true bs =? 0) eqn:E0;
    [apply Nat.eqb_eq in E0|apply Nat.eqb_neq in E0].
  { (* zero in all sub-components *)
    split; [reflexivity|]. split; [reflexivity|].
    unfold classifier_consistent.
    change (flag (with_single_nonzero_component (-2) s)) with (flag s).
    simpl. split; [|split].
    - split; [intros _; now apply Hzero|reflexivity].
    - split; [discriminate|]. intros H. apply Htwo in H. lia.
    - intros d Hd Ht _. rewrite (proj1 Hzero E0 d Hd) in Ht. discriminate. }
  destruct (1 <? count_true bs) eqn:E1;
    [apply Nat.ltb_lt in E1|apply Nat.ltb_ge in E1].
  { (* nonzero in several sub-components *)
    split; [reflexivity|]. split; [reflexivity|].
    unfold classifier_consistent.
    change (flag (with_single_nonzero_component (-1) s)) with (flag s).
    simpl. split; [|split].
    - split; [discriminate|]. intros H. apply Hzero in H. lia.
    - split; [intros _; now apply Htwo|reflexivity].
    - intros d Hd Ht Huniq. apply Htwo in E1.
      destruct E1 as (d1 & d2 & Hlt & Hd2 & H1 & H2).
      rewrite (Huniq d1), (Huniq d2) in Hlt by (assumption || lia). lia. }
  (* nonzero in exactly one sub-component *)
  assert (Hex : exists d, d < K /\ flag s d = true).
  { destruct (decide (Forall (fun d => flag s d = false) (seq 0 K)))
      as [Hall|Hnot].
    - exfalso. apply E0, Hzero. intros d Hd.
      rewrite Forall_forall in Hall. apply Hall, list_elem_of_In, in_seq. lia.
    - apply not_Forall_Exists in Hnot; [|intros d; apply _].
      apply Exists_exists in Hnot. destruct Hnot as (d & Hin & Hd).
      apply list_elem_of_In, in_seq in Hin.
      exists d. split; [lia|]. simpl in Hd. now destruct (flag s d). }
  destruct Hex as (d & Hd & Ht).
  assert (Huniq : forall d', d' < K -> flag s d' = true -> d' = d).
  { intros d' Hd' Ht'. destruct (Nat.lt_trichotomy d' d) as [H|[H|H]];
      [|assumption|]; exfalso; apply (Nat.lt_irrefl 1);
      apply Nat.lt_le_trans with (count_true bs); try assumption;
      apply Htwo; [exists d', d|exists d, d']; auto. }
  rewrite (set_single_nonzero_component_spec (seq 0 K) s d).
  - split; [reflexivity|]. split; [reflexivity|].
    unfold classifier_consistent.
    match goal with
    | |- context [flag ?r] =>
        lazymatch r with
        | s => fail
        | _ => change (flag r) with (flag s); change (row r) with (row s)
        end
    end.
    simpl. rewrite to_int_small by auto.
    split; [|split].
    + split; [intros H; exfalso; lia|].
      intros H. rewrite (H d Hd) in Ht. discriminate.
    + split; [intros H; exfalso; lia|]. intros H. apply Htwo in H. lia.
    + intros d' Hd' Ht' _. rewrite (Huniq d' Hd' Ht'). auto.
  - apply in_seq. lia.
  - assumption.
  - intros d' Hin. apply in_seq in Hin. apply Huniq. lia.
Qed.

Lemma nonzero_in_bit (fe : FiniteElement) (i c : nat) :
  fe_primitive_wf fe -> i < n_dofs_per_cell fe ->
  nonzero_in fe i c = true -> get_nonzero_components fe i c = true.
Proof.
  intros Hprim Hi. unfold nonzero_in.
  destruct (is_primitive fe || is_primitive_shape fe i) eqn:E;
    [|trivial].
  intros Hc. apply Nat.eqb_eq in Hc. subst c.
  now apply Hprim.
Qed.

Lemma row_number_lt_total (fe : FiniteElement) (i c : nat) :
  fe_wf fe ->
  i < n_dofs_per_cell fe -> c < n_components fe ->
  get_nonzero_components fe i c = true ->
  rows_before fe i + count_true (take c (nonzero_mask fe i))
  < total_nonzero_pairs fe.
Proof.
  intros Hwf Hi Hc Hbit. unfold total_nonzero_pairs.
  rewrite first_row_rows_before by (auto; lia).
  pose proof (lookup_nonzero_mask fe i c Hc) as Hl. rewrite Hbit in Hl.
  apply count_true_take_lt in Hl.
  pose proof (rows_before_mono fe (S i) (n_dofs_per_cell fe)) as Hm.
  rewrite rows_before_S in Hm. lia.
Qed.

Lemma total_nonzero_pairs_le (fe : FiniteElement) :
  fe_wf fe ->
  total_nonzero_pairs fe <= n_dofs_per_cell fe * n_components fe.
Proof.
  intros Hwf. unfold total_nonzero_pairs.
  rewrite first_row_rows_before by (auto; lia). apply rows_before_le.
Qed.

Lemma component_at_in_range (first d : nat) :
  (N.of_nat (first + d) < 2 ^ 32)%N -> component_at first d = first + d.
Proof.
  intros H. unfold component_at, wrap.
  rewrite N.mod_small by exact H. apply Nat2N.id.
Qed.

(** The components of a window within the components of an element
    that has a shape function are [unsigned int]s. *)
Lemma component_at_window (fe : FiniteElement) (first K i d : nat) :
  fe_wf fe -> i < n_dofs_per_cell fe -> first + K <= n_components fe ->
  d < K -> component_at first d = first + d.
Proof.
  intros Hwf Hi Hwindow Hd. apply component_at_in_range.
  pose proof (wf_size fe Hwf) as Hsize.
  assert (n_components fe <= n_dofs_per_cell fe * n_components fe) by nia.
  lia.
Qed.

(** A window that passes the index check without wrap-around lies
    within the components of the element. *)
Lemma index_range_ok_window (K : nat) (fe : FiniteElement) (first : nat) :
  (N.of_nat (first + K) <= 2 ^ 32)%N ->
  index_range_ok K fe first = true ->
  K = 0 \/ first + K <= n_components fe.
Proof.
  intros Hnowrap Hrange. destruct K as [|K]; [now left|right].
  unfold index_range_ok, wrap in Hrange. apply N.ltb_lt in Hrange.
  replace (N.of_nat first + N.of_nat (S K) + (2 ^ 32 - 1))%N
    with (N.of_nat (first + K) + 1 * 2 ^ 32)%N in Hrange by lia.
  rewrite N.Div0.mod_add, N.mod_small in Hrange by lia. lia.
Qed.

(** What the constructor shared by the three views establishes for a
    window whose last component is computed without wrap-around. *)
Lemma make_view_consistent (K : nat) (fe : FiniteElement) (first : nat)
    (v : View) :
  fe_wf fe -> fe_primitive_wf fe ->
  (N.of_nat (n_dofs_per_cell fe * n_components fe) < 2 ^ 31)%N ->
  (N.of_nat (first + K) <= 2 ^ 32)%N ->
  make_view K fe first = Ok v ->
  view_consistent K fe first v.
Proof.
  intros Hwf Hprim Hint Hnowrap. unfold make_view, Assert.
  destruct (index_range_ok K fe first) eqn:Hrange; [|discriminate].
  apply index_range_ok_window in Hrange; [|exact Hnowrap].
  assert (Hwindow : forall d, d < K -> first + K <= n_components fe)
    by (intros d Hd; destruct Hrange; lia).
  clear Hrange. intros [= <-].
  unfold view_consistent. simpl.
  split; [reflexivity|]. split.
  { now rewrite length_foldl_alter, length_fill_sub_components,
      length_replicate. }
  intros i s. rewrite lookup_foldl_alter.
  destruct (decide (i < n_dofs_per_cell fe)) as [Hi|Hi]; cycle 1.
  { intros H. apply lookup_lt_Some in H.
    rewrite length_fill_sub_components, length_replicate in H. lia. }
  rewrite lookup_fill_sub_components, lookup_replicate_2 by assumption.
  simpl. rewrite sub_components_value_initialized by lia.
  rewrite !drop_replicate, Nat.sub_diag. simpl. rewrite !app_nil_r.
  set (table := make_shape_function_to_row_table fe).
  set (fl := map (fun d => nonzero_in fe i (component_at first d))
               (seq 0 K)).
  set (rw := map (fun d => row_of fe table i (component_at first d)
                             (nonzero_in fe i (component_at first d)))
               (seq 0 K)).
  set (s0 := {| is_nonzero_shape_function_component := fl;
                row_index := rw;
                single_nonzero_component := 0;
                single_nonzero_component_index := 0 |}).
  intros [= <-].
  assert (Hat : forall d, d < K -> component_at first d = first + d).
  { intros d Hd.
    apply (component_at_window fe first K i d); try assumption.
    now apply (Hwindow d). }
  assert (Hfl : forall d, d < K -> flag s0 d = nonzero_in fe i (first + d)).
  { intros d Hd. rewrite <- (Hat d Hd). unfold flag. simpl.
    apply list_lookup_total_correct.
    unfold fl. change (map ?f ?l) with (f <$> l).
    now rewrite list_lookup_fmap, lookup_seq_lt. }
  assert (Hrw : forall d, d < K ->
            row s0 d = row_of fe table i (first + d)
                         (nonzero_in fe i (first + d))).
  { intros d Hd. rewrite <- (Hat d Hd). unfold row. simpl.
    apply list_lookup_total_correct.
    unfold rw. change (map ?f ?l) with (f <$> l).
    now rewrite list_lookup_fmap, lookup_seq_lt. }
  assert (Hrows : forall d, d < K -> flag s0 d = true ->
            table !! (i * n_components fe + (first + d)) = Some (row s0 d) /\
            (row s0 d < N.of_nat (total_nonzero_pairs fe))%N).
  { intros d Hd Ht. rewrite Hfl in Ht by assumption.
    rewrite Hrw by assumption. rewrite Ht. unfold row_of.
    assert (Hc : first + d < n_components fe)
      by (specialize (Hwindow d Hd); lia).
    pose proof (nonzero_in_bit fe i _ Hprim Hi Ht) as Hbit.
    pose proof (lookup_row_table fe i _ Hwf Hi Hc) as Hl.
    rewrite Hbit in Hl. fold table in Hl.
    rewrite (list_lookup_total_correct _ _ _ Hl).
    split; [exact Hl|].
    pose proof (row_number_lt_total fe i _ Hwf Hi Hc Hbit). lia. }
  destruct (classify_consistent K s0) as (Hf & Hr & Hcl).
  { unfold s0, fl. simpl. now rewrite length_map, length_seq. }
  { intros d Hd Ht. destruct (Hrows d Hd Ht) as [_ Hlt].
    pose proof (total_nonzero_pairs_le fe Hwf). lia. }
  assert (Hflag : forall d, flag (classify K s0) d = flag s0 d)
    by (intros d; unfold flag; now rewrite Hf).
  assert (Hrow : forall d, row (classify K s0) d = row s0 d)
    by (intros d; unfold row; now rewrite Hr).
  rewrite Hf, Hr.
  split; [unfold s0, fl; simpl; now rewrite length_map, length_seq|].
  split; [unfold s0, rw; simpl; now rewrite length_map, length_seq|].
  split; [intros d Hd; rewrite Hflag; now apply Hfl|].
  split; [|exact Hcl].
  intros d Hd. rewrite Hflag, Hrow. now apply Hrows.
Qed.

Lemma example_fe_wf : fe_wf example_fe.
Proof.
  split.
  - intros [|[|[|i]]] Hi; simpl in *; try reflexivity; lia.
  - reflexivity.
Defined.

Lemma example_fe_primitive_wf : fe_primitive_wf example_fe.
Proof.
  intros [|[|[|i]]] Hi; simpl in *; try reflexivity; try discriminate; lia.
Defined.

Lemma example_fe_fits_int :
  (N.of_nat (n_dofs_per_cell example_fe * n_components example_fe)
   < 2 ^ 31)%N.
Proof. reflexivity. Defined.

(** C1. Classifier consistency: in a [Vector], [SymmetricTensor] or
    [Tensor] view built by its constructor over the [K] components that
    start at [first], the index of the last of which the constructor
    computes without wrap-around, every shape function has an entry, and
    for every
    entry [single_nonzero_component] is [-2] exactly when all [K] flags
    are false, [-1] exactly when more than one flag is true, and
    otherwise it is the row index of the unique true sub-component [d],
    which is the row of the row table for that component, with
    [single_nonzero_component_index] equal to [d]. *)
Theorem classifier_consistency (dim spacedim : nat) (fe : FiniteElement) :
  fe_wf fe -> fe_primitive_wf fe ->
  (N.of_nat (n_dofs_per_cell fe * n_components fe) < 2 ^ 31)%N ->
  forall K make,
    (K = spacedim /\ make = Vector.Vector spacedim) \/
    (K = SymmetricTensor_n_independent_components dim /\
     make = SymmetricTensor.SymmetricTensor dim) \/
    (K = dim * dim /\ make = Tensor.Tensor dim) ->
  forall first v,
    (N.of_nat (first + K) <= 2 ^ 32)%N ->
    make fe first = Ok v ->
    length (shape_function_data v) = n_dofs_per_cell fe /\
    forall i s, shape_function_data v !! i = Some s ->
      (single_nonzero_component s = (-2)%Z
       <-> forall d, d < K -> flag s d = false) /\
      (single_nonzero_component s = (-1)%Z
       <-> exists d1 d2, d1 < d2 /\ d2 < K /\
             flag s d1 = true /\ flag s d2 = true) /\
      (forall d, d < K -> flag s d = true ->
         (forall d', d' < K -> flag s d' = true -> d' = d) ->
         single_nonzero_component s = Z.of_N (row s d) /\
         single_nonzero_component_index s = d /\
         make_shape_function_to_row_table fe
           !! (i * n_components fe + (first + d)) = Some (row s d) /\
         (row s d < N.of_nat (total_nonzero_pairs fe))%N).
Proof.
  intros Hwf Hprim Hint K make Hmake first v Hnowrap Hv.
  assert (Hc : view_consistent K fe first v).
  { apply make_view_consistent; try assumption.
    destruct Hmake as [[-> ->]|[[-> ->]|[-> ->]]]; exact Hv. }
  destruct Hc as (_ & Hlen & Hdata). split; [exact Hlen|].
  intros i s Hs.
  destruct (Hdata i s Hs) as (_ & _ & _ & Hrows & H2 & H1 & Hsingle).
  split; [exact H2|]. split; [exact H1|].
  intros d Hd Ht Huniq.
  destruct (Hsingle d Hd Ht Huniq) as [Hsnc Hidx].
  destruct (Hrows d Hd Ht) as [Hrow Hlt]. auto.
Qed.

(** The [Vector] view of [example_fe] in two space dimensions: the
    classifiers of its three shape functions are row 0, row 1 and [-1]. *)
Lemma classifier_consistency_witness :
  exists v, Vector.Vector 2 example_fe 0 = Ok v /\
    map single_nonzero_component (shape_function_data v)
    = [0%Z; 1%Z; (-1)%Z] /\
    length (shape_function_data v) = n_dofs_per_cell example_fe /\
    forall i s, shape_function_data v !! i = Some s ->
      (single_nonzero_component s = (-2)%Z
       <-> forall d, d < 2 -> flag s d = false) /\
      (single_nonzero_component s = (-1)%Z
       <-> exists d1 d2, d1 < d2 /\ d2 < 2 /\
             flag s d1 = true /\ flag s d2 = true) /\
      (forall d, d < 2 -> flag s d = true ->
         (forall d', d' < 2 -> flag s d' = true -> d' = d) ->
         single_nonzero_component s = Z.of_N (row s d) /\
         single_nonzero_component_index s = d /\
         make_shape_function_to_row_table example_fe
           !! (i * n_components example_fe + (0 + d)) = Some (row s d) /\
         (row s d < N.of_nat (total_nonzero_pairs example_fe))%N).
Proof.
  eexists. split; [reflexivity|]. split; [reflexivity|].
  apply (classifier_consistency 2 2 example_fe example_fe_wf
           example_fe_primitive_wf example_fe_fits_int 2 (Vector.Vector 2)).
  - left. split; reflexivity.
  - simpl. lia.
  - reflexivity.
Defined.

(** The row table of [example_fe] is [0, -, -, 1, 2, 3]. *)
Lemma row_table_completeness_witness :
  make_shape_function_to_row_table example_fe
  = [0; invalid_unsigned_int; invalid_unsigned_int; 1; 2; 3]%N /\
  let table := make_shape_function_to_row_table example_fe in
  length table = n_dofs_per_cell example_fe * n_components example_fe /\
  (forall i c, i < n_dofs_per_cell example_fe ->
     c < n_components example_fe ->
     exists r, table !! (i * n_components example_fe + c) = Some r /\
       (r <> invalid_unsigned_int
        <-> get_nonzero_components example_fe i c = true)) /\
  (forall i, i < n_dofs_per_cell example_fe ->
     length (non_sentinel (table_row example_fe table i))
     = n_nonzero_components example_fe i /\
     non_sentinel (table_row example_fe table i)
     = map N.of_nat (seq (first_row example_fe i)
                       (n_nonzero_components example_fe i))) /\
  non_sentinel table = map N.of_nat (seq 0 (total_nonzero_pairs example_fe)).
Proof.
  split; [reflexivity|].
  apply (row_table_completeness example_fe example_fe_wf).
Defined.

(** ** Cell similarity *)

Section ReinitProperties.
Variables dim spacedim : nat.
Variable mesh : Mesh.
Variable fill_fe_values :
  Cell mesh -> CellSimilarity.Similarity -> CellSimilarity.Similarity.

Lemma similarity_eqb_eq (a b : CellSimilarity.Similarity) :
  CellSimilarity.eqb a b = true <-> a = b.
Proof. destruct a, b; simpl; split; congruence. Qed.

Lemma check_cell_similarity_present_cell (n_threads : nat)
    (cell : Cell mesh) (fev : FEValuesBase mesh) :
  present_cell (check_cell_similarity dim spacedim mesh n_threads cell fev)
  = present_cell fev.
Proof.
  unfold check_cell_similarity.
  destruct (1 <? n_threads); [reflexivity|].
  destruct (present_cell fev) as [previous|] eqn:E; simpl;
    repeat match goal with
      | |- context [if ?b then _ else _] => destruct b; simpl
      | |- context [match present_cell fev with _ => _ end] => rewrite E
      end; auto.
Qed.

Lemma check_cell_similarity_update_mapping (n_threads : nat)
    (cell : Cell mesh) (fev : FEValuesBase mesh) :
  update_mapping (check_cell_similarity dim spacedim mesh n_threads cell fev)
  = update_mapping fev.
Proof.
  unfold check_cell_similarity.
  destruct (1 <? n_threads); [reflexivity|].
  destruct (present_cell fev) as [previous|] eqn:E; simpl;
    repeat match goal with
      | |- context [if ?b then _ else _] => destruct b; simpl
      | |- context [match present_cell fev with _ => _ end] => rewrite E
      end; auto.
Qed.

(** A stored [invalid_next_cell] is never handed on. *)
Lemma check_cell_similarity_invalid_next_cell (n_threads : nat)
    (cell : Cell mesh) (fev : FEValuesBase mesh) :
  cell_similarity fev = CellSimilarity.invalid_next_cell ->
  cell_similarity (check_cell_similarity dim spacedim mesh n_threads cell fev)
  = CellSimilarity.none.
Proof.
  intros H. unfold check_cell_similarity. rewrite H.
  destruct (1 <? n_threads); [reflexivity|].
  destruct (present_cell fev) as [previous|] eqn:E; simpl;
    now rewrite ?E, Bool.andb_false_r.
Qed.

(** C7. The classification step of a reinit yields [none] whenever more
    than one thread exists, no cell was bound before, or the previous
    classification was [invalid_next_cell]. Otherwise the result is
    [none] exactly when the new cell is not a translate of the previous
    one; a translate is classified [inverted_translation] exactly when
    [dim < spacedim] and the direction flags of the two cells differ,
    and [translation] otherwise. *)
Theorem check_cell_similarity_classification (n_threads : nat)
    (cell : Cell mesh) (fev : FEValuesBase mesh) :
  let result :=
    cell_similarity
      (check_cell_similarity dim spacedim mesh n_threads cell fev) in
  (1 < n_threads -> result = CellSimilarity.none) /\
  (present_cell fev = None -> result = CellSimilarity.none) /\
  (cell_similarity fev = CellSimilarity.invalid_next_cell ->
   result = CellSimilarity.none) /\
  (forall previous,
     n_threads <= 1 ->
     present_cell fev = Some previous ->
     cell_similarity fev <> CellSimilarity.invalid_next_cell ->
     (result = CellSimilarity.none
      <-> is_translation_of mesh cell previous = false) /\
     (result = CellSimilarity.inverted_translation
      <-> is_translation_of mesh cell previous = true /\
          dim < spacedim /\
          direction_flag mesh previous <> direction_flag mesh cell) /\
     (result = CellSimilarity.translation
      <-> is_translation_of mesh cell previous = true /\
          ~ (dim < spacedim /\
             direction_flag mesh previous <> direction_flag mesh cell))).
Proof.
  clear fill_fe_values. unfold check_cell_similarity. simpl.
  split; [|split; [|split]].
  - intros H. apply Nat.ltb_lt in H. now rewrite H.
  - intros H. rewrite H. destruct (1 <? n_threads); [reflexivity|].
    simpl. rewrite H, Bool.andb_false_r. reflexivity.
  - apply check_cell_similarity_invalid_next_cell.
  - intros previous Hn Hp Hcs.
    apply Nat.ltb_ge in Hn. rewrite Hn, Hp.
    destruct (CellSimilarity.eqb (cell_similarity fev)
                CellSimilarity.invalid_next_cell) eqn:E;
      [apply similarity_eqb_eq in E; contradiction|].
    destruct (is_translation_of mesh cell previous) eqn:Ht; simpl.
    + rewrite Hp, Bool.andb_true_r.
      destruct (dim <? spacedim) eqn:Hd;
        [apply Nat.ltb_lt in Hd|apply Nat.ltb_ge in Hd]; simpl.
      * destruct (direction_flag mesh previous),
          (direction_flag mesh cell); simpl;
          intuition (try discriminate; try lia; try congruence).
      * intuition (try discriminate; try lia; try congruence).
    + rewrite Bool.andb_false_r.
      intuition (try discriminate; try lia; try congruence).
Qed.

(** C10. The classification step never stores [invalid_next_cell]: its
    result is [none], [translation] or [inverted_translation], and a
    stored [invalid_next_cell] is turned into [none]. The state is
    [invalid_next_cell] after [do_reinit], or after a whole [reinit],
    only when the mapping was asked to fill and returned that value. *)
Theorem invalid_next_cell_only_from_mapping (n_threads : nat)
    (cell : Cell mesh) (fev : FEValuesBase mesh) :
  let checked := check_cell_similarity dim spacedim mesh n_threads cell fev in
  (cell_similarity checked = CellSimilarity.none \/
   cell_similarity checked = CellSimilarity.translation \/
   cell_similarity checked = CellSimilarity.inverted_translation) /\
  (cell_similarity fev = CellSimilarity.invalid_next_cell ->
   cell_similarity checked = CellSimilarity.none) /\
  cell_similarity (constructed mesh (update_mapping fev))
  = CellSimilarity.none /\
  cell_similarity (maybe_invalidate_previous_present_cell mesh cell fev)
  = cell_similarity fev /\
  (cell_similarity (do_reinit mesh fill_fe_values fev)
   = CellSimilarity.invalid_next_cell ->
   cell_similarity fev <> CellSimilarity.invalid_next_cell ->
   update_mapping fev = true /\
   exists bound, present_cell fev = Some bound /\
     fill_fe_values bound (cell_similarity fev)
     = CellSimilarity.invalid_next_cell) /\
  (cell_similarity
     (reinit dim spacedim mesh fill_fe_values n_threads cell fev)
   = CellSimilarity.invalid_next_cell
   <-> update_mapping fev = true /\
       fill_fe_values cell
         (cell_similarity
            (check_cell_similarity dim spacedim mesh n_threads cell
               (maybe_invalidate_previous_present_cell mesh cell fev)))
       = CellSimilarity.invalid_next_cell).
Proof.
  assert (Hrange : forall fev',
    let c := cell_similarity
               (check_cell_similarity dim spacedim mesh n_threads cell fev') in
    c = CellSimilarity.none \/ c = CellSimilarity.translation \/
    c = CellSimilarity.inverted_translation).
  { intros fev'. unfold check_cell_similarity.
    destruct (1 <? n_threads); [now left|].
    destruct (present_cell fev') as [previous|] eqn:E; simpl.
    - destruct (CellSimilarity.eqb (cell_similarity fev') _); simpl.
      + rewrite Bool.andb_false_r. now left.
      + destruct (is_translation_of mesh cell previous); simpl.
        * rewrite E.
          destruct (dim <? spacedim); simpl; [|auto].
          destruct (negb _); simpl; auto.
        * rewrite Bool.andb_false_r. now left.
    - rewrite Bool.andb_false_r. now left. }
  simpl. split; [apply Hrange|]. split; [|split; [|split; [|split]]].
  - apply check_cell_similarity_invalid_next_cell.
  - reflexivity.
  - unfold maybe_invalidate_previous_present_cell.
    destruct (present_cell fev) as [previous|]; [|reflexivity].
    now destruct (same_triangulation mesh cell previous).
  - unfold do_reinit. intros H Hne.
    destruct (update_mapping fev); [|contradiction].
    destruct (present_cell fev) as [bound|]; [|contradiction].
    split; [reflexivity|]. exists bound. split; [reflexivity|exact H].
  - unfold reinit, do_reinit. simpl.
    set (inv := maybe_invalidate_previous_present_cell mesh cell fev).
    assert (Hu : update_mapping
                   (check_cell_similarity dim spacedim mesh n_threads cell inv)
                 = update_mapping fev).
    { rewrite check_cell_similarity_update_mapping. unfold inv.
      unfold maybe_invalidate_previous_present_cell.
      destruct (present_cell fev) as [previous|]; [|reflexivity].
      now destruct (same_triangulation mesh cell previous). }
    rewrite Hu. destruct (update_mapping fev); simpl.
    + split; [auto|]. now intros [_ H].
    + pose proof (Hrange inv) as Hr. simpl in Hr.
      split; [|intros [H _]; discriminate].
      intros H. rewrite H in Hr. destruct Hr as [Hr|[Hr|Hr]]; discriminate.
Qed.

End ReinitProperties.

(** ** The view cache *)

Lemma for_loop_S {S} (n : nat) (body : S -> nat -> result S) (s : S) :
  for_loop (Datatypes.S n) body s
  = bind (for_loop n body s) (fun s => body s n).
Proof. unfold for_loop. now rewrite seq_S, foldl_app. Qed.

Lemma emplace_views_spec {V} (make : nat -> result V) (n : nat) :
  (forall k, k < n -> is_ok (make k) = true) ->
  exists views, emplace_views make n = Ok views /\
    length views = n /\
    forall k v, views !! k = Some v -> make k = Ok v.
Proof.
  unfold emplace_views. induction n as [|n IH]; intros Hok.
  - exists []. repeat split. intros k v H. discriminate.
  - destruct IH as (views & Hviews & Hlen & Hmake); [intros; apply Hok; lia|].
    rewrite for_loop_S, Hviews. simpl.
    specialize (Hok n (Nat.lt_succ_diag_r n)).
    destruct (make n) as [v|e] eqn:E; [|discriminate].
    exists (views ++ [v]). simpl. split; [reflexivity|].
    split; [rewrite length_app; simpl; lia|].
    intros k v' Hk. destruct (decide (k < n)) as [Hlt|Hge].
    + rewrite lookup_app_l in Hk by lia. now apply Hmake.
    + rewrite lookup_app_r in Hk by lia.
      destruct (k - length views) as [|m] eqn:Ek; [|discriminate].
      injection Hk as <-. now replace k with n by lia.
Qed.

Lemma make_view_ok (K : nat) (fe : FiniteElement) (first : nat) :
  1 <= K -> first + K <= n_components fe ->
  is_ok (make_view K fe first) = true.
Proof.
  intros HK Hle. unfold make_view, Assert, index_range_ok, wrap.
  replace (N.of_nat first + N.of_nat K + (2 ^ 32 - 1))%N
    with (N.of_nat (first + K - 1) + 1 * 2 ^ 32)%N by lia.
  rewrite N.Div0.mod_add.
  pose proof (N.Div0.mod_le (N.of_nat (first + K - 1)) (2 ^ 32)) as Hmod.
  now rewrite (proj2 (N.ltb_lt _ _)) by lia.
Qed.

Lemma make_view_first_component (K : nat) (fe : FiniteElement)
    (first : nat) (v : View) :
  make_view K fe first = Ok v -> first_component v = first.
Proof.
  unfold make_view, Assert.
  destruct (index_range_ok K fe first); [|discriminate].
  now intros [= <-].
Qed.

Lemma Scalar_component (fe : FiniteElement) (c : nat) (v : ScalarView) :
  Scalar.Scalar fe c = Ok v -> component v = c.
Proof.
  unfold Scalar.Scalar, Assert.
  destruct (c <? n_components fe); [|discriminate].
  now intros [= <-].
Qed.

Lemma n_windows_spec (fe : FiniteElement) (width k : nat) :
  k < n_windows fe width -> k + width <= n_components fe.
Proof.
  unfold n_windows.
  destruct (width <=? n_components fe) eqn:E;
    [apply Nat.leb_le in E|]; lia.
Qed.

Lemma SymmetricTensor_n_independent_components_mono (dim spacedim : nat) :
  dim <= spacedim ->
  SymmetricTensor_n_independent_components dim
  <= SymmetricTensor_n_independent_components spacedim.
Proof.
  intros H. unfold SymmetricTensor_n_independent_components.
  apply Nat.Div0.div_le_mono. nia.
Qed.

Lemma SymmetricTensor_n_independent_components_pos (dim : nat) :
  1 <= dim -> 1 <= SymmetricTensor_n_independent_components dim.
Proof.
  intros H. unfold SymmetricTensor_n_independent_components.
  apply (Nat.div_le_lower_bound _ 2 1); nia.
Qed.

(** C9. The view cache of an element with [n_components] components is
    constructed without failure and owns [n_components] scalar views,
    [n_components - spacedim + 1] vector views,
    [n_components - (spacedim^2 + spacedim)/2 + 1] symmetric tensor views
    and [n_components - spacedim^2 + 1] tensor views (none when the
    element has fewer components than the width of the window); the view
    at position [k] of each list is the one its constructor builds for
    the window of consecutive components that starts at component [k]. *)
Theorem cache_sliding_windows (dim spacedim : nat) (fe : FiniteElement) :
  1 <= dim -> dim <= spacedim ->
  exists cache, make_Cache dim spacedim fe = Ok cache /\
    length (scalars cache) = n_components fe /\
    length (vectors cache)
    = (if spacedim <=? n_components fe
       then n_components fe - spacedim + 1 else 0) /\
    length (symmetric_second_order_tensors cache)
    = (if (spacedim * spacedim + spacedim) / 2 <=? n_components fe
       then n_components fe - (spacedim * spacedim + spacedim) / 2 + 1
       else 0) /\
    length (second_order_tensors cache)
    = (if spacedim ^ 2 <=? n_components fe
       then n_components fe - spacedim ^ 2 + 1 else 0) /\
    (forall k v, scalars cache !! k = Some v ->
       Scalar.Scalar fe k = Ok v /\ component v = k) /\
    (forall k v, vectors cache !! k = Some v ->
       Vector.Vector spacedim fe k = Ok v /\ first_component v = k) /\
    (forall k v, symmetric_second_order_tensors cache !! k = Some v ->
       SymmetricTensor.SymmetricTensor dim fe k = Ok v /\
       first_component v = k) /\
    (forall k v, second_order_tensors cache !! k = Some v ->
       Tensor.Tensor dim fe k = Ok v /\ first_component v = k).
Proof.
  intros Hdim Hspacedim. unfold make_Cache.
  destruct (emplace_views_spec (Scalar.Scalar fe) (n_components fe))
    as (ss & -> & Hss & Hs).
  { intros k Hk. unfold Scalar.Scalar, Assert.
    now rewrite (proj2 (Nat.ltb_lt _ _) Hk). }
  destruct (emplace_views_spec (Vector.Vector spacedim fe)
              (n_windows fe (Tensor_n_independent_components 1 spacedim)))
    as (vs & -> & Hvs & Hv).
  { intros k Hk. apply n_windows_spec in Hk.
    unfold Tensor_n_independent_components in Hk. rewrite Nat.pow_1_r in Hk.
    apply make_view_ok; lia. }
  destruct (emplace_views_spec (SymmetricTensor.SymmetricTensor dim fe)
              (n_windows fe
                 (SymmetricTensor_n_independent_components spacedim)))
    as (ts & -> & Hts & Ht).
  { intros k Hk. apply n_windows_spec in Hk.
    pose proof (SymmetricTensor_n_independent_components_mono
                  dim spacedim Hspacedim).
    apply make_view_ok;
      [now apply SymmetricTensor_n_independent_components_pos|lia]. }
  destruct (emplace_views_spec (Tensor.Tensor dim fe)
              (n_windows fe (Tensor_n_independent_components 2 spacedim)))
    as (us & -> & Hus & Hu).
  { intros k Hk. apply n_windows_spec in Hk.
    unfold Tensor_n_independent_components in Hk.
    apply make_view_ok; [nia|].
    assert (dim * dim <= spacedim ^ 2) by (simpl; nia). lia. }
  eexists. split; [reflexivity|]. simpl.
  unfold n_windows, Tensor_n_independent_components,
    SymmetricTensor_n_independent_components in *.
  rewrite Nat.pow_1_r in Hvs.
  repeat split; try assumption.
  - now apply Hs.
  - eapply Scalar_component, Hs; eassumption.
  - now apply Hv.
  - eapply make_view_first_component, Hv; eassumption.
  - now apply Ht.
  - eapply make_view_first_component, Ht; eassumption.
  - now apply Hu.
  - eapply make_view_first_component, Hu; eassumption.
Qed.

(** The cache of [example_fe] in two space dimensions: two scalar views,
    one vector view and no tensor views. *)
Lemma cache_sliding_windows_witness :
  exists cache, make_Cache 2 2 example_fe = Ok cache /\
    length (scalars cache) = 2 /\
    length (vectors cache) = 1 /\
    length (symmetric_second_order_tensors cache) = 0 /\
    length (second_order_tensors cache) = 0.
Proof.
  destruct (cache_sliding_windows 2 2 example_fe)
    as (cache & Hc & H1 & H2 & H3 & H4 & _); [lia|lia|].
  exists cache. repeat split; assumption.
Defined.

(** ** Tensor algebra *)

Section TensorAlgebra.
Context {num : NumberType} {laws : NumberLaws num}.

Add Ring number_ring_instance : number_ring.

Local Open Scope number_scope.

Lemma tensor_eq_refl (rank : nat) (t : Tensor rank) : tensor_eq rank t t.
Proof. induction rank as [|r IH]; simpl; auto. Qed.

Lemma tensor_eq_sym (rank : nat) (s t : Tensor rank) :
  tensor_eq rank s t -> tensor_eq rank t s.
Proof. induction rank as [|r IH]; simpl; auto. Qed.

Lemma tensor_eq_trans (rank : nat) (s t u : Tensor rank) :
  tensor_eq rank s t -> tensor_eq rank t u -> tensor_eq rank s u.
Proof.
  induction rank as [|r IH]; simpl; [congruence|].
  intros H1 H2 i. eapply IH; eauto.
Qed.

Lemma tensor_add_compat (rank : nat) (s s' t t' : Tensor rank) :
  tensor_eq rank s s' -> tensor_eq rank t t' ->
  tensor_eq rank (tensor_add rank s t) (tensor_add rank s' t').
Proof.
  induction rank as [|r IH]; simpl; [congruence|].
  intros H1 H2 i. now apply IH.
Qed.

Lemma tensor_scale_compat (rank : nat) (x : Number) (t t' : Tensor rank) :
  tensor_eq rank t t' ->
  tensor_eq rank (tensor_scale rank x t) (tensor_scale rank x t').
Proof.
  induction rank as [|r IH]; simpl; [congruence|].
  intros H i. now apply IH.
Qed.

Lemma tensor_add_assoc (rank : nat) (s t u : Tensor rank) :
  tensor_eq rank (tensor_add rank (tensor_add rank s t) u)
    (tensor_add rank s (tensor_add rank t u)).
Proof. induction rank as [|r IH]; simpl; [ring|auto]. Qed.

Lemma tensor_add_comm (rank : nat) (s t : Tensor rank) :
  tensor_eq rank (tensor_add rank s t) (tensor_add rank t s).
Proof. induction rank as [|r IH]; simpl; [ring|auto]. Qed.

Lemma tensor_add_zero_r (rank : nat) (t : Tensor rank) :
  tensor_eq rank (tensor_add rank t (tensor_zero rank)) t.
Proof. induction rank as [|r IH]; simpl; [ring|auto]. Qed.

Lemma tensor_add_zero_l (rank : nat) (t : Tensor rank) :
  tensor_eq rank (tensor_add rank (tensor_zero rank) t) t.
Proof. induction rank as [|r IH]; simpl; [ring|auto]. Qed.

Lemma tensor_scale_zero_l (rank : nat) (t : Tensor rank) :
  tensor_eq rank (tensor_scale rank 0 t) (tensor_zero rank).
Proof. induction rank as [|r IH]; simpl; [ring|auto]. Qed.

Lemma tensor_scale_zero_r (rank : nat) (x : Number) :
  tensor_eq rank (tensor_scale rank x (tensor_zero rank)) (tensor_zero rank).
Proof. induction rank as [|r IH]; simpl; [ring|auto]. Qed.

Lemma tensor_scale_add_r (rank : nat) (x : Number) (s t : Tensor rank) :
  tensor_eq rank (tensor_scale rank x (tensor_add rank s t))
    (tensor_add rank (tensor_scale rank x s) (tensor_scale rank x t)).
Proof. induction rank as [|r IH]; simpl; [ring|auto]. Qed.

Lemma tensor_scale_scale (rank : nat) (x y : Number) (t : Tensor rank) :
  tensor_eq rank (tensor_scale rank x (tensor_scale rank y t))
    (tensor_scale rank (x * y) t).
Proof. induction rank as [|r IH]; simpl; [ring|auto]. Qed.

(** Scaling by a linear combination of coefficients. *)
Lemma tensor_scale_combination (rank : nat) (a b x y : Number)
    (t : Tensor rank) :
  tensor_eq rank (tensor_scale rank (a * x + b * y) t)
    (tensor_add rank (tensor_scale rank a (tensor_scale rank x t))
       (tensor_scale rank b (tensor_scale rank y t))).
Proof. induction rank as [|r IH]; simpl; [ring|auto]. Qed.

(** Rearranging a sum of two sums. *)
Lemma tensor_add_interchange (rank : nat) (s t u v : Tensor rank) :
  tensor_eq rank
    (tensor_add rank (tensor_add rank s t) (tensor_add rank u v))
    (tensor_add rank (tensor_add rank s u) (tensor_add rank t v)).
Proof. induction rank as [|r IH]; simpl; [ring|auto]. Qed.

Lemma tensor_sum_compat (rank : nat) (n : nat) (f g : nat -> Tensor rank) :
  (forall i, i < n -> tensor_eq rank (f i) (g i)) ->
  tensor_eq rank (tensor_sum rank n f) (tensor_sum rank n g).
Proof.
  induction n as [|n IH]; intros H; simpl; [apply tensor_eq_refl|].
  apply tensor_add_compat; [apply IH; intros; apply H; lia|apply H; lia].
Qed.

Lemma tensor_sum_zero (rank : nat) (n : nat) :
  tensor_eq rank (tensor_sum rank n (fun _ => tensor_zero rank))
    (tensor_zero rank).
Proof.
  induction n as [|n IH]; simpl; [apply tensor_eq_refl|].
  eapply tensor_eq_trans; [apply tensor_add_zero_r|exact IH].
Qed.

Lemma tensor_sum_add (rank : nat) (n : nat) (f g : nat -> Tensor rank) :
  tensor_eq rank
    (tensor_sum rank n (fun i => tensor_add rank (f i) (g i)))
    (tensor_add rank (tensor_sum rank n f) (tensor_sum rank n g)).
Proof.
  induction n as [|n IH]; simpl.
  - apply tensor_eq_sym, tensor_add_zero_r.
  - eapply tensor_eq_trans;
      [apply tensor_add_compat; [exact IH|apply tensor_eq_refl]|].
    apply tensor_add_interchange.
Qed.

Lemma tensor_sum_scale (rank : nat) (n : nat) (x : Number)
    (f : nat -> Tensor rank) :
  tensor_eq rank
    (tensor_sum rank n (fun i => tensor_scale rank x (f i)))
    (tensor_scale rank x (tensor_sum rank n f)).
Proof.
  induction n as [|n IH]; simpl.
  - apply tensor_eq_sym, tensor_scale_zero_r.
  - eapply tensor_eq_trans;
      [apply tensor_add_compat; [exact IH|apply tensor_eq_refl]|].
    apply tensor_eq_sym, tensor_scale_add_r.
Qed.

End TensorAlgebra.

(** ** Accumulation *)

Section Accumulation.
Context {num : NumberType} {laws : NumberLaws num}.

Add Ring number_ring_accumulation : number_ring.

Local Open Scope number_scope.

Lemma adds_skip (rank : nat) (g : nat -> Tensor rank)
    (out : list (Tensor rank)) :
  (forall q, tensor_eq rank (g q) (tensor_zero rank)) ->
  adds rank g out out.
Proof.
  intros Hg. split; [reflexivity|]. intros q v Hv. exists v.
  split; [exact Hv|].
  apply tensor_eq_sym.
  eapply tensor_eq_trans; [|apply tensor_add_zero_r].
  apply tensor_add_compat; [apply tensor_eq_refl|apply Hg].
Qed.

Lemma adds_for_each_q_point (rank : nat) (g : nat -> Tensor rank)
    (f : nat -> Tensor rank -> Tensor rank) (out : list (Tensor rank)) :
  (forall q v, tensor_eq rank (f q v) (tensor_add rank v (g q))) ->
  adds rank g out (for_each_q_point out f).
Proof.
  intros Hf. unfold for_each_q_point. split; [apply length_imap|].
  intros q v Hv. exists (f q v).
  split; [now rewrite list_lookup_imap, Hv|apply Hf].
Qed.

Lemma adds_ext (rank : nat) (g g' : nat -> Tensor rank)
    (out out' : list (Tensor rank)) :
  (forall q, tensor_eq rank (g q) (g' q)) ->
  adds rank g out out' -> adds rank g' out out'.
Proof.
  intros Hg [Hlen H]. split; [exact Hlen|]. intros q v Hv.
  destruct (H q v Hv) as (v' & Hv' & Heq). exists v'. split; [exact Hv'|].
  eapply tensor_eq_trans; [exact Heq|].
  apply tensor_add_compat; [apply tensor_eq_refl|apply Hg].
Qed.

Lemma adds_trans (rank : nat) (g g' : nat -> Tensor rank)
    (out out' out'' : list (Tensor rank)) :
  adds rank g out out' -> adds rank g' out' out'' ->
  adds rank (fun q => tensor_add rank (g q) (g' q)) out out''.
Proof.
  intros [Hlen H] [Hlen' H']. split; [congruence|]. intros q v Hv.
  destruct (H q v Hv) as (v' & Hv' & Heq).
  destruct (H' q v' Hv') as (v'' & Hv'' & Heq').
  exists v''. split; [exact Hv''|].
  eapply tensor_eq_trans; [exact Heq'|].
  eapply tensor_eq_trans;
    [apply tensor_add_compat; [exact Heq|apply tensor_eq_refl]|].
  apply tensor_add_assoc.
Qed.

(** A loop whose every iteration adds [g k] adds the sum of the [g k]. *)
Lemma adds_foldl (rank : nat) (n : nat) (g : nat -> nat -> Tensor rank)
    (step : list (Tensor rank) -> nat -> list (Tensor rank))
    (out : list (Tensor rank)) :
  (forall out k, k < n -> adds rank (g k) out (step out k)) ->
  adds rank (fun q => tensor_sum rank n (fun k => g k q)) out
    (foldl step out (seq 0 n)).
Proof.
  induction n as [|n IH]; intros Hstep.
  - simpl. apply adds_skip. intros q. apply tensor_eq_refl.
  - rewrite seq_S, foldl_app. simpl.
    apply (adds_trans rank _ (g n) out (foldl step out (seq 0 n))).
    + apply IH. intros out0 k Hk. apply Hstep. lia.
    + apply Hstep. lia.
Qed.

Lemma lookup_fill {T} (zero : T) (values : list T) (q : nat) (v : T) :
  fill zero values !! q = Some v -> v = zero.
Proof.
  unfold fill. change (map ?f ?l) with (f <$> l).
  rewrite list_lookup_fmap. destruct (values !! q); simpl; congruence.
Qed.

Lemma length_fill {T} (zero : T) (values : list T) :
  length (fill zero values) = length values.
Proof. unfold fill. apply length_map. Qed.

(** Accumulating into a zeroed array leaves what was added. *)
Lemma adds_fill (rank : nat) (g : nat -> Tensor rank)
    (out out' : list (Tensor rank)) :
  adds rank g (fill (tensor_zero rank) out) out' ->
  length out' = length out /\
  forall q v, out' !! q = Some v -> tensor_eq rank v (g q).
Proof.
  intros [Hlen H]. rewrite length_fill in Hlen. split; [exact Hlen|].
  intros q v Hv.
  assert (Hq : q < length (fill (tensor_zero rank) out))
    by (rewrite length_fill, <- Hlen; eapply lookup_lt_Some; eauto).
  destruct (lookup_lt_is_Some_2 _ _ Hq) as [z Hz].
  destruct (H q z Hz) as (v' & Hv' & Heq).
  assert (v' = v) by congruence. subst v'.
  apply lookup_fill in Hz. subst z.
  eapply tensor_eq_trans; [exact Heq|apply tensor_add_zero_l].
Qed.

Lemma lookup_total_linear_combination (a b : Number) (c1 c2 : list Number)
    (i : nat) :
  length c1 = length c2 -> i < length c1 ->
  linear_combination a b c1 c2 !!! i = a * (c1 !!! i) + b * (c2 !!! i).
Proof.
  intros Hlen Hi. unfold linear_combination.
  destruct (lookup_lt_is_Some_2 c1 i Hi) as [x Hx].
  destruct (lookup_lt_is_Some_2 c2 i) as [y Hy]; [lia|].
  rewrite (list_lookup_total_correct c1 i x Hx).
  rewrite (list_lookup_total_correct c2 i y Hy).
  apply list_lookup_total_correct.
  now rewrite lookup_zip_with, Hx, Hy.
Qed.

Lemma length_linear_combination (a b : Number) (c1 c2 : list Number) :
  length c1 = length c2 ->
  length (linear_combination a b c1 c2) = length c1.
Proof.
  intros H. unfold linear_combination. rewrite length_zip_with. lia.
Qed.

(** A contraction of the coefficients is linear in them. *)
Lemma contracts_linear (rank : nat) (phi : nat -> nat -> Tensor rank)
    (a b : Number) (c1 c2 : list Number) (v v1 v2 : list (Tensor rank)) :
  length c1 = length c2 ->
  length v = length v1 -> length v = length v2 ->
  contracts rank phi (linear_combination a b c1 c2) v ->
  contracts rank phi c1 v1 ->
  contracts rank phi c2 v2 ->
  is_linear_combination rank a b v v1 v2.
Proof.
  intros Hc Hl1 Hl2 H H1 H2. split; [exact Hl1|]. split; [exact Hl2|].
  intros q w w1 w2 Hw Hw1 Hw2.
  specialize (H q w Hw). specialize (H1 q w1 Hw1). specialize (H2 q w2 Hw2).
  rewrite length_linear_combination in H by assumption.
  rewrite <- Hc in H2.
  eapply tensor_eq_trans; [exact H|].
  eapply tensor_eq_trans; cycle 1.
  { apply tensor_add_compat; apply tensor_scale_compat, tensor_eq_sym;
      [exact H1|exact H2]. }
  eapply tensor_eq_trans; cycle 1.
  { apply tensor_add_compat; apply tensor_sum_scale. }
  eapply tensor_eq_trans; cycle 1.
  { apply tensor_sum_add. }
  apply tensor_sum_compat. intros i Hi.
  rewrite lookup_total_linear_combination by assumption.
  apply tensor_scale_combination.
Qed.

Lemma tensor_add_at_unit (rank : nat) (k : nat) (value : Number)
    (x : Tensor rank) (t : Tensor (S rank)) :
  tensor_eq (S rank) (tensor_add_at rank k (tensor_scale rank value x) t)
    (tensor_add (S rank) t (tensor_scale (S rank) value (unit_at rank k x))).
Proof.
  intros j. unfold tensor_add_at, tensor_update_at, unit_at. simpl.
  destruct (j =? k); [apply tensor_eq_refl|].
  apply tensor_eq_sym.
  eapply tensor_eq_trans; [|apply tensor_add_zero_r].
  apply tensor_add_compat; [apply tensor_eq_refl|apply tensor_scale_zero_r].
Qed.

(** The frame of the kernels adds the contraction of the coefficients
    with the basis of the two paths. *)
Lemma accumulate_adds (rank : nat)
    (single : Number -> Z -> nat -> list (Tensor rank) -> list (Tensor rank))
    (multiple : Number -> FEValuesViews.ShapeFunctionData
                -> list (Tensor rank) -> list (Tensor rank))
    (phi_single : Z -> nat -> nat -> Tensor rank)
    (phi_multiple : FEValuesViews.ShapeFunctionData -> nat -> Tensor rank) :
  (forall value snc index out,
     adds rank (fun q => tensor_scale rank value (phi_single snc index q))
       out (single value snc index out)) ->
  (forall value s out,
     adds rank (fun q => tensor_scale rank value (phi_multiple s q))
       out (multiple value s out)) ->
  forall dof_values shape_function_data out,
    adds rank
      (fun q =>
         tensor_sum rank (length dof_values)
           (fun i =>
              tensor_scale rank (dof_values !!! i)
                (basis rank phi_single phi_multiple shape_function_data i q)))
      out
      (Kernels.accumulate dof_values shape_function_data single multiple out).
Proof.
  intros HS HM dof_values shape_function_data out. unfold Kernels.accumulate.
  apply (adds_foldl rank (length dof_values)
           (fun i q =>
              tensor_scale rank (dof_values !!! i)
                (basis rank phi_single phi_multiple shape_function_data i q))).
  intros out0 i Hi. unfold basis.
  destruct (FEValuesViews.single_nonzero_component
              (shape_function_data !!! i) =? -2)%Z.
  { apply adds_skip. intros q. apply tensor_scale_zero_r. }
  destruct (CheckForZero (dof_values !!! i)) eqn:E.
  { apply CheckForZero_sound in E. rewrite E.
    apply adds_skip. intros q. apply tensor_scale_zero_l. }
  destruct (negb _); [apply HS|apply HM].
Qed.

(** The loop over the flagged sub-components of the general path. *)
Lemma adds_sub_components (rank : nat) (K : nat) (value : Number)
    (s : FEValuesViews.ShapeFunctionData)
    (psi : FEValuesViews.ShapeFunctionData -> nat -> nat -> Tensor rank)
    (body : nat -> list (Tensor rank) -> list (Tensor rank))
    (out : list (Tensor rank)) :
  (forall d out,
     adds rank (fun q => tensor_scale rank value (psi s d q)) out
       (body d out)) ->
  adds rank
    (fun q => tensor_scale rank value (sub_component_sum rank K psi s q))
    out
    (foldl (fun out d => if FEValuesViews.flag s d then body d out else out)
       out (seq 0 K)).
Proof.
  intros Hbody. unfold sub_component_sum.
  eapply adds_ext; cycle 1.
  - apply (adds_foldl rank K
             (fun d q =>
                tensor_scale rank value
                  (if FEValuesViews.flag s d then psi s d q
                   else tensor_zero rank))).
    intros out0 d Hd. destruct (FEValuesViews.flag s d); [apply Hbody|].
    apply adds_skip. intros q. apply tensor_scale_zero_r.
  - intros q. simpl. apply tensor_sum_scale.
Qed.

(** A kernel built on the frame is a contraction, hence linear. *)
Lemma accumulate_contracts (rank : nat)
    (single : Number -> Z -> nat -> list (Tensor rank) -> list (Tensor rank))
    (multiple : Number -> FEValuesViews.ShapeFunctionData
                -> list (Tensor rank) -> list (Tensor rank))
    (phi_single : Z -> nat -> nat -> Tensor rank)
    (phi_multiple : FEValuesViews.ShapeFunctionData -> nat -> Tensor rank) :
  (forall value snc index out,
     adds rank (fun q => tensor_scale rank value (phi_single snc index q))
       out (single value snc index out)) ->
  (forall value s out,
     adds rank (fun q => tensor_scale rank value (phi_multiple s q))
       out (multiple value s out)) ->
  forall dof_values shape_function_data out,
    let out' :=
      Kernels.accumulate dof_values shape_function_data single multiple
        (fill (tensor_zero rank) out) in
    length out' = length out /\
    contracts rank (basis rank phi_single phi_multiple shape_function_data)
      dof_values out'.
Proof.
  intros HS HM dof_values shape_function_data out out'.
  apply (adds_fill rank
           (fun q =>
              tensor_sum rank (length dof_values)
                (fun i =>
                   tensor_scale rank (dof_values !!! i)
                     (basis rank phi_single phi_multiple
                        shape_function_data i q)))).
  now apply accumulate_adds.
Qed.

Lemma accumulate_linear (rank : nat)
    (single : Number -> Z -> nat -> list (Tensor rank) -> list (Tensor rank))
    (multiple : Number -> FEValuesViews.ShapeFunctionData
                -> list (Tensor rank) -> list (Tensor rank))
    (phi_single : Z -> nat -> nat -> Tensor rank)
    (phi_multiple : FEValuesViews.ShapeFunctionData -> nat -> Tensor rank)
    (shape_function_data : list FEValuesViews.ShapeFunctionData) :
  (forall value snc index out,
     adds rank (fun q => tensor_scale rank value (phi_single snc index q))
       out (single value snc index out)) ->
  (forall value s out,
     adds rank (fun q => tensor_scale rank value (phi_multiple s q))
       out (multiple value s out)) ->
  linear_kernel rank
    (fun dof_values out =>
       Kernels.accumulate dof_values shape_function_data single multiple
         (fill (tensor_zero rank) out)).
Proof.
  intros HS HM a b c1 c2 out Hlen.
  pose proof (accumulate_contracts rank single multiple phi_single
                phi_multiple HS HM) as H.
  destruct (H (linear_combination a b c1 c2) shape_function_data out)
    as [Hl Hc].
  destruct (H c1 shape_function_data out) as [Hl1 Hc1].
  destruct (H c2 shape_function_data out) as [Hl2 Hc2].
  eapply contracts_linear; eauto; congruence.
Qed.

Lemma for_loop_Err {S} (n k : nat) (body : S -> nat -> result S) (s : S) :
  k < n -> (forall s, is_ok (body s k) = false) ->
  is_ok (for_loop n body s) = false.
Proof.
  intros Hk Hbody. induction n as [|n IH]; [lia|].
  rewrite for_loop_S.
  destruct (decide (k = n)) as [->|Hne].
  - destruct (for_loop n body s); simpl; [apply Hbody|reflexivity].
  - assert (H : is_ok (for_loop n body s) = false) by (apply IH; lia).
    destruct (for_loop n body s); [discriminate|reflexivity].
Qed.

(** Every exception of a loop is an exception of its body. *)
Lemma for_loop_exception {S} (P : exception -> Prop) (n : nat)
    (body : S -> nat -> result S) (s : S) (e : exception) :
  (forall s k e, body s k = Err e -> P e) ->
  for_loop n body s = Err e -> P e.
Proof.
  intros Hbody. induction n as [|n IH]; [discriminate|].
  rewrite for_loop_S.
  destruct (for_loop n body s) as [s'|e'] eqn:E; simpl.
  - apply Hbody.
  - intros [= <-]. now apply IH.
Qed.

(** The frame of the kernels that contain an assertion: it raises when
    some shape function raises, and otherwise adds the contraction of
    the coefficients with the basis of the two paths. *)
Lemma accumulate_checked_spec (rank : nat)
    (single : Number -> Z -> nat -> list (Tensor rank)
              -> result (list (Tensor rank)))
    (multiple : Number -> FEValuesViews.ShapeFunctionData
                -> list (Tensor rank) -> result (list (Tensor rank)))
    (phi_single : Z -> nat -> nat -> Tensor rank)
    (phi_multiple : FEValuesViews.ShapeFunctionData -> nat -> Tensor rank)
    (fail_single : Z -> nat -> bool)
    (fail_multiple : FEValuesViews.ShapeFunctionData -> bool) :
  (forall value snc index out,
     if fail_single snc index
     then is_ok (single value snc index out) = false
     else exists out', single value snc index out = Ok out' /\
            adds rank
              (fun q => tensor_scale rank value (phi_single snc index q))
              out out') ->
  (forall value s out,
     if fail_multiple s
     then is_ok (multiple value s out) = false
     else exists out', multiple value s out = Ok out' /\
            adds rank (fun q => tensor_scale rank value (phi_multiple s q))
              out out') ->
  forall dof_values shape_function_data out,
    ((exists i, i < length dof_values /\
        raises fail_single fail_multiple dof_values shape_function_data i
        = true) ->
     is_ok (Kernels.accumulate_checked dof_values shape_function_data
              single multiple out) = false) /\
    ((forall i, i < length dof_values ->
        raises fail_single fail_multiple dof_values shape_function_data i
        = false) ->
     exists out',
       Kernels.accumulate_checked dof_values shape_function_data
         single multiple out = Ok out' /\
       adds rank
         (fun q =>
            tensor_sum rank (length dof_values)
              (fun i =>
                 tensor_scale rank (dof_values !!! i)
                   (basis rank phi_single phi_multiple
                      shape_function_data i q)))
         out out').
Proof.
  intros HS HM dof_values shape_function_data out.
  unfold Kernels.accumulate_checked, raises, structural_failure. split.
  - intros (i & Hi & Hr). apply (for_loop_Err _ i); [exact Hi|].
    intros out0. apply andb_prop in Hr. destruct Hr as [Hf Hz].
    destruct (FEValuesViews.single_nonzero_component
                (shape_function_data !!! i) =? -2)%Z; [discriminate|].
    destruct (CheckForZero (dof_values !!! i)); [discriminate|].
    destruct (negb _).
    + specialize (HS (dof_values !!! i)
                    (FEValuesViews.single_nonzero_component
                       (shape_function_data !!! i))
                    (FEValuesViews.single_nonzero_component_index
                       (shape_function_data !!! i)) out0).
      now rewrite Hf in HS.
    + specialize (HM (dof_values !!! i) (shape_function_data !!! i) out0).
      now rewrite Hf in HM.
  - generalize (length dof_values) as n. intros n.
    induction n as [|n IH]; intros Hr.
    + exists out. split; [reflexivity|].
      apply adds_skip. intros q. apply tensor_eq_refl.
    + destruct IH as (out_n & Hn & Hadds); [intros; apply Hr; lia|].
      rewrite for_loop_S, Hn. simpl.
      specialize (Hr n (Nat.lt_succ_diag_r n)).
      assert (Hstep : exists out',
                (let s := shape_function_data !!! n in
                 let snc := FEValuesViews.single_nonzero_component s in
                 if (snc =? -2)%Z then Ok out_n
                 else
                   let value := dof_values !!! n in
                   if CheckForZero value then Ok out_n
                   else if negb (snc =? -1)%Z
                   then single value snc
                          (FEValuesViews.single_nonzero_component_index s)
                          out_n
                   else multiple value s out_n) = Ok out' /\
                adds rank
                  (fun q =>
                     tensor_scale rank (dof_values !!! n)
                       (basis rank phi_single phi_multiple
                          shape_function_data n q))
                  out_n out').
      { unfold basis. simpl.
        destruct (FEValuesViews.single_nonzero_component
                    (shape_function_data !!! n) =? -2)%Z.
        { exists out_n. split; [reflexivity|].
          apply adds_skip. intros q. apply tensor_scale_zero_r. }
        destruct (CheckForZero (dof_values !!! n)) eqn:E.
        { exists out_n. split; [reflexivity|].
          apply CheckForZero_sound in E. rewrite E.
          apply adds_skip. intros q. apply tensor_scale_zero_l. }
        rewrite Bool.andb_true_r in Hr.
        destruct (negb _).
        - specialize (HS (dof_values !!! n)
                        (FEValuesViews.single_nonzero_component
                           (shape_function_data !!! n))
                        (FEValuesViews.single_nonzero_component_index
                           (shape_function_data !!! n)) out_n).
          now rewrite Hr in HS.
        - specialize (HM (dof_values !!! n) (shape_function_data !!! n)
                        out_n).
          now rewrite Hr in HM. }
      destruct Hstep as (out' & Hout' & Hadds').
      exists out'. split; [exact Hout'|].
      apply (adds_trans rank _ _ out out_n out' Hadds Hadds').
Qed.

(** A kernel built on the frame with assertions is linear wherever it
    returns. *)
Lemma accumulate_checked_linear (rank : nat)
    (single : Number -> Z -> nat -> list (Tensor rank)
              -> result (list (Tensor rank)))
    (multiple : Number -> FEValuesViews.ShapeFunctionData
                -> list (Tensor rank) -> result (list (Tensor rank)))
    (phi_single : Z -> nat -> nat -> Tensor rank)
    (phi_multiple : FEValuesViews.ShapeFunctionData -> nat -> Tensor rank)
    (fail_single : Z -> nat -> bool)
    (fail_multiple : FEValuesViews.ShapeFunctionData -> bool)
    (shape_function_data : list FEValuesViews.ShapeFunctionData) :
  (forall value snc index out,
     if fail_single snc index
     then is_ok (single value snc index out) = false
     else exists out', single value snc index out = Ok out' /\
            adds rank
              (fun q => tensor_scale rank value (phi_single snc index q))
              out out') ->
  (forall value s out,
     if fail_multiple s
     then is_ok (multiple value s out) = false
     else exists out', multiple value s out = Ok out' /\
            adds rank (fun q => tensor_scale rank value (phi_multiple s q))
              out out') ->
  linear_where_defined rank
    (fun dof_values out =>
       Kernels.accumulate_checked dof_values shape_function_data
         single multiple (fill (tensor_zero rank) out)).
Proof.
  intros HS HM a b c1 c2 out v1 v2 Hlen H1 H2.
  pose proof (accumulate_checked_spec rank single multiple phi_single
                phi_multiple fail_single fail_multiple HS HM) as Hspec.
  assert (Hno : forall c v,
            Kernels.accumulate_checked c shape_function_data single multiple
              (fill (tensor_zero rank) out) = Ok v ->
            forall i, i < length c ->
              raises fail_single fail_multiple c shape_function_data i
              = false).
  { intros c v Hv i Hi.
    destruct (raises fail_single fail_multiple c shape_function_data i)
      eqn:E; [|reflexivity].
    destruct (Hspec c shape_function_data (fill (tensor_zero rank) out))
      as [Hraise _].
    rewrite Hv in Hraise. discriminate Hraise. now exists i. }
  assert (Hc : forall c v,
            Kernels.accumulate_checked c shape_function_data single multiple
              (fill (tensor_zero rank) out) = Ok v ->
            length v = length out /\
            contracts rank
              (basis rank phi_single phi_multiple shape_function_data) c v).
  { intros c v Hv.
    destruct (Hspec c shape_function_data (fill (tensor_zero rank) out))
      as [_ Hok].
    destruct (Hok (Hno c v Hv)) as (v' & Hv' & Hadds).
    assert (v' = v) by congruence. subst v'.
    now apply adds_fill in Hadds. }
  destruct (Hspec (linear_combination a b c1 c2) shape_function_data
              (fill (tensor_zero rank) out)) as [_ Hok].
  destruct Hok as (v & Hv & Hadds).
  { intros i Hi. rewrite length_linear_combination in Hi by assumption.
    pose proof (Hno c1 v1 H1 i Hi) as R1.
    pose proof (Hno c2 v2 H2 i) as R2. specialize (R2 ltac:(lia)).
    unfold raises in *.
    destruct (structural_failure fail_single fail_multiple
                (shape_function_data !!! i)); [|reflexivity].
    simpl in *. apply Bool.negb_false_iff in R1, R2.
    apply Bool.negb_false_iff.
    rewrite lookup_total_linear_combination by assumption.
    pose proof (CheckForZero_sound _ R1) as Z1.
    pose proof (CheckForZero_sound _ R2) as Z2.
    rewrite Z1 in R1. rewrite Z1, Z2.
    replace (a * 0 + b * 0) with 0 by ring. exact R1. }
  exists v. split; [exact Hv|].
  destruct (Hc _ _ Hv) as [Hl Hcv].
  destruct (Hc _ _ H1) as [Hl1 Hcv1].
  destruct (Hc _ _ H2) as [Hl2 Hcv2].
  eapply contracts_linear; eauto; congruence.
Qed.

End Accumulation.

(** ** The kernels of the scalar views *)

Section ScalarKernels.
Context {num : NumberType} {laws : NumberLaws num}.
Variable spacedim : nat.

Add Ring number_ring_scalar : number_ring.

Local Open Scope number_scope.

(** The derivative kernel contracts the coefficients with the rows of
    the table of shape derivatives. *)
Lemma do_function_derivatives_Scalar_contracts (order : nat)
    (dof_values : list Number) (shape_derivatives : Table (Tensor order))
    (shape_function_data : list FEValuesViews.ScalarShapeFunctionData)
    (derivatives : list (Tensor order)) :
  let out :=
    Kernels.do_function_derivatives_Scalar order dof_values
      shape_derivatives shape_function_data derivatives in
  length out = length derivatives /\
  contracts order (scalar_basis order shape_derivatives shape_function_data)
    dof_values out.
Proof.
  unfold Kernels.do_function_derivatives_Scalar.
  apply (adds_fill order
           (fun q =>
              tensor_sum order (length dof_values)
                (fun i =>
                   tensor_scale order (dof_values !!! i)
                     (scalar_basis order shape_derivatives
                        shape_function_data i q)))).
  apply (adds_foldl order (length dof_values)
           (fun i q =>
              tensor_scale order (dof_values !!! i)
                (scalar_basis order shape_derivatives
                   shape_function_data i q))).
  intros out i Hi. unfold scalar_basis.
  destruct (FEValuesViews.scalar_is_nonzero_shape_function_component _).
  - destruct (CheckForZero (dof_values !!! i)) eqn:E.
    + apply CheckForZero_sound in E. rewrite E.
      apply adds_skip. intros q. apply tensor_scale_zero_l.
    + apply adds_for_each_q_point. intros q v. apply tensor_eq_refl.
  - apply adds_skip. intros q. apply tensor_scale_zero_r.
Qed.

Lemma do_function_values_Scalar_contracts
    (dof_values : list Number) (shape_values : Table Number)
    (shape_function_data : list FEValuesViews.ScalarShapeFunctionData)
    (values : list Number) :
  let out :=
    Kernels.do_function_values_Scalar dof_values shape_values
      shape_function_data values in
  length out = length values /\
  contracts 0 (scalar_basis 0 shape_values shape_function_data)
    dof_values out.
Proof.
  exact (do_function_derivatives_Scalar_contracts 0 dof_values shape_values
           shape_function_data values).
Qed.

Lemma do_function_laplacians_Scalar_contracts
    (dof_values : list Number) (shape_hessians : Table (Tensor 2))
    (shape_function_data : list FEValuesViews.ScalarShapeFunctionData)
    (laplacians : list Number) :
  let out :=
    Kernels.do_function_laplacians_Scalar spacedim dof_values shape_hessians
      shape_function_data laplacians in
  length out = length laplacians /\
  contracts 0
    (scalar_basis 0
       (fun r q => Kernels.trace spacedim (shape_hessians r q))
       shape_function_data)
    dof_values out.
Proof.
  exact (do_function_derivatives_Scalar_contracts 0 dof_values
           (fun r q => Kernels.trace spacedim (shape_hessians r q))
           shape_function_data laplacians).
Qed.

Lemma trace_compat (s t : Tensor 2) :
  tensor_eq 2 s t -> Kernels.trace spacedim s = Kernels.trace spacedim t.
Proof.
  intros H. unfold Kernels.trace.
  induction spacedim as [|n IH]; [reflexivity|].
  rewrite seq_S, !foldl_app. cbn [foldl]. rewrite IH. f_equal. apply H.
Qed.

Lemma trace_zero : Kernels.trace spacedim (tensor_zero 2) = 0.
Proof.
  unfold Kernels.trace. induction spacedim as [|n IH]; [reflexivity|].
  rewrite seq_S, foldl_app. cbn [foldl]. rewrite IH. simpl. ring.
Qed.

Lemma trace_add (s t : Tensor 2) :
  Kernels.trace spacedim (tensor_add 2 s t)
  = Kernels.trace spacedim s + Kernels.trace spacedim t.
Proof.
  unfold Kernels.trace. induction spacedim as [|n IH]; [simpl; ring|].
  rewrite seq_S, !foldl_app. cbn [foldl]. rewrite IH. simpl. ring.
Qed.

Lemma trace_scale (x : Number) (t : Tensor 2) :
  Kernels.trace spacedim (tensor_scale 2 x t)
  = x * Kernels.trace spacedim t.
Proof.
  unfold Kernels.trace. induction spacedim as [|n IH]; [simpl; ring|].
  rewrite seq_S, !foldl_app. cbn [foldl]. rewrite IH. simpl. ring.
Qed.

Lemma trace_sum (n : nat) (f : nat -> Tensor 2) :
  Kernels.trace spacedim (tensor_sum 2 n f)
  = tensor_sum 0 n (fun i => Kernels.trace spacedim (f i)).
Proof.
  induction n as [|n IH]; simpl; [apply trace_zero|].
  change (Kernels.trace spacedim (tensor_add 2 (tensor_sum 2 n f) (f n))
          = tensor_sum 0 n (fun i => Kernels.trace spacedim (f i))
            + Kernels.trace spacedim (f n)).
  now rewrite trace_add, IH.
Qed.


Lemma do_function_derivatives_Scalar_linear (order : nat)
    (shape_derivatives : Table (Tensor order))
    (shape_function_data : list FEValuesViews.ScalarShapeFunctionData) :
  linear_kernel order
    (fun dof_values derivatives =>
       Kernels.do_function_derivatives_Scalar order dof_values
         shape_derivatives shape_function_data derivatives).
Proof.
  intros a b c1 c2 out Hlen.
  pose proof (fun c =>
                do_function_derivatives_Scalar_contracts order c
                  shape_derivatives shape_function_data out) as H.
  destruct (H (linear_combination a b c1 c2)) as [Hl Hc].
  destruct (H c1) as [Hl1 Hc1]. destruct (H c2) as [Hl2 Hc2].
  eapply contracts_linear; eauto; congruence.
Qed.

Lemma do_function_values_Scalar_linear (shape_values : Table Number)
    (shape_function_data : list FEValuesViews.ScalarShapeFunctionData) :
  linear_kernel 0
    (fun dof_values values =>
       Kernels.do_function_values_Scalar dof_values shape_values
         shape_function_data values).
Proof.
  exact (do_function_derivatives_Scalar_linear 0 shape_values
           shape_function_data).
Qed.

Lemma do_function_laplacians_Scalar_linear
    (shape_hessians : Table (Tensor 2))
    (shape_function_data : list FEValuesViews.ScalarShapeFunctionData) :
  linear_kernel 0
    (fun dof_values laplacians =>
       Kernels.do_function_laplacians_Scalar spacedim dof_values
         shape_hessians shape_function_data laplacians).
Proof.
  exact (do_function_derivatives_Scalar_linear 0
           (fun r q => Kernels.trace spacedim (shape_hessians r q))
           shape_function_data).
Qed.

End ScalarKernels.

(** ** The kernels of the views with sub-components *)

Section ViewKernels.
Context {num : NumberType} {laws : NumberLaws num}.
Variables dim spacedim : nat.
Variable symmetric_unrolled_to_component_indices : nat -> nat * nat.
Variable symmetric_component_to_unrolled_index : nat * nat -> nat.
Variable tensor_unrolled_to_component_indices : nat -> nat * nat.

Add Ring number_ring_views : number_ring.

Local Open Scope number_scope.

(** Kernels that add the scaled row of a table to one component of the
    output: component [position index] on the fast path, component
    [position d] for every flagged sub-component [d] below [K] on the
    general path. *)
Lemma component_kernel_linear (order K : nat) (position : nat -> nat)
    (table : Table (Tensor order))
    (shape_function_data : list FEValuesViews.ShapeFunctionData) :
  linear_kernel (S order)
    (fun dof_values out =>
       Kernels.accumulate dof_values shape_function_data
         (fun value snc index out =>
            for_each_q_point out
              (fun q_point v =>
                 tensor_add_at order (position index)
                   (tensor_scale order value (table (Z.to_nat snc) q_point))
                   v))
         (fun value s out =>
            foldl
              (fun out d =>
                 if FEValuesViews.flag s d then
                   for_each_q_point out
                     (fun q_point v =>
                        tensor_add_at order (position d)
                          (tensor_scale order value
                             (table (N.to_nat (FEValuesViews.row s d))
                                q_point)) v)
                 else out)
              out (seq 0 K))
         (fill (tensor_zero (S order)) out)).
Proof.
  apply (accumulate_linear (S order) _ _
           (fun snc index q =>
              unit_at order (position index) (table (Z.to_nat snc) q))
           (sub_component_sum (S order) K
              (fun s d q =>
                 unit_at order (position d)
                   (table (N.to_nat (FEValuesViews.row s d)) q)))).
  - intros value snc index out. apply adds_for_each_q_point.
    intros q v. apply tensor_add_at_unit.
  - intros value s out.
    apply (adds_sub_components (S order) K value s
             (fun s d q =>
                unit_at order (position d)
                  (table (N.to_nat (FEValuesViews.row s d)) q))
             (fun d out =>
                for_each_q_point out
                  (fun q_point v =>
                     tensor_add_at order (position d)
                       (tensor_scale order value
                          (table (N.to_nat (FEValuesViews.row s d)) q_point))
                       v))).
    intros d out0. apply adds_for_each_q_point.
    intros q v. apply tensor_add_at_unit.
Qed.

Lemma do_function_derivatives_Vector_linear (order : nat)
    (shape_derivatives : Table (Tensor order))
    (shape_function_data : list FEValuesViews.ShapeFunctionData) :
  linear_kernel (S order)
    (fun dof_values derivatives =>
       Kernels.do_function_derivatives_Vector spacedim order dof_values
         shape_derivatives shape_function_data derivatives).
Proof.
  exact (component_kernel_linear order spacedim (fun d => d)
           shape_derivatives shape_function_data).
Qed.

Lemma do_function_values_Vector_linear (shape_values : Table Number)
    (shape_function_data : list FEValuesViews.ShapeFunctionData) :
  linear_kernel 1
    (fun dof_values values =>
       Kernels.do_function_values_Vector spacedim dof_values shape_values
         shape_function_data values).
Proof.
  exact (component_kernel_linear 0 spacedim (fun d => d) shape_values
           shape_function_data).
Qed.

Lemma do_function_laplacians_Vector_linear
    (shape_hessians : Table (Tensor 2))
    (shape_function_data : list FEValuesViews.ShapeFunctionData) :
  linear_kernel 1
    (fun dof_values laplacians =>
       Kernels.do_function_laplacians_Vector spacedim dof_values
         shape_hessians shape_function_data laplacians).
Proof.
  exact (component_kernel_linear 0 spacedim (fun d => d)
           (fun r q => Kernels.trace spacedim (shape_hessians r q))
           shape_function_data).
Qed.

Lemma do_function_values_SymmetricTensor_linear
    (shape_values : Table Number)
    (shape_function_data : list FEValuesViews.ShapeFunctionData) :
  linear_kernel 1
    (fun dof_values values =>
       Kernels.do_function_values_SymmetricTensor spacedim
         symmetric_unrolled_to_component_indices
         symmetric_component_to_unrolled_index dof_values shape_values
         shape_function_data values).
Proof.
  exact (component_kernel_linear 0
           (FEValuesViews.SymmetricTensor_n_independent_components spacedim)
           (fun d =>
              symmetric_component_to_unrolled_index
                (symmetric_unrolled_to_component_indices d))
           shape_values shape_function_data).
Qed.

(** Kernels with a scalar output that add the scaled entry of a table:
    entry [index] of the row on the fast path, entry [d] for every
    flagged sub-component [d] on the general path. *)
Lemma scalar_output_kernel_linear (K : nat) (table : Table (Tensor 1))
    (shape_function_data : list FEValuesViews.ShapeFunctionData) :
  linear_kernel 0
    (fun dof_values out =>
       Kernels.accumulate dof_values shape_function_data
         (fun value snc index out =>
            for_each_q_point out
              (fun q_point v =>
                 v + value * table (Z.to_nat snc) q_point index))
         (fun value s out =>
            foldl
              (fun out d =>
                 if FEValuesViews.flag s d then
                   for_each_q_point out
                     (fun q_point v =>
                        v + value * table (N.to_nat (FEValuesViews.row s d))
                                      q_point d)
                 else out)
              out (seq 0 K))
         (fill 0 out)).
Proof.
  apply (accumulate_linear 0 _ _
           (fun snc index q => table (Z.to_nat snc) q index)
           (sub_component_sum 0 K
              (fun s d q => table (N.to_nat (FEValuesViews.row s d)) q d))).
  - intros value snc index out.
    apply (adds_for_each_q_point 0). intros q v. reflexivity.
  - intros value s out.
    apply (adds_sub_components 0 K value s
             (fun s d q => table (N.to_nat (FEValuesViews.row s d)) q d)
             (fun d out =>
                for_each_q_point out
                  (fun q_point v =>
                     v + value * table (N.to_nat (FEValuesViews.row s d))
                                   q_point d))).
    intros d out0. apply (adds_for_each_q_point 0). intros q v. reflexivity.
Qed.

Lemma do_function_divergences_Vector_linear
    (shape_gradients : Table (Tensor 1))
    (shape_function_data : list FEValuesViews.ShapeFunctionData) :
  linear_kernel 0
    (fun dof_values divergences =>
       Kernels.do_function_divergences_Vector spacedim dof_values
         shape_gradients shape_function_data divergences).
Proof.
  exact (scalar_output_kernel_linear spacedim shape_gradients
           shape_function_data).
Qed.

Lemma tensor_update_add_at_unit (rank : nat) (k j : nat) (value : Number)
    (x : Tensor rank) (t : Tensor (S (S rank))) :
  tensor_eq (S (S rank))
    (tensor_update_at k
       (tensor_add_at rank j (tensor_scale rank value x)) t)
    (tensor_add (S (S rank)) t
       (tensor_scale (S (S rank)) value
          (unit_at (S rank) k (unit_at rank j x)))).
Proof.
  intros a. unfold tensor_update_at at 1.
  change (tensor_eq (S rank)
            (if a =? k
             then tensor_add_at rank j (tensor_scale rank value x) (t a)
             else t a)
            (tensor_add (S rank) (t a)
               (tensor_scale (S rank) value
                  (unit_at (S rank) k (unit_at rank j x) a)))).
  unfold unit_at at 1.
  destruct (a =? k); [apply tensor_add_at_unit|].
  apply tensor_eq_sym.
  eapply tensor_eq_trans; [|apply tensor_add_zero_r].
  apply tensor_add_compat; [apply tensor_eq_refl|].
  apply (tensor_scale_zero_r (S rank)).
Qed.

Lemma do_function_values_Tensor_linear (shape_values : Table Number)
    (shape_function_data : list FEValuesViews.ShapeFunctionData) :
  linear_kernel 2
    (fun dof_values values =>
       Kernels.do_function_values_Tensor dim
         tensor_unrolled_to_component_indices dof_values shape_values
         shape_function_data values).
Proof.
  unfold Kernels.do_function_values_Tensor.
  apply (accumulate_linear 2 _ _
           (fun snc comp q =>
              unit_at 1 (fst (tensor_unrolled_to_component_indices comp))
                (unit_at 0 (snd (tensor_unrolled_to_component_indices comp))
                   (shape_values (Z.to_nat snc) q)))
           (sub_component_sum 2 (dim * dim)
              (fun s d q =>
                 unit_at 1 (fst (tensor_unrolled_to_component_indices d))
                   (unit_at 0 (snd (tensor_unrolled_to_component_indices d))
                      (shape_values (N.to_nat (FEValuesViews.row s d)) q))))).
  - intros value snc comp out. apply adds_for_each_q_point.
    intros q v. apply (tensor_update_add_at_unit 0).
  - intros value s out.
    apply (adds_sub_components 2 (dim * dim) value s
             (fun s d q =>
                unit_at 1 (fst (tensor_unrolled_to_component_indices d))
                  (unit_at 0 (snd (tensor_unrolled_to_component_indices d))
                     (shape_values (N.to_nat (FEValuesViews.row s d)) q)))
             (fun d out =>
                for_each_q_point out
                  (fun q_point v =>
                     tensor_update_at
                       (fst (tensor_unrolled_to_component_indices d))
                       (tensor_add_at 0
                          (snd (tensor_unrolled_to_component_indices d))
                          (value * shape_values
                                     (N.to_nat (FEValuesViews.row s d))
                                     q_point)) v))).
    intros d out0. apply adds_for_each_q_point.
    intros q v. apply (tensor_update_add_at_unit 0).
Qed.

Lemma symmetrize_compat (s t : Tensor 2) :
  tensor_eq 2 s t ->
  tensor_eq 1
    (Kernels.symmetrize symmetric_unrolled_to_component_indices s)
    (Kernels.symmetrize symmetric_unrolled_to_component_indices t).
Proof.
  intros H u. unfold Kernels.symmetrize.
  destruct (symmetric_unrolled_to_component_indices u) as [i j]. simpl.
  now rewrite (H i j), (H j i).
Qed.

Lemma symmetrize_scale (value : Number) (t : Tensor 2) :
  tensor_eq 1
    (Kernels.symmetrize symmetric_unrolled_to_component_indices
       (tensor_scale 2 value t))
    (tensor_scale 1 value
       (Kernels.symmetrize symmetric_unrolled_to_component_indices t)).
Proof.
  intros u. simpl. unfold Kernels.symmetrize.
  destruct (symmetric_unrolled_to_component_indices u) as [i j]. simpl.
  ring.
Qed.

(** The gradient assembled per quadrature point on the general path of
    the symmetric gradient is the coefficient times the gradient
    assembled from the rows of the table. *)
Lemma assembled_gradient_scale (K : nat) (value : Number)
    (s : FEValuesViews.ShapeFunctionData) (rows : nat -> Tensor 1) :
  tensor_eq 2
    (foldl
       (fun (grad : Tensor 2) d =>
          if FEValuesViews.flag s d
          then tensor_update_at d (fun _ => tensor_scale 1 value (rows d))
                 grad
          else grad)
       (tensor_zero 2) (seq 0 K))
    (tensor_scale 2 value
       (foldl
          (fun (grad : Tensor 2) d =>
             if FEValuesViews.flag s d
             then tensor_update_at d (fun _ => rows d) grad
             else grad)
          (tensor_zero 2) (seq 0 K))).
Proof.
  induction K as [|K IH].
  - simpl. intros i j. ring.
  - rewrite seq_S, !foldl_app. cbn [foldl]. change (0 + K)%nat with K.
    destruct (FEValuesViews.flag s K); [|exact IH].
    intros i. unfold tensor_update_at.
    change (tensor_eq 1
              (if i =? K then tensor_scale 1 value (rows K)
               else foldl
                      (fun (grad : Tensor 2) d =>
                         if FEValuesViews.flag s d
                         then tensor_update_at d
                                (fun _ => tensor_scale 1 value (rows d)) grad
                         else grad)
                      (tensor_zero 2) (seq 0 K) i)
              (tensor_scale 1 value
                 (if i =? K then rows K
                  else foldl
                         (fun (grad : Tensor 2) d =>
                            if FEValuesViews.flag s d
                            then tensor_update_at d (fun _ => rows d) grad
                            else grad)
                         (tensor_zero 2) (seq 0 K) i))).
    destruct (i =? K); [apply tensor_eq_refl|exact (IH i)].
Qed.

Lemma do_function_symmetric_gradients_Vector_linear
    (shape_gradients : Table (Tensor 1))
    (shape_function_data : list FEValuesViews.ShapeFunctionData) :
  linear_kernel 1
    (fun dof_values symmetric_gradients =>
       Kernels.do_function_symmetric_gradients_Vector spacedim
         symmetric_unrolled_to_component_indices dof_values shape_gradients
         shape_function_data symmetric_gradients).
Proof.
  unfold Kernels.do_function_symmetric_gradients_Vector.
  apply (accumulate_linear 1 _ _
           (fun snc comp q =>
              Kernels.symmetrize_single_row
                symmetric_unrolled_to_component_indices comp
                (shape_gradients (Z.to_nat snc) q))
           (fun s q =>
              Kernels.symmetrize symmetric_unrolled_to_component_indices
                (foldl
                   (fun (grad : Tensor 2) d =>
                      if FEValuesViews.flag s d
                      then tensor_update_at d
                             (fun _ =>
                                shape_gradients
                                  (N.to_nat (FEValuesViews.row s d)) q)
                             grad
                      else grad)
                   (tensor_zero 2) (seq 0 spacedim)))).
  - intros value snc comp out. apply adds_for_each_q_point.
    intros q v. apply tensor_eq_refl.
  - intros value s out. apply adds_for_each_q_point. intros q v.
    apply tensor_add_compat; [apply tensor_eq_refl|].
    eapply tensor_eq_trans; [|apply symmetrize_scale].
    apply symmetrize_compat.
    apply (assembled_gradient_scale spacedim value s
             (fun d => shape_gradients (N.to_nat (FEValuesViews.row s d)) q)).
Qed.

(** *** Kernels with an assertion *)

Lemma not_implemented_spec {T} (K : nat)
    (s : FEValuesViews.ShapeFunctionData) (unreached : nat -> T -> T)
    (out : T) :
  Kernels.not_implemented K s unreached out
  = if any_flag K s then Err ExcNotImplemented else Ok out.
Proof.
  unfold Kernels.not_implemented, any_flag.
  induction K as [|K IH]; [reflexivity|].
  rewrite for_loop_S, IH, seq_S, existsb_app. simpl.
  destruct (existsb (FEValuesViews.flag s) (seq 0 K)); simpl; [reflexivity|].
  now destruct (FEValuesViews.flag s K).
Qed.

Lemma not_implemented_path (rank : nat) (K : nat) (value : Number)
    (s : FEValuesViews.ShapeFunctionData)
    (unreached : nat -> list (Tensor rank) -> list (Tensor rank))
    (out : list (Tensor rank)) :
  if any_flag K s
  then is_ok (Kernels.not_implemented K s unreached out) = false
  else exists out', Kernels.not_implemented K s unreached out = Ok out' /\
         adds rank (fun q => tensor_scale rank value (tensor_zero rank))
           out out'.
Proof.
  rewrite not_implemented_spec. destruct (any_flag K s); [reflexivity|].
  exists out. split; [reflexivity|].
  apply adds_skip. intros q. apply tensor_scale_zero_r.
Qed.

(** The fast path of the divergence of a symmetric tensor adds the
    scaled gradient entries to rows [ii] and [jj]. *)
Lemma symmetric_divergence_single_adds
    (shape_gradients : Table (Tensor 1)) (value : Number) (snc : Z)
    (comp : nat) (out : list (Tensor 1)) :
  adds 1
    (fun q =>
       tensor_scale 1 value
         (let ii := fst (symmetric_unrolled_to_component_indices comp) in
          let jj := snd (symmetric_unrolled_to_component_indices comp) in
          let gradient := shape_gradients (Z.to_nat snc) q in
          tensor_add 1 (unit_at 0 ii (gradient jj))
            (if negb (ii =? jj) then unit_at 0 jj (gradient ii)
             else tensor_zero 1)))
    out
    (Kernels.symmetric_divergence_single
       symmetric_unrolled_to_component_indices shape_gradients value snc
       comp out).
Proof.
  unfold Kernels.symmetric_divergence_single.
  apply adds_for_each_q_point. intros q v a.
  unfold tensor_add_at, tensor_update_at, unit_at. simpl.
  destruct (fst (symmetric_unrolled_to_component_indices comp)
            =? snd (symmetric_unrolled_to_component_indices comp)); simpl;
    repeat match goal with
      | |- context [if ?x =? ?y then _ else _] => destruct (x =? y)
      end;
    first [ring | symmetry; ring].
Qed.

Lemma do_function_divergences_SymmetricTensor_linear
    (shape_gradients : Table (Tensor 1))
    (shape_function_data : list FEValuesViews.ShapeFunctionData) :
  linear_where_defined 1
    (fun dof_values divergences =>
       Kernels.do_function_divergences_SymmetricTensor spacedim
         symmetric_unrolled_to_component_indices
         symmetric_component_to_unrolled_index dof_values shape_gradients
         shape_function_data divergences).
Proof.
  unfold Kernels.do_function_divergences_SymmetricTensor.
  apply (accumulate_checked_linear 1 _ _
           (fun snc comp q =>
              let ii := fst (symmetric_unrolled_to_component_indices comp) in
              let jj := snd (symmetric_unrolled_to_component_indices comp) in
              let gradient := shape_gradients (Z.to_nat snc) q in
              tensor_add 1 (unit_at 0 ii (gradient jj))
                (if negb (ii =? jj) then unit_at 0 jj (gradient ii)
                 else tensor_zero 1))
           (fun _ _ => tensor_zero 1)
           (fun _ _ => false)
           (any_flag
              (FEValuesViews.SymmetricTensor_n_independent_components
                 spacedim))).
  - intros value snc comp out. eexists. split; [reflexivity|].
    apply symmetric_divergence_single_adds.
  - intros value s out. apply not_implemented_path.
Qed.

Lemma do_function_divergences_Tensor_linear
    (shape_gradients : Table (Tensor 1))
    (shape_function_data : list FEValuesViews.ShapeFunctionData) :
  linear_where_defined 1
    (fun dof_values divergences =>
       Kernels.do_function_divergences_Tensor dim
         tensor_unrolled_to_component_indices dof_values shape_gradients
         shape_function_data divergences).
Proof.
  unfold Kernels.do_function_divergences_Tensor.
  apply (accumulate_checked_linear 1 _ _
           (fun snc comp q =>
              unit_at 0 (fst (tensor_unrolled_to_component_indices comp))
                (shape_gradients (Z.to_nat snc) q
                   (snd (tensor_unrolled_to_component_indices comp))))
           (fun _ _ => tensor_zero 1)
           (fun _ _ => false)
           (any_flag (dim * dim))).
  - intros value snc comp out. eexists. split; [reflexivity|].
    apply adds_for_each_q_point. intros q v.
    apply (tensor_add_at_unit 0).
  - intros value s out. apply not_implemented_path.
Qed.

Lemma do_function_gradients_Tensor_linear
    (shape_gradients : Table (Tensor 1))
    (shape_function_data : list FEValuesViews.ShapeFunctionData) :
  linear_where_defined 3
    (fun dof_values gradients =>
       Kernels.do_function_gradients_Tensor dim
         tensor_unrolled_to_component_indices dof_values shape_gradients
         shape_function_data gradients).
Proof.
  unfold Kernels.do_function_gradients_Tensor.
  apply (accumulate_checked_linear 3 _ _
           (fun snc comp q =>
              unit_at 2 (fst (tensor_unrolled_to_component_indices comp))
                (unit_at 1 (snd (tensor_unrolled_to_component_indices comp))
                   (shape_gradients (Z.to_nat snc) q)))
           (fun _ _ => tensor_zero 3)
           (fun _ _ => false)
           (any_flag (dim * dim))).
  - intros value snc comp out. eexists. split; [reflexivity|].
    apply adds_for_each_q_point. intros q v.
    apply (tensor_update_add_at_unit 1).
  - intros value s out. apply not_implemented_path.
Qed.

(** *** The curl *)

Lemma adds_if (rank : nat) (b : bool) (value : Number)
    (psi : nat -> Tensor rank) (out out' : list (Tensor rank)) :
  adds rank (fun q => tensor_scale rank value (psi q)) out out' ->
  adds rank
    (fun q =>
       tensor_scale rank value (if b then psi q else tensor_zero rank))
    out (if b then out' else out).
Proof.
  intros H. destruct b; [exact H|].
  apply adds_skip. intros q. apply tensor_scale_zero_r.
Qed.

Lemma adds_trans_scale (rank : nat) (value : Number)
    (psi psi' : nat -> Tensor rank) (out out' out'' : list (Tensor rank)) :
  adds rank (fun q => tensor_scale rank value (psi q)) out out' ->
  adds rank (fun q => tensor_scale rank value (psi' q)) out' out'' ->
  adds rank
    (fun q => tensor_scale rank value (tensor_add rank (psi q) (psi' q)))
    out out''.
Proof.
  intros H H'. eapply adds_ext; [|exact (adds_trans rank _ _ _ _ _ H H')].
  intros q. apply tensor_eq_sym, tensor_scale_add_r.
Qed.

Lemma curl_point_2d (value : Number) (gradient v : Tensor 1) :
  tensor_eq 1 (Kernels.curl_sub value gradient 0 1 v)
    (tensor_add 1 v (tensor_scale 1 value (curl_basis_2d gradient 0))) /\
  tensor_eq 1 (Kernels.curl_add value gradient 0 0 v)
    (tensor_add 1 v (tensor_scale 1 value (curl_basis_2d gradient 1))).
Proof.
  split; intros a;
    unfold Kernels.curl_sub, Kernels.curl_add, curl_basis_2d,
      tensor_update_at, unit_at; simpl;
    destruct (a =? 0); first [ring | symmetry; ring].
Qed.

Lemma curl_point_3d (value : Number) (gradient v : Tensor 1) (d : nat) :
  tensor_eq 1
    (match d with
     | 0 => Kernels.curl_sub value gradient 2 1
              (Kernels.curl_add value gradient 1 2 v)
     | 1 => Kernels.curl_add value gradient 2 0
              (Kernels.curl_sub value gradient 0 2 v)
     | _ => Kernels.curl_sub value gradient 1 0
              (Kernels.curl_add value gradient 0 1 v)
     end)
    (tensor_add 1 v (tensor_scale 1 value (curl_basis_3d gradient d))).
Proof.
  intros a. destruct d as [|[|d]];
    unfold Kernels.curl_sub, Kernels.curl_add, curl_basis_3d,
      tensor_update_at, unit_at; simpl;
    repeat match goal with
      | |- context [if ?x =? ?y then _ else _] => destruct (x =? y)
      end;
    first [ring | symmetry; ring].
Qed.

Lemma curl_3d_adds (shape_gradients : Table (Tensor 1)) (r : nat)
    (value : Number) (d : nat) (out : list (Tensor 1)) :
  adds 1
    (fun q => tensor_scale 1 value (curl_basis_3d (shape_gradients r q) d))
    out (Kernels.curl_3d shape_gradients r value d out).
Proof.
  unfold Kernels.curl_3d. apply adds_for_each_q_point. intros q v.
  apply curl_point_3d.
Qed.

Lemma adds_scale_zero_r (rank : nat) (value : Number)
    (psi : nat -> Tensor rank) (out out' : list (Tensor rank)) :
  adds rank (fun q => tensor_scale rank value (psi q)) out out' ->
  adds rank
    (fun q =>
       tensor_scale rank value (tensor_add rank (psi q) (tensor_zero rank)))
    out out'.
Proof.
  apply adds_ext. intros q. apply tensor_scale_compat, tensor_eq_sym.
  apply tensor_add_zero_r.
Qed.

Lemma curl_2d_single_path (shape_gradients : Table (Tensor 1))
    (value : Number) (snc : Z) (index : nat) (out : list (Tensor 1)) :
  if negb (0 <=? snc)%Z
  then is_ok (Kernels.curl_2d_single shape_gradients value snc index out)
       = false
  else exists out',
      Kernels.curl_2d_single shape_gradients value snc index out = Ok out' /\
      adds 1
        (fun q =>
           tensor_scale 1 value
             (curl_basis_2d (shape_gradients (Z.to_nat snc) q) index))
        out out'.
Proof.
  unfold Kernels.curl_2d_single, Assert.
  destruct (0 <=? snc)%Z; [|reflexivity]. simpl.
  unfold curl_basis_2d.
  destruct (index =? 0) eqn:E; eexists; (split; [reflexivity|]);
    apply (adds_for_each_q_point 1); intros q v;
    [apply (proj1 (curl_point_2d _ _ _))|apply (proj2 (curl_point_2d _ _ _))].
Qed.

Lemma curl_2d_multiple_path (shape_gradients : Table (Tensor 1))
    (value : Number) (s : FEValuesViews.ShapeFunctionData)
    (out : list (Tensor 1)) :
  exists out',
    Kernels.curl_2d_multiple shape_gradients value s out = Ok out' /\
    adds 1
      (fun q =>
         tensor_scale 1 value
           (curl_multiple curl_basis_2d 2 shape_gradients s q))
      out out'.
Proof.
  unfold Kernels.curl_2d_multiple. eexists. split; [reflexivity|].
  unfold curl_multiple. cbn [foldr seq].
  eapply (adds_trans_scale 1 value).
  - apply (adds_if 1 (FEValuesViews.flag s 0) value
             (fun q =>
                curl_basis_2d
                  (shape_gradients (N.to_nat (FEValuesViews.row s 0)) q) 0)).
    apply (adds_for_each_q_point 1). intros q v.
    apply (proj1 (curl_point_2d _ _ _)).
  - apply (adds_scale_zero_r 1 value
             (fun q =>
                if FEValuesViews.flag s 1
                then curl_basis_2d
                       (shape_gradients (N.to_nat (FEValuesViews.row s 1)) q)
                       1
                else tensor_zero 1)).
    apply (adds_if 1 (FEValuesViews.flag s 1) value
             (fun q =>
                curl_basis_2d
                  (shape_gradients (N.to_nat (FEValuesViews.row s 1)) q) 1)).
    apply (adds_for_each_q_point 1). intros q v.
    apply (proj2 (curl_point_2d _ _ _)).
Qed.

Lemma curl_3d_single_path (shape_gradients : Table (Tensor 1))
    (value : Number) (snc : Z) (index : nat) (out : list (Tensor 1)) :
  if negb (index <? 3)
  then is_ok (Kernels.curl_3d_single shape_gradients value snc index out)
       = false
  else exists out',
      Kernels.curl_3d_single shape_gradients value snc index out = Ok out' /\
      adds 1
        (fun q =>
           tensor_scale 1 value
             (curl_basis_3d (shape_gradients (Z.to_nat snc) q) index))
        out out'.
Proof.
  destruct index as [|[|[|index]]]; simpl; try reflexivity;
    eexists; (split; [reflexivity|]); apply curl_3d_adds.
Qed.

Lemma curl_3d_multiple_path (shape_gradients : Table (Tensor 1))
    (value : Number) (s : FEValuesViews.ShapeFunctionData)
    (out : list (Tensor 1)) :
  exists out',
    Kernels.curl_3d_multiple shape_gradients value s out = Ok out' /\
    adds 1
      (fun q =>
         tensor_scale 1 value
           (curl_multiple curl_basis_3d 3 shape_gradients s q))
      out out'.
Proof.
  unfold Kernels.curl_3d_multiple. eexists. split; [reflexivity|].
  unfold curl_multiple. cbn [foldr seq].
  eapply (adds_trans_scale 1 value).
  - apply (adds_if 1 (FEValuesViews.flag s 0) value
             (fun q =>
                curl_basis_3d
                  (shape_gradients (N.to_nat (FEValuesViews.row s 0)) q) 0)).
    apply curl_3d_adds.
  - eapply (adds_trans_scale 1 value).
    + apply (adds_if 1 (FEValuesViews.flag s 1) value
               (fun q =>
                  curl_basis_3d
                    (shape_gradients (N.to_nat (FEValuesViews.row s 1)) q) 1)).
      apply curl_3d_adds.
    + apply (adds_scale_zero_r 1 value
               (fun q =>
                  if FEValuesViews.flag s 2
                  then curl_basis_3d
                         (shape_gradients
                            (N.to_nat (FEValuesViews.row s 2)) q) 2
                  else tensor_zero 1)).
      apply (adds_if 1 (FEValuesViews.flag s 2) value
               (fun q =>
                  curl_basis_3d
                    (shape_gradients (N.to_nat (FEValuesViews.row s 2)) q) 2)).
      apply curl_3d_adds.
Qed.

Lemma zero_kernel_linear (rank : nat) :
  linear_where_defined rank
    (fun (_ : list Number) out => Ok (fill (tensor_zero rank) out)).
Proof.
  intros a b c1 c2 out v1 v2 _ [= <-] [= <-]. eexists.
  split; [reflexivity|]. split; [reflexivity|]. split; [reflexivity|].
  intros q w w1 w2 Hw Hw1 Hw2.
  apply lookup_fill in Hw, Hw1, Hw2. subst.
  apply tensor_eq_sym.
  eapply tensor_eq_trans;
    [apply tensor_add_compat; apply tensor_scale_zero_r|].
  apply tensor_add_zero_r.
Qed.

Lemma do_function_curls_Vector_linear
    (shape_gradients : Table (Tensor 1))
    (shape_function_data : list FEValuesViews.ShapeFunctionData) :
  linear_where_defined 1
    (fun dof_values curls =>
       Kernels.do_function_curls_Vector spacedim dof_values shape_gradients
         shape_function_data curls).
Proof.
  unfold Kernels.do_function_curls_Vector.
  destruct spacedim as [|[|[|[|n]]]].
  - apply zero_kernel_linear.
  - intros a b c1 c2 out v1 v2 _ H. discriminate H.
  - apply (accumulate_checked_linear 1 _ _
             (fun snc index q =>
                curl_basis_2d (shape_gradients (Z.to_nat snc) q) index)
             (curl_multiple curl_basis_2d 2 shape_gradients)
             (fun snc _ => negb (0 <=? snc)%Z) (fun _ => false)).
    + apply curl_2d_single_path.
    + apply curl_2d_multiple_path.
  - apply (accumulate_checked_linear 1 _ _
             (fun snc index q =>
                curl_basis_3d (shape_gradients (Z.to_nat snc) q) index)
             (curl_multiple curl_basis_3d 3 shape_gradients)
             (fun _ index => negb (index <? 3)) (fun _ => false)).
    + apply curl_3d_single_path.
    + apply curl_3d_multiple_path.
  - apply zero_kernel_linear.
Qed.

(** C8. In one space dimension the curl kernel raises for every
    coefficient array, every table and every shape function data, and
    returns no value. *)
Theorem curl_1d_raises (dof_values : list Number)
    (shape_gradients : Table (Tensor 1))
    (shape_function_data : list FEValuesViews.ShapeFunctionData)
    (curls : list (Tensor 1)) :
  Kernels.do_function_curls_Vector 1 dof_values shape_gradients
    shape_function_data curls = Err ExcMessage /\
  forall computed,
    Kernels.do_function_curls_Vector 1 dof_values shape_gradients
      shape_function_data curls <> Ok computed.
Proof. split; [reflexivity|]. intros computed H. discriminate H. Qed.

Lemma tensor_sum_component (n : nat) (f : nat -> Tensor 1) (k : nat) :
  tensor_sum 1 n f k = tensor_sum 0 n (fun i => f i k).
Proof. induction n as [|n IH]; simpl; [reflexivity|]. now rewrite IH. Qed.

Lemma flags_search (K : nat) (s : FEValuesViews.ShapeFunctionData) :
  (forall d, d < K -> FEValuesViews.flag s d = false) \/
  (exists d, d < K /\ FEValuesViews.flag s d = true).
Proof.
  induction K as [|K [IH|(d & Hd & Ht)]].
  - left. intros d Hd. lia.
  - destruct (FEValuesViews.flag s K) eqn:E.
    + right. exists K. split; [lia|exact E].
    + left. intros d Hd. destruct (decide (d = K)) as [->|Hne];
        [exact E|apply IH; lia].
  - right. exists d. split; [lia|exact Ht].
Qed.

(** A consistent classifier that is neither -2 nor -1 is the row of the
    only flagged sub-component. *)
Lemma classifier_consistent_single (K : nat)
    (s : FEValuesViews.ShapeFunctionData) :
  classifier_consistent K s ->
  FEValuesViews.single_nonzero_component s <> (-2)%Z ->
  FEValuesViews.single_nonzero_component s <> (-1)%Z ->
  exists d, d < K /\ FEValuesViews.flag s d = true /\
    (forall d', d' < K -> FEValuesViews.flag s d' = true -> d' = d) /\
    FEValuesViews.single_nonzero_component s
    = Z.of_N (FEValuesViews.row s d) /\
    FEValuesViews.single_nonzero_component_index s = d.
Proof.
  intros (H2 & H1 & Hsingle) Hn2 Hn1.
  destruct (flags_search K s) as [Hall|(d & Hd & Ht)].
  { contradiction Hn2. now apply H2. }
  assert (Huniq : forall d', d' < K -> FEValuesViews.flag s d' = true ->
                    d' = d).
  { intros d' Hd' Ht'.
    destruct (Nat.lt_trichotomy d' d) as [Hlt|[Heq|Hlt]]; [|exact Heq|];
      contradiction Hn1; apply H1;
      [exists d', d|exists d, d']; auto. }
  destruct (Hsingle d Hd Ht Huniq) as [Hsnc Hidx].
  exists d. auto.
Qed.


(** *** The unimplemented path of the tensor divergences *)

Lemma any_flag_true (K : nat) (s : FEValuesViews.ShapeFunctionData) (d : nat) :
  d < K -> FEValuesViews.flag s d = true -> any_flag K s = true.
Proof.
  intros Hd Ht. unfold any_flag. apply existsb_exists. exists d.
  split; [apply in_seq; lia|exact Ht].
Qed.

Lemma not_implemented_raises {T} (K : nat)
    (single : Number -> Z -> nat -> T -> result T)
    (unreached : Number -> FEValuesViews.ShapeFunctionData -> nat -> T -> T)
    (dof_values : list Number)
    (shape_function_data : list FEValuesViews.ShapeFunctionData)
    (out : T) (i : nat) :
  (forall value snc index out e,
     single value snc index out = Err e -> e = ExcNotImplemented) ->
  i < length dof_values ->
  FEValuesViews.single_nonzero_component (shape_function_data !!! i)
  = (-1)%Z ->
  any_flag K (shape_function_data !!! i) = true ->
  CheckForZero (dof_values !!! i) = false ->
  Kernels.accumulate_checked dof_values shape_function_data single
    (fun value s out =>
       Kernels.not_implemented K s (unreached value s) out) out
  = Err ExcNotImplemented.
Proof.
  intros Hsingle Hi Hsnc Hflag Hzero.
  destruct (Kernels.accumulate_checked dof_values shape_function_data single
              (fun value s out =>
       Kernels.not_implemented K s (unreached value s) out) out)
    as [out'|e] eqn:E.
  - assert (Hno : is_ok
              (Kernels.accumulate_checked dof_values shape_function_data
                 single (fun value s out =>
       Kernels.not_implemented K s (unreached value s) out) out)
            = false).
    { unfold Kernels.accumulate_checked. apply (for_loop_Err _ i); [exact Hi|].
      intros out0. rewrite Hsnc, Hzero. simpl.
      now rewrite not_implemented_spec, Hflag. }
    rewrite E in Hno. discriminate.
  - f_equal. unfold Kernels.accumulate_checked in E.
    apply (for_loop_exception (fun e => e = ExcNotImplemented)) in E;
      [exact E|].
    intros out0 k e0.
    destruct (FEValuesViews.single_nonzero_component
                (shape_function_data !!! k) =? -2)%Z; [discriminate|].
    destruct (CheckForZero (dof_values !!! k)); [discriminate|].
    destruct (negb _); [apply Hsingle|].
    rewrite not_implemented_spec.
    destruct (any_flag K (shape_function_data !!! k)); congruence.
Qed.

Lemma for_loop_ext {S} (n : nat) (f g : S -> nat -> result S) (s : S) :
  (forall s k, k < n -> f s k = g s k) ->
  for_loop n f s = for_loop n g s.
Proof.
  intros H. induction n as [|n IH]; [reflexivity|].
  rewrite !for_loop_S, IH by (intros; apply H; lia).
  destruct (for_loop n g s); simpl; [apply H; lia|reflexivity].
Qed.

(** The frame with assertions, run on the first [k + 1] shape
    functions, runs on the first [k] and then handles shape function
    [k]. *)
Lemma accumulate_checked_step {T} (dof_values : list Number)
    (shape_function_data : list FEValuesViews.ShapeFunctionData)
    (single : Number -> Z -> nat -> T -> result T)
    (multiple : Number -> FEValuesViews.ShapeFunctionData -> T -> result T)
    (out : T) (k : nat) :
  k < length dof_values ->
  Kernels.accumulate_checked (take (S k) dof_values) shape_function_data
    single multiple out
  = bind
      (Kernels.accumulate_checked (take k dof_values) shape_function_data
         single multiple out)
      (fun out =>
         let s := shape_function_data !!! k in
         let snc := FEValuesViews.single_nonzero_component s in
         if (snc =? -2)%Z then Ok out
         else
           let value := dof_values !!! k in
           if CheckForZero value then Ok out
           else if negb (snc =? -1)%Z
           then single value snc
                  (FEValuesViews.single_nonzero_component_index s) out
           else multiple value s out).
Proof.
  intros Hk. unfold Kernels.accumulate_checked.
  rewrite !length_take, !Nat.min_l by lia.
  rewrite for_loop_S. cbv zeta.
  rewrite (lookup_total_take_lt dof_values (S k) k) by lia.
  f_equal. apply for_loop_ext. intros out0 i Hi.
  now rewrite !lookup_total_take_lt by lia.
Qed.


End ViewKernels.

(** ** Linearity of the kernels *)

#[global] Instance rational_number_laws : NumberLaws rational_number.
Proof.
  split.
  - exact Qcrt.
  - apply Qc_is_canon. reflexivity.
  - intros x H. apply Qc_is_canon. now apply Qeq_bool_eq.
Defined.

Section Linearity.
Context {num : NumberType} {laws : NumberLaws num}.
Variables dim spacedim : nat.
Variable symmetric_unrolled_to_component_indices : nat -> nat * nat.
Variable symmetric_component_to_unrolled_index : nat * nat -> nat.
Variable tensor_unrolled_to_component_indices : nat -> nat * nat.

Add Ring number_ring_linearity : number_ring.

Local Open Scope number_scope.

Lemma linear_combination_replicate (a b x y : Number) (n : nat) :
  linear_combination a b (replicate n x) (replicate n y)
  = replicate n (a * x + b * y).
Proof.
  unfold linear_combination. induction n as [|n IH]; simpl; [reflexivity|].
  now rewrite IH.
Qed.

(** A linear kernel maps the all-zero coefficient array to the additive
    identity at every quadrature point. *)
Lemma linear_kernel_zero (rank : nat)
    (kernel : list Number -> list (Tensor rank) -> list (Tensor rank)) :
  linear_kernel rank kernel ->
  forall n out q w,
    kernel (replicate n 0) out !! q = Some w ->
    tensor_eq rank w (tensor_zero rank).
Proof.
  intros Hlin n out q w Hw.
  destruct (Hlin 0 0 (replicate n 0) (replicate n 0) out eq_refl)
    as (_ & _ & H).
  rewrite linear_combination_replicate in H.
  replace (0 * 0 + 0 * 0) with 0 in H by ring.
  eapply tensor_eq_trans; [exact (H q w w w Hw Hw Hw)|].
  eapply tensor_eq_trans;
    [apply tensor_add_compat; apply tensor_scale_zero_l|].
  apply tensor_add_zero_r.
Qed.

Lemma linear_where_defined_for (rank : nat)
    (shape_function_data : list FEValuesViews.ShapeFunctionData)
    (kernel : list Number -> list (Tensor rank)
              -> result (list (Tensor rank))) :
  linear_where_defined rank kernel ->
  (forall c out, length c = length shape_function_data ->
     exists v, kernel c out = Ok v) ->
  linear_for rank shape_function_data kernel.
Proof.
  intros Hlinear Hreturns a b c1 c2 out H1 H2.
  destruct (Hreturns c1 out H1) as [v1 E1].
  destruct (Hreturns c2 out H2) as [v2 E2].
  destruct (Hlinear a b c1 c2 out v1 v2 ltac:(congruence) E1 E2)
    as (v & Ev & Hv).
  exists v, v1, v2. auto.
Qed.

(** The frame with assertions returns when no shape function takes a
    path that ends in an assertion. *)
Lemma accumulate_checked_returns (rank : nat)
    (single : Number -> Z -> nat -> list (Tensor rank)
              -> result (list (Tensor rank)))
    (multiple : Number -> FEValuesViews.ShapeFunctionData
                -> list (Tensor rank) -> result (list (Tensor rank)))
    (phi_single : Z -> nat -> nat -> Tensor rank)
    (phi_multiple : FEValuesViews.ShapeFunctionData -> nat -> Tensor rank)
    (fail_single : Z -> nat -> bool)
    (fail_multiple : FEValuesViews.ShapeFunctionData -> bool) :
  (forall value snc index out,
     if fail_single snc index
     then is_ok (single value snc index out) = false
     else exists out', single value snc index out = Ok out' /\
            adds rank
              (fun q => tensor_scale rank value (phi_single snc index q))
              out out') ->
  (forall value s out,
     if fail_multiple s
     then is_ok (multiple value s out) = false
     else exists out', multiple value s out = Ok out' /\
            adds rank (fun q => tensor_scale rank value (phi_multiple s q))
              out out') ->
  forall dof_values shape_function_data out,
    (forall i, i < length dof_values ->
       structural_failure fail_single fail_multiple
         (shape_function_data !!! i) = false) ->
    exists out',
      Kernels.accumulate_checked dof_values shape_function_data single
        multiple out = Ok out'.
Proof.
  intros HS HM dof_values shape_function_data out Hno.
  destruct (accumulate_checked_spec rank single multiple phi_single
              phi_multiple fail_single fail_multiple HS HM dof_values
              shape_function_data out) as [_ Hok].
  destruct Hok as (out' & Hout' & _).
  { intros i Hi. unfold raises. now rewrite (Hno i Hi). }
  now exists out'.
Qed.

Lemma Forall_lookup_total_lt {A} `{Inhabited A} (P : A -> Prop)
    (l : list A) (i : nat) :
  Forall P l -> i < length l -> P (l !!! i).
Proof.
  intros Hall Hi. destruct (lookup_lt_is_Some_2 l i Hi) as [x Hx].
  rewrite (list_lookup_total_correct _ _ _ Hx).
  exact (proj1 (Forall_lookup P l) Hall i x Hx).
Qed.

(** With consistent classifiers the curl returns in every space
    dimension but one. *)
Lemma do_function_curls_Vector_returns
    (shape_gradients : Table (Tensor 1))
    (shape_function_data : list FEValuesViews.ShapeFunctionData)
    (dof_values : list Number) (curls : list (Tensor 1)) :
  spacedim <> 1%nat ->
  (forall i, (i < length dof_values)%nat ->
     classifier_consistent spacedim (shape_function_data !!! i)) ->
  exists v,
    Kernels.do_function_curls_Vector spacedim dof_values shape_gradients
      shape_function_data curls = Ok v.
Proof.
  intros Hdim Hcons. unfold Kernels.do_function_curls_Vector.
  destruct spacedim as [|[|[|[|n]]]]; [eauto|contradiction| | |eauto].
  - apply (accumulate_checked_returns 1 _ _
             (fun snc index q =>
                curl_basis_2d (shape_gradients (Z.to_nat snc) q) index)
             (curl_multiple curl_basis_2d 2 shape_gradients)
             (fun snc _ => negb (0 <=? snc)%Z) (fun _ => false)
             (curl_2d_single_path shape_gradients)
             (curl_2d_multiple_path shape_gradients)).
    intros i Hi. unfold structural_failure.
    destruct (FEValuesViews.single_nonzero_component
                (shape_function_data !!! i) =? -2)%Z eqn:E2; [reflexivity|].
    destruct (FEValuesViews.single_nonzero_component
                (shape_function_data !!! i) =? -1)%Z eqn:E1; [reflexivity|].
    apply Z.eqb_neq in E2, E1. simpl.
    destruct (classifier_consistent_single 2 _ (Hcons i Hi) E2 E1)
      as (d & _ & _ & _ & Hsnc & _).
    rewrite Hsnc. apply Bool.negb_false_iff, Z.leb_le. lia.
  - apply (accumulate_checked_returns 1 _ _
             (fun snc index q =>
                curl_basis_3d (shape_gradients (Z.to_nat snc) q) index)
             (curl_multiple curl_basis_3d 3 shape_gradients)
             (fun _ index => negb (index <? 3)%nat) (fun _ => false)
             (curl_3d_single_path shape_gradients)
             (curl_3d_multiple_path shape_gradients)).
    intros i Hi. unfold structural_failure.
    destruct (FEValuesViews.single_nonzero_component
                (shape_function_data !!! i) =? -2)%Z eqn:E2; [reflexivity|].
    destruct (FEValuesViews.single_nonzero_component
                (shape_function_data !!! i) =? -1)%Z eqn:E1; [reflexivity|].
    apply Z.eqb_neq in E2, E1. simpl.
    destruct (classifier_consistent_single 3 _ (Hcons i Hi) E2 E1)
      as (d & Hd & _ & _ & _ & Hidx).
    rewrite Hidx. apply Bool.negb_false_iff, Nat.ltb_lt. exact Hd.
Qed.

(** Without a shape function of classifier -1 no shape function takes
    the unimplemented path. *)
Lemma no_unimplemented_path (K : nat)
    (shape_function_data : list FEValuesViews.ShapeFunctionData)
    (n : nat) :
  (forall i, (i < n)%nat ->
     FEValuesViews.single_nonzero_component (shape_function_data !!! i)
     <> (-1)%Z) ->
  forall i, (i < n)%nat ->
    structural_failure (fun _ _ => false) (any_flag K)
      (shape_function_data !!! i) = false.
Proof.
  intros Hno i Hi. unfold structural_failure.
  destruct (_ =? -2)%Z; [reflexivity|].
  destruct (FEValuesViews.single_nonzero_component
              (shape_function_data !!! i) =? -1)%Z eqn:E; [|reflexivity].
  apply Z.eqb_eq in E. now contradiction (Hno i Hi).
Qed.

Lemma do_function_divergences_SymmetricTensor_returns
    (shape_gradients : Table (Tensor 1))
    (shape_function_data : list FEValuesViews.ShapeFunctionData)
    (dof_values : list Number) (divergences : list (Tensor 1)) :
  (forall i, (i < length dof_values)%nat ->
     FEValuesViews.single_nonzero_component (shape_function_data !!! i)
     <> (-1)%Z) ->
  exists v,
    Kernels.do_function_divergences_SymmetricTensor spacedim
      symmetric_unrolled_to_component_indices
      symmetric_component_to_unrolled_index dof_values shape_gradients
      shape_function_data divergences = Ok v.
Proof.
  intros Hno. unfold Kernels.do_function_divergences_SymmetricTensor.
  apply (accumulate_checked_returns 1 _ _
           (fun snc comp q =>
              let ii := fst (symmetric_unrolled_to_component_indices comp) in
              let jj := snd (symmetric_unrolled_to_component_indices comp) in
              let gradient := shape_gradients (Z.to_nat snc) q in
              tensor_add 1 (unit_at 0 ii (gradient jj))
                (if negb (ii =? jj)%nat then unit_at 0 jj (gradient ii)
                 else tensor_zero 1))
           (fun _ _ => tensor_zero 1)
           (fun _ _ => false)
           (any_flag
              (FEValuesViews.SymmetricTensor_n_independent_components
                 spacedim))).
  - intros value snc comp out. eexists. split; [reflexivity|].
    apply symmetric_divergence_single_adds.
  - intros value s out. apply not_implemented_path.
  - now apply no_unimplemented_path.
Qed.

Lemma do_function_divergences_Tensor_returns
    (shape_gradients : Table (Tensor 1))
    (shape_function_data : list FEValuesViews.ShapeFunctionData)
    (dof_values : list Number) (divergences : list (Tensor 1)) :
  (forall i, (i < length dof_values)%nat ->
     FEValuesViews.single_nonzero_component (shape_function_data !!! i)
     <> (-1)%Z) ->
  exists v,
    Kernels.do_function_divergences_Tensor dim
      tensor_unrolled_to_component_indices dof_values shape_gradients
      shape_function_data divergences = Ok v.
Proof.
  intros Hno. unfold Kernels.do_function_divergences_Tensor.
  apply (accumulate_checked_returns 1 _ _
           (fun snc comp q =>
              unit_at 0 (fst (tensor_unrolled_to_component_indices comp))
                (shape_gradients (Z.to_nat snc) q
                   (snd (tensor_unrolled_to_component_indices comp))))
           (fun _ _ => tensor_zero 1)
           (fun _ _ => false)
           (any_flag (dim * dim))).
  - intros value snc comp out. eexists. split; [reflexivity|].
    apply adds_for_each_q_point. intros q v.
    apply (tensor_add_at_unit 0).
  - intros value s out. apply not_implemented_path.
  - now apply no_unimplemented_path.
Qed.

Lemma do_function_gradients_Tensor_returns
    (shape_gradients : Table (Tensor 1))
    (shape_function_data : list FEValuesViews.ShapeFunctionData)
    (dof_values : list Number) (gradients : list (Tensor 3)) :
  (forall i, (i < length dof_values)%nat ->
     FEValuesViews.single_nonzero_component (shape_function_data !!! i)
     <> (-1)%Z) ->
  exists v,
    Kernels.do_function_gradients_Tensor dim
      tensor_unrolled_to_component_indices dof_values shape_gradients
      shape_function_data gradients = Ok v.
Proof.
  intros Hno. unfold Kernels.do_function_gradients_Tensor.
  apply (accumulate_checked_returns 3 _ _
           (fun snc comp q =>
              unit_at 2 (fst (tensor_unrolled_to_component_indices comp))
                (unit_at 1 (snd (tensor_unrolled_to_component_indices comp))
                   (shape_gradients (Z.to_nat snc) q)))
           (fun _ _ => tensor_zero 3)
           (fun _ _ => false)
           (any_flag (dim * dim))).
  - intros value snc comp out. eexists. split; [reflexivity|].
    apply adds_for_each_q_point. intros q v.
    apply (tensor_update_add_at_unit 1).
  - intros value s out. apply not_implemented_path.
  - now apply no_unimplemented_path.
Qed.


End Linearity.

(** ** The statements on example data *)

Lemma example_tensor_fe_wf : fe_wf example_tensor_fe.
Proof.
  split.
  - intros [|i] Hi; simpl in *; [reflexivity|lia].
  - reflexivity.
Defined.

Lemma example_tensor_fe_primitive_wf : fe_primitive_wf example_tensor_fe.
Proof. intros i Hi H. discriminate H. Defined.

Lemma example_data_consistent (K : nat) (fe : FiniteElement)
    (v : result FEValuesViews.View) (i : nat) :
  fe_wf fe -> fe_primitive_wf fe ->
  (N.of_nat (n_dofs_per_cell fe * n_components fe) < 2 ^ 31)%N ->
  (N.of_nat K <= 2 ^ 32)%N ->
  v = FEValuesViews.make_view K fe 0 ->
  i < length (view_data v) ->
  classifier_consistent K (view_data v !!! i).
Proof.
  intros Hwf Hprim Hint HK -> Hi.
  destruct (FEValuesViews.make_view K fe 0) as [view|e] eqn:E;
    [|simpl in Hi; lia].
  destruct (make_view_consistent K fe 0 view Hwf Hprim Hint HK E)
    as (_ & _ & H).
  simpl in *. destruct (lookup_lt_is_Some_2 _ _ Hi) as [s Hs].
  rewrite (list_lookup_total_correct _ _ _ Hs).
  now destruct (H i s Hs) as (_ & _ & _ & _ & Hc).
Qed.

(** Two floating point numbers that the comparison tells apart are
    different. *)
Lemma float_neq (x y : float) :
  PrimFloat.eqb x y = false -> PrimFloat.eqb x x = true -> x <> y.
Proof. intros H1 H2 E. rewrite <- E in H1. congruence. Qed.








Lemma example_primitive_fe_wf : fe_wf example_primitive_fe.
Proof.
  split.
  - intros [|[|[|i]]] Hi; simpl in *; try reflexivity; lia.
  - reflexivity.
Defined.

Lemma example_primitive_fe_primitive_wf :
  fe_primitive_wf example_primitive_fe.
Proof.
  intros [|[|[|i]]] Hi; simpl in *; try reflexivity; lia.
Defined.


(** A surface mesh in three space dimensions: cell 12 is a translate of
    the bound cell 2 with the opposite direction flag. *)
Lemma check_cell_similarity_classification_witness :
  cell_similarity
    (check_cell_similarity 2 3 example_mesh 1 12
       (example_bound 2 CellSimilarity.none))
  = CellSimilarity.inverted_translation.
Proof.
  destruct (check_cell_similarity_classification 2 3 example_mesh 1 12
              (example_bound 2 CellSimilarity.none)) as (_ & _ & _ & H).
  destruct (H 2) as (_ & Hinverted & _);
    [lia|reflexivity|discriminate|].
  apply Hinverted. repeat split; [lia|discriminate].
Defined.

(** A stored [invalid_next_cell] is turned into [none] by the next
    classification. *)
Lemma invalid_next_cell_only_from_mapping_witness :
  cell_similarity
    (check_cell_similarity 2 3 example_mesh 1 12
       (example_bound 2 CellSimilarity.invalid_next_cell))
  = CellSimilarity.none.
Proof.
  destruct (invalid_next_cell_only_from_mapping 2 3 example_mesh
              (fun _ s => s) 1 12
              (example_bound 2 CellSimilarity.invalid_next_cell))
    as (_ & H & _).
  apply H. reflexivity.
Defined.

(** * Further properties *)

(** ** Relations between the kernels of the vector views *)

Section KernelRelations.
Context {num : NumberType} {laws : NumberLaws num}.
Variable spacedim : nat.
Variable symmetric_unrolled_to_component_indices : nat -> nat * nat.

Add Ring number_ring_relations : number_ring.

Local Open Scope number_scope.

Lemma tensor_sum_apply (rank : nat) (n : nat) (f : nat -> Tensor (S rank))
    (k : nat) :
  tensor_sum (S rank) n f k = tensor_sum rank n (fun i => f i k).
Proof. induction n as [|n IH]; simpl; [reflexivity|]. now rewrite IH. Qed.

Lemma tensor_sum_ext (rank : nat) (n : nat) (f g : nat -> Tensor rank) :
  (forall i, i < n -> f i = g i) ->
  tensor_sum rank n f = tensor_sum rank n g.
Proof.
  induction n as [|n IH]; intros H; simpl; [reflexivity|].
  rewrite IH, H by auto. reflexivity.
Qed.

(** The kernels that add a row of a table to a component of the output
    contract the coefficients with [component_basis]. *)
Lemma component_kernel_contracts (order K : nat) (position : nat -> nat)
    (table : Table (Tensor order))
    (dof_values : list Number)
    (shape_function_data : list FEValuesViews.ShapeFunctionData)
    (out : list (Tensor (S order))) :
  let out' :=
    Kernels.accumulate dof_values shape_function_data
      (fun value snc index out =>
         for_each_q_point out
           (fun q_point v =>
              tensor_add_at order (position index)
                (tensor_scale order value (table (Z.to_nat snc) q_point))
                v))
      (fun value s out =>
         foldl
           (fun out d =>
              if FEValuesViews.flag s d then
                for_each_q_point out
                  (fun q_point v =>
                     tensor_add_at order (position d)
                       (tensor_scale order value
                          (table (N.to_nat (FEValuesViews.row s d))
                             q_point)) v)
              else out)
           out (seq 0 K))
      (fill (tensor_zero (S order)) out) in
  length out' = length out /\
  contracts (S order)
    (component_basis order K position table shape_function_data)
    dof_values out'.
Proof.
  apply (accumulate_contracts (S order) _ _
           (fun snc index q =>
              unit_at order (position index) (table (Z.to_nat snc) q))
           (sub_component_sum (S order) K
              (fun s d q =>
                 unit_at order (position d)
                   (table (N.to_nat (FEValuesViews.row s d)) q)))).
  - intros value snc index out0. apply adds_for_each_q_point.
    intros q v. apply tensor_add_at_unit.
  - intros value s out0.
    apply (adds_sub_components (S order) K value s
             (fun s d q =>
                unit_at order (position d)
                  (table (N.to_nat (FEValuesViews.row s d)) q))
             (fun d out =>
                for_each_q_point out
                  (fun q_point v =>
                     tensor_add_at order (position d)
                       (tensor_scale order value
                          (table (N.to_nat (FEValuesViews.row s d)) q_point))
                       v))).
    intros d out1. apply adds_for_each_q_point.
    intros q v. apply tensor_add_at_unit.
Qed.

Lemma do_function_derivatives_Vector_contracts (order : nat)
    (dof_values : list Number) (shape_derivatives : Table (Tensor order))
    (shape_function_data : list FEValuesViews.ShapeFunctionData)
    (derivatives : list (Tensor (S order))) :
  let out :=
    Kernels.do_function_derivatives_Vector spacedim order dof_values
      shape_derivatives shape_function_data derivatives in
  length out = length derivatives /\
  contracts (S order)
    (component_basis order spacedim (fun d => d) shape_derivatives
       shape_function_data)
    dof_values out.
Proof.
  exact (component_kernel_contracts order spacedim (fun d => d)
           shape_derivatives dof_values shape_function_data derivatives).
Qed.

Lemma do_function_values_Vector_contracts
    (dof_values : list Number) (shape_values : Table Number)
    (shape_function_data : list FEValuesViews.ShapeFunctionData)
    (values : list (Tensor 1)) :
  let out :=
    Kernels.do_function_values_Vector spacedim dof_values shape_values
      shape_function_data values in
  length out = length values /\
  contracts 1
    (component_basis 0 spacedim (fun d => d) shape_values
       shape_function_data)
    dof_values out.
Proof.
  exact (component_kernel_contracts 0 spacedim (fun d => d)
           shape_values dof_values shape_function_data values).
Qed.

Lemma do_function_laplacians_Vector_contracts
    (dof_values : list Number) (shape_hessians : Table (Tensor 2))
    (shape_function_data : list FEValuesViews.ShapeFunctionData)
    (laplacians : list (Tensor 1)) :
  let out :=
    Kernels.do_function_laplacians_Vector spacedim dof_values
      shape_hessians shape_function_data laplacians in
  length out = length laplacians /\
  contracts 1
    (component_basis 0 spacedim (fun d => d)
       (fun r q => Kernels.trace spacedim (shape_hessians r q))
       shape_function_data)
    dof_values out.
Proof.
  exact (component_kernel_contracts 0 spacedim (fun d => d)
           (fun r q => Kernels.trace spacedim (shape_hessians r q))
           dof_values shape_function_data laplacians).
Qed.

(** Component [k] of the contribution of a shape function. *)
Lemma component_basis_apply (order K : nat) (position : nat -> nat)
    (table : Table (Tensor order))
    (shape_function_data : list FEValuesViews.ShapeFunctionData)
    (i q k : nat) :
  component_basis order K position table shape_function_data i q k
  = let s := shape_function_data !!! i in
    let snc := FEValuesViews.single_nonzero_component s in
    if (snc =? -2)%Z then tensor_zero order
    else if negb (snc =? -1)%Z
    then if k =? position (FEValuesViews.single_nonzero_component_index s)
         then table (Z.to_nat snc) q
         else tensor_zero order
    else tensor_sum order K
           (fun d =>
              if FEValuesViews.flag s d
              then if k =? position d
                   then table (N.to_nat (FEValuesViews.row s d)) q
                   else tensor_zero order
              else tensor_zero order).
Proof.
  unfold component_basis, basis. simpl.
  destruct (_ =? -2)%Z; [reflexivity|].
  destruct (negb _); [reflexivity|].
  unfold sub_component_sum. rewrite tensor_sum_apply.
  apply tensor_sum_ext. intros d _. unfold unit_at.
  now destruct (FEValuesViews.flag _ d).
Qed.

Lemma trace_component_basis (K : nat) (table : Table (Tensor 2))
    (shape_function_data : list FEValuesViews.ShapeFunctionData)
    (i q k : nat) :
  component_basis 0 K (fun d => d)
    (fun r q => Kernels.trace spacedim (table r q)) shape_function_data i q k
  = Kernels.trace spacedim
      (component_basis 2 K (fun d => d) table shape_function_data i q k).
Proof.
  rewrite !component_basis_apply. simpl.
  destruct (_ =? -2)%Z; [symmetry; apply trace_zero|].
  destruct (negb _).
  - destruct (k =? _); [reflexivity|symmetry; apply trace_zero].
  - rewrite trace_sum. apply (tensor_sum_ext 0). intros d _.
    destruct (FEValuesViews.flag _ d); [|symmetry; apply trace_zero].
    destruct (k =? d); [reflexivity|symmetry; apply trace_zero].
Qed.

(** In exact arithmetic, for a number type that satisfies [NumberLaws],
    the Laplacian of a vector field is, component by component, the
    trace of its Hessian: for the same coefficients, the same table of
    shape Hessians and the same shape function data, the Laplacian
    kernel and the Hessian kernel of a vector view return arrays of the
    same length, and at every quadrature point component [d] of the
    Laplacian is the trace of component [d] of the Hessian. *)
Theorem vector_laplacian_is_trace_of_hessian
    (dof_values : list Number) (shape_hessians : Table (Tensor 2))
    (shape_function_data : list FEValuesViews.ShapeFunctionData)
    (laplacians : list (Tensor 1)) (hessians : list (Tensor 3)) :
  length laplacians = length hessians ->
  let computed_laplacians :=
    Kernels.do_function_laplacians_Vector spacedim dof_values
      shape_hessians shape_function_data laplacians in
  let computed_hessians :=
    Kernels.do_function_derivatives_Vector spacedim 2 dof_values
      shape_hessians shape_function_data hessians in
  length computed_laplacians = length computed_hessians /\
  forall q_point, q_point < length laplacians ->
    exists (laplacian : Tensor 1) (hessian : Tensor 3),
      computed_laplacians !! q_point = Some laplacian /\
      computed_hessians !! q_point = Some hessian /\
      forall d, laplacian d = Kernels.trace spacedim (hessian d).
Proof.
  intros Hlen L H.
  destruct (do_function_laplacians_Vector_contracts dof_values
              shape_hessians shape_function_data laplacians) as [HlL HcL].
  destruct (do_function_derivatives_Vector_contracts 2 dof_values
              shape_hessians shape_function_data hessians) as [HlH HcH].
  fold L in HlL, HcL. fold H in HlH, HcH.
  split; [congruence|]. intros q Hq.
  destruct (lookup_lt_is_Some_2 L q) as [l Hl]; [lia|].
  destruct (lookup_lt_is_Some_2 H q) as [h Hh]; [lia|].
  exists l, h. split; [exact Hl|]. split; [exact Hh|]. intros d.
  pose proof (HcL q l Hl d) as El. simpl in El. rewrite El.
  rewrite (trace_compat spacedim _ _ (HcH q h Hh d)).
  rewrite !tensor_sum_apply, trace_sum.
  apply (tensor_sum_ext 0). intros i _.
  change (dof_values !!! i
          * component_basis 0 spacedim (fun d => d)
              (fun r q0 => Kernels.trace spacedim (shape_hessians r q0))
              shape_function_data i q d
          = Kernels.trace spacedim
              (tensor_scale 2 (dof_values !!! i)
                 (component_basis 2 spacedim (fun d => d) shape_hessians
                    shape_function_data i q d))).
  now rewrite trace_scale, trace_component_basis.
Qed.

Lemma do_function_divergences_Vector_contracts
    (dof_values : list Number) (shape_gradients : Table (Tensor 1))
    (shape_function_data : list FEValuesViews.ShapeFunctionData)
    (divergences : list Number) :
  let out :=
    Kernels.do_function_divergences_Vector spacedim dof_values
      shape_gradients shape_function_data divergences in
  length out = length divergences /\
  contracts 0 (entry_basis spacedim shape_gradients shape_function_data)
    dof_values out.
Proof.
  apply (accumulate_contracts 0 _ _
           (fun snc index q => shape_gradients (Z.to_nat snc) q index)
           (sub_component_sum 0 spacedim
              (fun s d q =>
                 shape_gradients (N.to_nat (FEValuesViews.row s d)) q d))).
  - intros value snc index out.
    apply (adds_for_each_q_point 0). intros q v. reflexivity.
  - intros value s out.
    apply (adds_sub_components 0 spacedim value s
             (fun s d q =>
                shape_gradients (N.to_nat (FEValuesViews.row s d)) q d)
             (fun d out =>
                for_each_q_point out
                  (fun q_point v =>
                     v + value
                         * shape_gradients
                             (N.to_nat (FEValuesViews.row s d)) q_point d))).
    intros d out0. apply (adds_for_each_q_point 0). intros q v. reflexivity.
Qed.

(** The trace of a tensor with the single row [k]. *)
Lemma trace_unit_at (k : nat) (gradient : Tensor 1) :
  Kernels.trace spacedim (unit_at 1 k gradient)
  = if k <? spacedim then gradient k else 0.
Proof.
  unfold Kernels.trace. induction spacedim as [|n IH]; [reflexivity|].
  rewrite seq_S, foldl_app. cbn [foldl]. rewrite IH.
  change (0 + n)%nat with n. unfold unit_at.
  destruct (Nat.eqb_spec n k) as [->|Hne].
  - rewrite Nat.ltb_irrefl.
    replace (k <? S k) with true by (symmetry; apply Nat.ltb_lt; lia).
    simpl. ring.
  - destruct (Nat.ltb_spec k n), (Nat.ltb_spec k (S n));
      try lia; simpl; ring.
Qed.

(** In exact arithmetic, for a number type that satisfies [NumberLaws],
    the divergence of a vector field is the trace of its gradient: for
    the same coefficients, the same table of shape gradients and shape
    function data with consistent classifiers, the divergence kernel and
    the gradient kernel of a vector view return arrays of the same
    length, and at every quadrature point the divergence is the trace of
    the gradient. *)
Theorem vector_divergence_is_trace_of_gradient
    (dof_values : list Number) (shape_gradients : Table (Tensor 1))
    (shape_function_data : list FEValuesViews.ShapeFunctionData)
    (divergences : list Number) (gradients : list (Tensor 2)) :
  length divergences = length gradients ->
  (forall i, i < length dof_values ->
     classifier_consistent spacedim (shape_function_data !!! i)) ->
  let computed_divergences :=
    Kernels.do_function_divergences_Vector spacedim dof_values
      shape_gradients shape_function_data divergences in
  let computed_gradients :=
    Kernels.do_function_derivatives_Vector spacedim 1 dof_values
      shape_gradients shape_function_data gradients in
  length computed_divergences = length computed_gradients /\
  forall q_point, q_point < length divergences ->
    exists (divergence : Number) (gradient : Tensor 2),
      computed_divergences !! q_point = Some divergence /\
      computed_gradients !! q_point = Some gradient /\
      divergence = Kernels.trace spacedim gradient.
Proof.
  intros Hlen Hcons D G.
  destruct (do_function_divergences_Vector_contracts dof_values
              shape_gradients shape_function_data divergences)
    as [HlD HcD].
  destruct (do_function_derivatives_Vector_contracts 1 dof_values
              shape_gradients shape_function_data gradients) as [HlG HcG].
  fold D in HlD, HcD. fold G in HlG, HcG.
  split; [congruence|]. intros q Hq.
  destruct (lookup_lt_is_Some_2 D q) as [d Hd]; [lia|].
  destruct (lookup_lt_is_Some_2 G q) as [g Hg]; [lia|].
  exists d, g. split; [exact Hd|]. split; [exact Hg|].
  pose proof (HcD q d Hd) as Ed. simpl in Ed. rewrite Ed.
  rewrite (trace_compat spacedim _ _ (HcG q g Hg)), trace_sum.
  apply (tensor_sum_compat 0). intros i Hi. simpl.
  change (dof_values !!! i
          * entry_basis spacedim shape_gradients shape_function_data i q
          = Kernels.trace spacedim
              (tensor_scale 2 (dof_values !!! i)
                 (component_basis 1 spacedim (fun d => d) shape_gradients
                    shape_function_data i q))).
  rewrite trace_scale. f_equal.
  unfold entry_basis, component_basis, basis.
  set (s := shape_function_data !!! i) in *.
  destruct (FEValuesViews.single_nonzero_component s =? -2)%Z eqn:E2;
    [symmetry; apply trace_zero|].
  destruct (FEValuesViews.single_nonzero_component s =? -1)%Z eqn:E1; simpl.
  - unfold sub_component_sum. rewrite trace_sum.
    apply (tensor_sum_ext 0). intros k Hk.
    destruct (FEValuesViews.flag s k); [|symmetry; apply trace_zero].
    rewrite trace_unit_at.
    now replace (k <? spacedim) with true
      by (symmetry; apply Nat.ltb_lt; lia).
  - apply Z.eqb_neq in E2, E1.
    destruct (classifier_consistent_single spacedim s (Hcons i Hi) E2 E1)
      as (k & Hk & _ & _ & _ & Hidx).
    rewrite Hidx, trace_unit_at.
    now replace (k <? spacedim) with true
      by (symmetry; apply Nat.ltb_lt; lia).
Qed.

Lemma do_function_symmetric_gradients_Vector_contracts
    (dof_values : list Number) (shape_gradients : Table (Tensor 1))
    (shape_function_data : list FEValuesViews.ShapeFunctionData)
    (symmetric_gradients : list SymmetricTensor2) :
  let out :=
    Kernels.do_function_symmetric_gradients_Vector spacedim
      symmetric_unrolled_to_component_indices dof_values shape_gradients
      shape_function_data symmetric_gradients in
  length out = length symmetric_gradients /\
  contracts 1
    (basis 1
       (fun snc comp q =>
          Kernels.symmetrize_single_row
            symmetric_unrolled_to_component_indices comp
            (shape_gradients (Z.to_nat snc) q))
       (fun s q =>
          Kernels.symmetrize symmetric_unrolled_to_component_indices
            (assembled_gradient spacedim s
               (fun d =>
                  shape_gradients (N.to_nat (FEValuesViews.row s d)) q)))
       shape_function_data)
    dof_values out.
Proof.
  unfold Kernels.do_function_symmetric_gradients_Vector.
  apply (accumulate_contracts 1 _ _
           (fun snc comp q =>
              Kernels.symmetrize_single_row
                symmetric_unrolled_to_component_indices comp
                (shape_gradients (Z.to_nat snc) q))
           (fun s q =>
              Kernels.symmetrize symmetric_unrolled_to_component_indices
                (assembled_gradient spacedim s
                   (fun d =>
                      shape_gradients (N.to_nat (FEValuesViews.row s d))
                        q)))).
  - intros value snc comp out. apply adds_for_each_q_point.
    intros q v. apply tensor_eq_refl.
  - intros value s out. apply adds_for_each_q_point. intros q v.
    apply tensor_add_compat; [apply tensor_eq_refl|].
    eapply tensor_eq_trans; [|apply symmetrize_scale].
    apply symmetrize_compat.
    apply (assembled_gradient_scale spacedim value s
             (fun d => shape_gradients (N.to_nat (FEValuesViews.row s d)) q)).
Qed.

Lemma symmetrize_zero :
  tensor_eq 1
    (Kernels.symmetrize symmetric_unrolled_to_component_indices
       (tensor_zero 2))
    (tensor_zero 1).
Proof.
  intros u. unfold Kernels.symmetrize.
  destruct (symmetric_unrolled_to_component_indices u) as [i j]. simpl.
  ring.
Qed.

Lemma symmetrize_add (s t : Tensor 2) :
  tensor_eq 1
    (Kernels.symmetrize symmetric_unrolled_to_component_indices
       (tensor_add 2 s t))
    (tensor_add 1
       (Kernels.symmetrize symmetric_unrolled_to_component_indices s)
       (Kernels.symmetrize symmetric_unrolled_to_component_indices t)).
Proof.
  intros u. simpl. unfold Kernels.symmetrize.
  destruct (symmetric_unrolled_to_component_indices u) as [i j]. simpl.
  ring.
Qed.

Lemma symmetrize_sum (n : nat) (f : nat -> Tensor 2) :
  tensor_eq 1
    (Kernels.symmetrize symmetric_unrolled_to_component_indices
       (tensor_sum 2 n f))
    (tensor_sum 1 n
       (fun i =>
          Kernels.symmetrize symmetric_unrolled_to_component_indices (f i))).
Proof.
  induction n as [|n IH]; [apply symmetrize_zero|].
  eapply tensor_eq_trans; [apply symmetrize_add|].
  apply (tensor_add_compat 1); [exact IH|apply tensor_eq_refl].
Qed.

(** Symmetrizing a tensor with a single row. *)
Lemma symmetrize_unit_at (comp : nat) (gradient : Tensor 1) :
  tensor_eq 1
    (Kernels.symmetrize_single_row symmetric_unrolled_to_component_indices
       comp gradient)
    (Kernels.symmetrize symmetric_unrolled_to_component_indices
       (unit_at 1 comp gradient)).
Proof.
  intros u. unfold Kernels.symmetrize_single_row, Kernels.symmetrize.
  destruct (symmetric_unrolled_to_component_indices u) as [i j].
  unfold unit_at. now destruct (i =? comp), (j =? comp).
Qed.

(** The rows beyond the [K] first of a sum of tensors with single rows
    below [K] are zero. *)
Lemma sum_of_rows_beyond (K : nat) (s : FEValuesViews.ShapeFunctionData)
    (rows : nat -> Tensor 1) (a : nat) :
  K <= a ->
  tensor_eq 1
    (tensor_sum 2 K
       (fun d =>
          if FEValuesViews.flag s d then unit_at 1 d (rows d)
          else tensor_zero 2) a)
    (tensor_zero 1).
Proof.
  intros Ha. rewrite tensor_sum_apply.
  eapply tensor_eq_trans; [|apply (tensor_sum_zero 1 K)].
  apply (tensor_sum_compat 1). intros d Hd. unfold unit_at.
  destruct (FEValuesViews.flag s d); [|apply tensor_eq_refl].
  replace (a =? d) with false by (symmetry; apply Nat.eqb_neq; lia).
  apply tensor_eq_refl.
Qed.

(** The gradient assembled on the general path is the sum of the
    tensors with the single rows of the flagged sub-components. *)
Lemma assembled_gradient_sum (K : nat) (s : FEValuesViews.ShapeFunctionData)
    (rows : nat -> Tensor 1) :
  tensor_eq 2 (assembled_gradient K s rows)
    (tensor_sum 2 K
       (fun d =>
          if FEValuesViews.flag s d then unit_at 1 d (rows d)
          else tensor_zero 2)).
Proof.
  unfold assembled_gradient. induction K as [|K IH].
  - apply tensor_eq_refl.
  - rewrite seq_S, foldl_app. cbn [foldl]. change (0 + K)%nat with K.
    cbn [tensor_sum].
    destruct (FEValuesViews.flag s K).
    + intros a. unfold tensor_update_at.
      change (tensor_eq 1
                (if a =? K then rows K
                 else foldl
                        (fun (grad : Tensor 2) d =>
                           if FEValuesViews.flag s d
                           then tensor_update_at d (fun _ => rows d) grad
                           else grad)
                        (tensor_zero 2) (seq 0 K) a)
                (tensor_add 1
                   (tensor_sum 2 K
                      (fun d =>
                         if FEValuesViews.flag s d then unit_at 1 d (rows d)
                         else tensor_zero 2) a)
                   (unit_at 1 K (rows K) a))).
      unfold unit_at at 2.
      destruct (Nat.eqb_spec a K) as [->|Hne].
      * apply tensor_eq_sym.
        eapply tensor_eq_trans; [|apply (tensor_add_zero_l 1)].
        apply (tensor_add_compat 1); [|apply tensor_eq_refl].
        apply sum_of_rows_beyond. lia.
      * eapply tensor_eq_trans; [exact (IH a)|].
        apply tensor_eq_sym, (tensor_add_zero_r 1).
    + eapply tensor_eq_trans; [exact IH|].
      apply tensor_eq_sym, (tensor_add_zero_r 2).
Qed.

(** In exact arithmetic, for a number type that satisfies [NumberLaws],
    whose [num_half] is one half, the symmetric gradient of a vector
    field is the symmetrized gradient: for the same coefficients, the
    same table of shape gradients and the same shape function data, the
    symmetric gradient kernel and the gradient kernel of a vector view
    return arrays of the same length, and at every quadrature point
    every component of the symmetric gradient is that of the symmetrized
    gradient. *)
Theorem symmetric_gradient_is_symmetrized_gradient
    (dof_values : list Number) (shape_gradients : Table (Tensor 1))
    (shape_function_data : list FEValuesViews.ShapeFunctionData)
    (symmetric_gradients : list SymmetricTensor2)
    (gradients : list (Tensor 2)) :
  length symmetric_gradients = length gradients ->
  let computed_symmetric_gradients :=
    Kernels.do_function_symmetric_gradients_Vector spacedim
      symmetric_unrolled_to_component_indices dof_values shape_gradients
      shape_function_data symmetric_gradients in
  let computed_gradients :=
    Kernels.do_function_derivatives_Vector spacedim 1 dof_values
      shape_gradients shape_function_data gradients in
  length computed_symmetric_gradients = length computed_gradients /\
  forall q_point, q_point < length symmetric_gradients ->
    exists (symmetric_gradient : SymmetricTensor2) (gradient : Tensor 2),
      computed_symmetric_gradients !! q_point = Some symmetric_gradient /\
      computed_gradients !! q_point = Some gradient /\
      forall u,
        symmetric_gradient u
        = Kernels.symmetrize symmetric_unrolled_to_component_indices
            gradient u.
Proof.
  intros Hlen S G.
  destruct (do_function_symmetric_gradients_Vector_contracts dof_values
              shape_gradients shape_function_data symmetric_gradients)
    as [HlS HcS].
  destruct (do_function_derivatives_Vector_contracts 1 dof_values
              shape_gradients shape_function_data gradients) as [HlG HcG].
  fold S in HlS, HcS. fold G in HlG, HcG.
  split; [congruence|]. intros q Hq.
  destruct (lookup_lt_is_Some_2 S q) as [sg Hsg]; [lia|].
  destruct (lookup_lt_is_Some_2 G q) as [g Hg]; [lia|].
  exists sg, g. split; [exact Hsg|]. split; [exact Hg|].
  change (tensor_eq 1 sg
            (Kernels.symmetrize symmetric_unrolled_to_component_indices g)).
  eapply tensor_eq_trans; [exact (HcS q sg Hsg)|].
  apply tensor_eq_sym.
  eapply tensor_eq_trans; [apply symmetrize_compat, (HcG q g Hg)|].
  eapply tensor_eq_trans; [apply symmetrize_sum|].
  apply (tensor_sum_compat 1). intros i Hi.
  eapply tensor_eq_trans; [apply symmetrize_scale|].
  apply (tensor_scale_compat 1).
  unfold component_basis, basis.
  set (s := shape_function_data !!! i) in *.
  destruct (FEValuesViews.single_nonzero_component s =? -2)%Z;
    [apply symmetrize_zero|].
  destruct (negb _).
  - apply tensor_eq_sym, symmetrize_unit_at.
  - apply symmetrize_compat, tensor_eq_sym.
    apply (assembled_gradient_sum spacedim s
             (fun d => shape_gradients (N.to_nat (FEValuesViews.row s d)) q)).
Qed.

(** The three components of the contribution of a shape function to the
    curl in three space dimensions. *)
Lemma curl_basis_3d_components (shape_gradients : Table (Tensor 1))
    (shape_function_data : list FEValuesViews.ShapeFunctionData)
    (i q : nat) :
  classifier_consistent 3 (shape_function_data !!! i) ->
  let s := shape_function_data !!! i in
  let contribution :=
    basis 1
      (fun snc index q =>
         curl_basis_3d (shape_gradients (Z.to_nat snc) q) index)
      (curl_multiple curl_basis_3d 3 shape_gradients)
      shape_function_data i q in
  contribution 0%nat
  = gradient_row shape_gradients s 2 q 1%nat
    - gradient_row shape_gradients s 1 q 2%nat /\
  contribution 1%nat
  = gradient_row shape_gradients s 0 q 2%nat
    - gradient_row shape_gradients s 2 q 0%nat /\
  contribution 2%nat
  = gradient_row shape_gradients s 1 q 0%nat
    - gradient_row shape_gradients s 0 q 1%nat.
Proof.
  intros Hcons s. unfold basis, gradient_row. fold s. simpl.
  destruct (FEValuesViews.single_nonzero_component s =? -2)%Z eqn:E2.
  { apply Z.eqb_eq in E2. destruct Hcons as (H2 & _). fold s in H2.
    rewrite (proj1 H2 E2 0%nat), (proj1 H2 E2 1%nat), (proj1 H2 E2 2%nat)
      by lia.
    simpl. repeat split; ring. }
  destruct (FEValuesViews.single_nonzero_component s =? -1)%Z eqn:E1; simpl.
  { unfold curl_multiple, curl_basis_3d, unit_at. simpl.
    destruct (FEValuesViews.flag s 0%nat), (FEValuesViews.flag s 1%nat),
      (FEValuesViews.flag s 2%nat); simpl; repeat split; ring. }
  apply Z.eqb_neq in E2, E1.
  destruct (classifier_consistent_single 3 s Hcons E2 E1)
    as (d & Hd & Ht & Huniq & Hsnc & Hidx).
  rewrite Hsnc, Hidx.
  replace (Z.to_nat (Z.of_N (FEValuesViews.row s d)))
    with (N.to_nat (FEValuesViews.row s d)) by lia.
  assert (Hother : forall d', d' < 3 -> d' <> d ->
            FEValuesViews.flag s d' = false).
  { intros d' Hd' Hne. destruct (FEValuesViews.flag s d') eqn:E;
      [|reflexivity].
    contradiction Hne. now apply Huniq. }
  unfold curl_basis_3d, unit_at.
  destruct d as [|[|[|d]]]; [| | |lia]; simpl; rewrite Ht.
  - rewrite (Hother 1%nat), (Hother 2%nat) by lia.
    simpl. repeat split; ring.
  - rewrite (Hother 0%nat), (Hother 2%nat) by lia.
    simpl. repeat split; ring.
  - rewrite (Hother 0%nat), (Hother 1%nat) by lia.
    simpl. repeat split; ring.
Qed.

(** In three space dimensions and in exact arithmetic, for a number
    type that satisfies [NumberLaws], the curl kernel returns, for shape
    function data with consistent classifiers, one value per quadrature
    point whose components are the sums over the shape functions of the
    coefficient times the curl of the shape function: the y-derivative of
    component 2 minus the z-derivative of component 1, the z-derivative
    of component 0 minus the x-derivative of component 2, and the
    x-derivative of component 1 minus the y-derivative of component 0,
    whichever of the fast path and the general path a shape function
    takes. *)
Theorem curl_3d_formula (dof_values : list Number)
    (shape_gradients : Table (Tensor 1))
    (shape_function_data : list FEValuesViews.ShapeFunctionData)
    (curls : list (Tensor 1)) :
  (forall i, i < length dof_values ->
     classifier_consistent 3 (shape_function_data !!! i)) ->
  exists computed,
    Kernels.do_function_curls_Vector 3 dof_values shape_gradients
      shape_function_data curls = Ok computed /\
    length computed = length curls /\
    forall q_point (curl : Tensor 1), computed !! q_point = Some curl ->
      let derivative i component direction :=
        gradient_row shape_gradients (shape_function_data !!! i) component
          q_point direction in
      curl 0%nat
      = tensor_sum 0 (length dof_values)
          (fun i =>
             (dof_values !!! i)
             * (derivative i 2%nat 1%nat - derivative i 1%nat 2%nat)) /\
      curl 1%nat
      = tensor_sum 0 (length dof_values)
          (fun i =>
             (dof_values !!! i)
             * (derivative i 0%nat 2%nat - derivative i 2%nat 0%nat)) /\
      curl 2%nat
      = tensor_sum 0 (length dof_values)
          (fun i =>
             (dof_values !!! i)
             * (derivative i 1%nat 0%nat - derivative i 0%nat 1%nat)).
Proof.
  intros Hcons. unfold Kernels.do_function_curls_Vector.
  destruct (accumulate_checked_spec 1
              (Kernels.curl_3d_single shape_gradients)
              (Kernels.curl_3d_multiple shape_gradients)
              (fun snc index q =>
                 curl_basis_3d (shape_gradients (Z.to_nat snc) q) index)
              (curl_multiple curl_basis_3d 3 shape_gradients)
              (fun _ index => negb (index <? 3)) (fun _ => false)
              (curl_3d_single_path shape_gradients)
              (curl_3d_multiple_path shape_gradients)
              dof_values shape_function_data (fill (tensor_zero 1) curls))
    as [_ Hok].
  destruct Hok as (computed & Hcomputed & Hadds).
  { intros i Hi. unfold raises, structural_failure.
    destruct (FEValuesViews.single_nonzero_component
                (shape_function_data !!! i) =? -2)%Z eqn:E2; [reflexivity|].
    destruct (FEValuesViews.single_nonzero_component
                (shape_function_data !!! i) =? -1)%Z eqn:E1; [reflexivity|].
    apply Z.eqb_neq in E2, E1. simpl.
    destruct (classifier_consistent_single 3 _ (Hcons i Hi) E2 E1)
      as (d & Hd & _ & _ & _ & Hidx).
    rewrite Hidx.
    replace (d <? 3) with true by (symmetry; apply Nat.ltb_lt; lia).
    reflexivity. }
  exists computed. split; [exact Hcomputed|].
  apply adds_fill in Hadds. destruct Hadds as [Hlen Hc].
  split; [exact Hlen|]. intros q w Hw. cbv zeta.
  rewrite (Hc q w Hw 0%nat), (Hc q w Hw 1%nat), (Hc q w Hw 2%nat).
  rewrite !tensor_sum_component.
  repeat split; apply (tensor_sum_compat 0); intros i Hi;
    destruct (curl_basis_3d_components shape_gradients shape_function_data
                i q (Hcons i Hi)) as (H0 & H1 & H2);
    simpl; congruence.
Qed.

End KernelRelations.

(** The Laplacian and the Hessian of a vector field on [example_fe] at
    the first quadrature point, in exact arithmetic. *)
Lemma vector_laplacian_is_trace_of_hessian_witness :
  exists (laplacian : Tensor (num := rational_number) 1)
         (hessian : Tensor (num := rational_number) 3),
    Kernels.do_function_laplacians_Vector (num := rational_number) 2
      (numbers [2; 3; 5]) example_hessians example_vector_data
      [tensor_zero 1] !! 0
    = Some laplacian /\
    Kernels.do_function_derivatives_Vector (num := rational_number) 2 2
      (numbers [2; 3; 5]) example_hessians example_vector_data
      [tensor_zero 3] !! 0
    = Some hessian /\
    forall d, laplacian d = Kernels.trace 2 (hessian d).
Proof.
  destruct (vector_laplacian_is_trace_of_hessian (num := rational_number) 2
              (numbers [2; 3; 5]) example_hessians example_vector_data
              [tensor_zero 1] [tensor_zero 3] eq_refl) as [_ H].
  apply (H 0). simpl. lia.
Defined.

(** The divergence and the gradient of a vector field on [example_fe]
    at the first quadrature point, in exact arithmetic. *)
Lemma vector_divergence_is_trace_of_gradient_witness :
  exists (divergence : @Number rational_number)
         (gradient : Tensor (num := rational_number) 2),
    Kernels.do_function_divergences_Vector (num := rational_number) 2
      (numbers [2; 3; 5]) example_gradients example_vector_data
      (numbers [0]) !! 0
    = Some divergence /\
    Kernels.do_function_derivatives_Vector (num := rational_number) 2 1
      (numbers [2; 3; 5]) example_gradients example_vector_data
      [tensor_zero 2] !! 0
    = Some gradient /\
    divergence = Kernels.trace (num := rational_number) 2 gradient.
Proof.
  destruct (vector_divergence_is_trace_of_gradient (num := rational_number) 2
              (numbers [2; 3; 5]) example_gradients example_vector_data
              (numbers [0]) [tensor_zero 2] eq_refl) as [_ H].
  - intros i Hi.
    apply (example_data_consistent 2 example_fe _ i example_fe_wf
             example_fe_primitive_wf example_fe_fits_int
             ltac:(simpl; lia) eq_refl).
    exact Hi.
  - apply (H 0). simpl. lia.
Defined.

(** The symmetric gradient and the gradient of a vector field on
    [example_fe] at the first quadrature point, in exact arithmetic. *)
Lemma symmetric_gradient_is_symmetrized_gradient_witness :
  exists (symmetric_gradient : SymmetricTensor2 (num := rational_number))
         (gradient : Tensor (num := rational_number) 2),
    Kernels.do_function_symmetric_gradients_Vector (num := rational_number) 2
      example_symmetric_unrolled (numbers [2; 3; 5]) example_gradients
      example_vector_data [tensor_zero 1] !! 0
    = Some symmetric_gradient /\
    Kernels.do_function_derivatives_Vector (num := rational_number) 2 1
      (numbers [2; 3; 5]) example_gradients example_vector_data
      [tensor_zero 2] !! 0
    = Some gradient /\
    forall u,
      symmetric_gradient u
      = Kernels.symmetrize example_symmetric_unrolled gradient u.
Proof.
  destruct (symmetric_gradient_is_symmetrized_gradient
              (num := rational_number) 2 example_symmetric_unrolled
              (numbers [2; 3; 5]) example_gradients example_vector_data
              [tensor_zero 1] [tensor_zero 2] eq_refl)
    as [_ H].
  apply (H 0). simpl. lia.
Defined.

(** The curl in three space dimensions on the vector view of the first
    three components of [example_tensor_fe], whose shape function is
    nonzero in two of them and takes the general path, in exact
    arithmetic. *)
Lemma curl_3d_formula_witness :
  exists computed,
    Kernels.do_function_curls_Vector (num := rational_number) 3 (numbers [7])
      example_gradients example_vector_data_3d [tensor_zero 1]
    = Ok computed /\
    length computed = 1 /\
    forall q_point (curl : Tensor (num := rational_number) 1),
      computed !! q_point = Some curl ->
      let derivative i component direction :=
        gradient_row example_gradients (example_vector_data_3d !!! i)
          component q_point direction in
      curl 0
      = tensor_sum (num := rational_number) 0 1
          (fun i =>
             ((numbers [7]) !!! i
              * (derivative i 2%nat 1%nat - derivative i 1%nat 2%nat)))%num
      /\
      curl 1
      = tensor_sum (num := rational_number) 0 1
          (fun i =>
             ((numbers [7]) !!! i
              * (derivative i 0%nat 2%nat - derivative i 2%nat 0%nat)))%num
      /\
      curl 2
      = tensor_sum (num := rational_number) 0 1
          (fun i =>
             ((numbers [7]) !!! i
              * (derivative i 1%nat 0%nat - derivative i 0%nat 1%nat)))%num.
Proof.
  apply (curl_3d_formula (num := rational_number) (numbers [7])
           example_gradients example_vector_data_3d [tensor_zero 1]).
  intros i Hi.
  apply (example_data_consistent 3 example_tensor_fe _ i
           example_tensor_fe_wf example_tensor_fe_primitive_wf
           ltac:(vm_compute; reflexivity) ltac:(simpl; lia) eq_refl).
  exact Hi.
Defined.

(** ** The constructors of the views *)

(** A loop that overwrites element [i] in iteration [i]. *)
Lemma length_foldl_insert {A} (g : nat -> A) (data : list A) (n : nat) :
  length (foldl (fun (data : list A) i => <[i := g i]> data) data (seq 0 n))
  = length data.
Proof.
  induction n as [|n IH]; [reflexivity|].
  rewrite seq_S, foldl_app. simpl. now rewrite length_insert.
Qed.

Lemma lookup_foldl_insert {A} (g : nat -> A) (data : list A) (n i : nat) :
  i < n -> i < length data ->
  foldl (fun (data : list A) i => <[i := g i]> data) data (seq 0 n) !! i
  = Some (g i).
Proof.
  intros Hn Hi. induction n as [|n IH]; [lia|].
  rewrite seq_S, foldl_app. simpl.
  destruct (decide (n = i)) as [->|Hne].
  - apply list_lookup_insert_eq. now rewrite length_foldl_insert.
  - rewrite list_lookup_insert_ne by assumption. apply IH. lia.
Qed.

Lemma set_single_nonzero_component_flags_rows (ds : list nat)
    (s : ShapeFunctionData) :
  is_nonzero_shape_function_component (set_single_nonzero_component ds s)
  = is_nonzero_shape_function_component s /\
  row_index (set_single_nonzero_component ds s) = row_index s.
Proof.
  induction ds as [|d ds IH]; simpl; [auto|].
  destruct (flag s d); [auto|exact IH].
Qed.

(** The second loop of the constructors leaves flags and rows alone. *)
Lemma classify_flags_rows (K : nat) (s : ShapeFunctionData) :
  is_nonzero_shape_function_component (classify K s)
  = is_nonzero_shape_function_component s /\
  row_index (classify K s) = row_index s.
Proof.
  unfold classify.
  destruct (count_nonzero_components K s =? 0); [auto|].
  destruct (1 <? count_nonzero_components K s); [auto|].
  apply set_single_nonzero_component_flags_rows.
Qed.

(** The flags and rows that the constructor shared by the three views
    stores for shape function [i]. *)
Lemma make_view_data (K : nat) (fe : FiniteElement) (first : nat)
    (v : View) (i : nat) (s : ShapeFunctionData) :
  make_view K fe first = Ok v ->
  shape_function_data v !! i = Some s ->
  i < n_dofs_per_cell fe /\
  forall d, d < K ->
    flag s d = nonzero_in fe i (component_at first d) /\
    row s d
    = row_of fe (make_shape_function_to_row_table fe) i (component_at first d)
        (nonzero_in fe i (component_at first d)).
Proof.
  unfold make_view, Assert.
  destruct (index_range_ok K fe first); [|discriminate].
  intros [= <-]. simpl. rewrite lookup_foldl_alter.
  destruct (decide (i < n_dofs_per_cell fe)) as [Hi|Hi]; cycle 1.
  { intros H. apply lookup_lt_Some in H.
    rewrite length_fill_sub_components, length_replicate in H. lia. }
  rewrite lookup_fill_sub_components, lookup_replicate_2 by assumption.
  simpl. rewrite sub_components_value_initialized by lia.
  rewrite !drop_replicate, Nat.sub_diag. simpl. rewrite !app_nil_r.
  intros [= <-]. split; [exact Hi|]. intros d Hd.
  destruct (classify_flags_rows K
              {| is_nonzero_shape_function_component :=
                   map (fun d => nonzero_in fe i (component_at first d))
                     (seq 0 K);
                 row_index :=
                   map (fun d =>
                          row_of fe (make_shape_function_to_row_table fe) i
                            (component_at first d)
                            (nonzero_in fe i (component_at first d)))
                     (seq 0 K);
                 single_nonzero_component := 0;
                 single_nonzero_component_index := 0 |}) as [Hf Hr].
  unfold flag, row. rewrite Hf, Hr. simpl.
  split; apply list_lookup_total_correct;
    change (map ?f ?l) with (f <$> l);
    now rewrite list_lookup_fmap, lookup_seq_lt.
Qed.

(** The entry that the constructor of a scalar view stores for shape
    function [i]. *)
Lemma Scalar_data (fe : FiniteElement) (component : nat) (v : ScalarView)
    (i : nat) (s : ScalarShapeFunctionData) :
  Scalar.Scalar fe component = Ok v ->
  scalar_shape_function_data v !! i = Some s ->
  i < n_dofs_per_cell fe /\
  scalar_is_nonzero_shape_function_component s = nonzero_in fe i component /\
  scalar_row_index s
  = row_of fe (make_shape_function_to_row_table fe) i component
      (nonzero_in fe i component).
Proof.
  unfold Scalar.Scalar, Assert.
  destruct (component <? n_components fe); [|discriminate].
  intros [= <-]. simpl. intros Hs.
  assert (Hi : i < n_dofs_per_cell fe).
  { apply lookup_lt_Some in Hs.
    now rewrite length_foldl_insert, length_replicate in Hs. }
  rewrite (lookup_foldl_insert
             (fun i =>
                {| scalar_is_nonzero_shape_function_component :=
                     nonzero_in fe i component;
                   scalar_row_index :=
                     row_of fe (make_shape_function_to_row_table fe) i
                       component (nonzero_in fe i component) |})) in Hs
    by (rewrite ?length_replicate; assumption).
  injection Hs as <-. auto.
Qed.

Lemma Scalar_length (fe : FiniteElement) (component : nat)
    (v : ScalarView) :
  Scalar.Scalar fe component = Ok v ->
  length (scalar_shape_function_data v) = n_dofs_per_cell fe.
Proof.
  unfold Scalar.Scalar, Assert.
  destruct (component <? n_components fe); [|discriminate].
  intros [= <-]. simpl.
  now rewrite length_foldl_insert, length_replicate.
Qed.

(** The row stored next to a flag: a row of the table below the number
    of rows when the flag is set, the sentinel otherwise. *)
Lemma row_of_spec (fe : FiniteElement) (i component : nat) :
  fe_wf fe -> fe_primitive_wf fe ->
  i < n_dofs_per_cell fe -> component < n_components fe ->
  let r := row_of fe (make_shape_function_to_row_table fe) i component
             (nonzero_in fe i component) in
  (nonzero_in fe i component = true ->
   make_shape_function_to_row_table fe !! (i * n_components fe + component)
   = Some r /\
   (r < N.of_nat (total_nonzero_pairs fe))%N) /\
  (r = invalid_unsigned_int <-> nonzero_in fe i component = false).
Proof.
  intros Hwf Hprim Hi Hc r.
  assert (Hset : nonzero_in fe i component = true ->
            make_shape_function_to_row_table fe
              !! (i * n_components fe + component) = Some r /\
            (r < N.of_nat (total_nonzero_pairs fe))%N).
  { intros Ht. unfold r. rewrite Ht. unfold row_of.
    pose proof (nonzero_in_bit fe i _ Hprim Hi Ht) as Hbit.
    pose proof (lookup_row_table fe i _ Hwf Hi Hc) as Hl.
    rewrite Hbit in Hl.
    rewrite (list_lookup_total_correct _ _ _ Hl).
    split; [exact Hl|].
    pose proof (row_number_lt_total fe i _ Hwf Hi Hc Hbit). lia. }
  split; [exact Hset|].
  destruct (nonzero_in fe i component) eqn:E.
  - destruct (Hset eq_refl) as [_ Hlt].
    pose proof (total_nonzero_pairs_le fe Hwf) as Hle.
    pose proof (wf_size fe Hwf) as Hsize.
    split; [|discriminate]. unfold invalid_unsigned_int. lia.
  - unfold r. simpl. split; reflexivity.
Qed.

(** The constructor of a scalar view raises [ExcIndexRange] exactly when
    the component is not one of the element. Otherwise the view has one
    entry per shape function; the flag of shape function [i] says
    whether it is nonzero in the component; when the flag is set the row
    index is the entry of the row table for the pair, a row number below
    the number of rows; and the row index is the sentinel exactly when
    the flag is not set. *)
Theorem Scalar_constructor (fe : FiniteElement) (c : nat) :
  fe_wf fe -> fe_primitive_wf fe ->
  (n_components fe <= c -> Scalar.Scalar fe c = Err ExcIndexRange) /\
  (c < n_components fe ->
   exists v, Scalar.Scalar fe c = Ok v /\
     component v = c /\
     length (scalar_shape_function_data v) = n_dofs_per_cell fe /\
     forall i s, scalar_shape_function_data v !! i = Some s ->
       scalar_is_nonzero_shape_function_component s = nonzero_in fe i c /\
       (scalar_is_nonzero_shape_function_component s = true ->
        make_shape_function_to_row_table fe !! (i * n_components fe + c)
        = Some (scalar_row_index s) /\
        (scalar_row_index s < N.of_nat (total_nonzero_pairs fe))%N) /\
       (scalar_row_index s = invalid_unsigned_int
        <-> scalar_is_nonzero_shape_function_component s = false)).
Proof.
  intros Hwf Hprim. split.
  - intros Hc. unfold Scalar.Scalar, Assert.
    now rewrite (proj2 (Nat.ltb_ge _ _) Hc).
  - intros Hc.
    destruct (Scalar.Scalar fe c) as [v|e] eqn:E; cycle 1.
    { unfold Scalar.Scalar, Assert in E.
      rewrite (proj2 (Nat.ltb_lt _ _) Hc) in E. discriminate E. }
    exists v. split; [reflexivity|].
    split; [eapply Scalar_component; eassumption|].
    split; [eapply Scalar_length; eassumption|].
    intros i s Hs.
    destruct (Scalar_data fe c v i s E Hs) as (Hi & Hflag & Hrow).
    destruct (row_of_spec fe i c Hwf Hprim Hi Hc) as [Hset Hsentinel].
    rewrite Hflag, Hrow. auto.
Qed.

(** The entries of the scalar view of component 1 of [example_fe]: shape
    function 0 is zero there, shape functions 1 and 2 are stored in rows
    1 and 3. *)
Lemma Scalar_constructor_witness :
  Scalar.Scalar example_fe 2 = Err ExcIndexRange /\
  exists v, Scalar.Scalar example_fe 1 = Ok v /\
    map scalar_row_index (scalar_shape_function_data v)
    = [invalid_unsigned_int; 1%N; 3%N] /\
    forall i s, scalar_shape_function_data v !! i = Some s ->
      (scalar_row_index s = invalid_unsigned_int
       <-> scalar_is_nonzero_shape_function_component s = false).
Proof.
  destruct (Scalar_constructor example_fe 2 example_fe_wf
              example_fe_primitive_wf) as [Herr _].
  destruct (Scalar_constructor example_fe 1 example_fe_wf
              example_fe_primitive_wf) as [_ Hok].
  split; [apply Herr; simpl; lia|].
  destruct Hok as (v & Hv & _ & _ & Hdata); [simpl; lia|].
  exists v. split; [exact Hv|]. split.
  - vm_compute in Hv. injection Hv as <-. reflexivity.
  - intros i s Hs. now destruct (Hdata i s Hs) as (_ & _ & H).
Defined.

(** The constructors of the vector, symmetric tensor and tensor views
    check the index [first + K - 1] of the last component of the window
    in unsigned arithmetic, and every failure is [ExcIndexRange]. While
    [first + K] is at most [2^32] they return exactly when the window is
    not empty and lies within the components of the element. When
    [first + K] exceeds [2^32] the index wraps around, and they return
    exactly when [first + K - 2^32] is at most the number of components,
    for a window that does not lie within the element. *)
Theorem view_constructor_index_range (dim spacedim : nat)
    (fe : FiniteElement) (first : nat) :
  (N.of_nat (n_components fe) < 2 ^ 32)%N ->
  forall K make,
    (K = spacedim /\ make = Vector.Vector spacedim) \/
    (K = SymmetricTensor_n_independent_components dim /\
     make = SymmetricTensor.SymmetricTensor dim) \/
    (K = dim * dim /\ make = Tensor.Tensor dim) ->
    ((N.of_nat (first + K) <= 2 ^ 32)%N ->
     ((exists v, make fe first = Ok v)
      <-> 0 < first + K /\ first + K <= n_components fe)) /\
    ((2 ^ 32 < N.of_nat (first + K) <= 2 ^ 33)%N ->
     ((exists v, make fe first = Ok v)
      <-> (N.of_nat (first + K) - 2 ^ 32 <= N.of_nat (n_components fe))%N))
    /\
    (forall e, make fe first = Err e -> e = ExcIndexRange).
Proof.
  intros Hnc K make Hmake.
  assert (H : make fe first = make_view K fe first)
    by (destruct Hmake as [[-> ->]|[[-> ->]|[-> ->]]]; reflexivity).
  rewrite H. unfold make_view, Assert, index_range_ok, wrap.
  assert (Hiff : forall b : bool,
            (exists v : View,
               (if b
                then
                  Ok {| first_component := first;
                        shape_function_data :=
                          foldl
                            (fun (data : list ShapeFunctionData) i =>
                               alter (classify K) i data)
                            (fill_sub_components K fe first
                               (make_shape_function_to_row_table fe)
                               (replicate (n_dofs_per_cell fe)
                                  (value_initialized K)))
                            (seq 0 (n_dofs_per_cell fe)) |}
                else Err ExcIndexRange) = Ok v) <-> b = true).
  { intros [|]; split; eauto; try discriminate.
    intros [v Hv]. discriminate Hv. }
  split; [|split].
  - intros Hle. rewrite Hiff, N.ltb_lt.
    destruct (decide (first + K = 0)) as [Hzero|Hpos].
    + replace (N.of_nat first + N.of_nat K + (2 ^ 32 - 1))%N
        with (2 ^ 32 - 1)%N by lia.
      rewrite N.mod_small by lia. lia.
    + replace (N.of_nat first + N.of_nat K + (2 ^ 32 - 1))%N
        with (N.of_nat (first + K - 1) + 1 * 2 ^ 32)%N by lia.
      rewrite N.Div0.mod_add, N.mod_small by lia. lia.
  - intros Hwrap. rewrite Hiff, N.ltb_lt.
    replace (N.of_nat first + N.of_nat K + (2 ^ 32 - 1))%N
      with (N.of_nat (first + K) - 2 ^ 32 - 1 + 2 * 2 ^ 32)%N by lia.
    rewrite N.Div0.mod_add, N.mod_small by lia. lia.
  - intros e. destruct (_ <? _)%N; [discriminate|]. now intros [= <-].
Qed.

(** On [example_fe], with two components, the vector view of the
    components from 0 is constructed and the one of the components from
    1 is refused; the one of the components from [2^32 - 1], whose last
    index wraps around to 0, is constructed. *)
Lemma view_constructor_index_range_witness :
  (exists v, Vector.Vector 2 example_fe 0 = Ok v) /\
  Vector.Vector 2 example_fe 1 = Err ExcIndexRange /\
  (exists v, Vector.Vector 2 example_fe (N.to_nat 4294967295) = Ok v).
Proof.
  split; [|split].
  - destruct (view_constructor_index_range 2 2 example_fe 0 eq_refl 2
                (Vector.Vector 2) (or_introl (conj eq_refl eq_refl)))
      as (Hiff & _ & _).
    apply (Hiff ltac:(simpl; lia)). simpl. lia.
  - destruct (view_constructor_index_range 2 2 example_fe 1 eq_refl 2
                (Vector.Vector 2) (or_introl (conj eq_refl eq_refl)))
      as (Hiff & _ & Herr).
    destruct (Vector.Vector 2 example_fe 1) as [v|e] eqn:E.
    + exfalso.
      destruct (proj1 (Hiff ltac:(simpl; lia)) (ex_intro _ v eq_refl)).
      simpl in *. lia.
    + now rewrite (Herr e eq_refl).
  - destruct (view_constructor_index_range 2 2 example_fe
                (N.to_nat 4294967295) eq_refl 2 (Vector.Vector 2)
                (or_introl (conj eq_refl eq_refl)))
      as (_ & Hiff & _).
    apply (Hiff ltac:(lia)). change (n_components example_fe) with 2. lia.
Defined.

(** In a vector, symmetric tensor or tensor view built by its
    constructor over a window the index of whose last component is
    computed without wrap-around, for every shape function [i] and every
    sub-component [d] of the window, the flag says whether the shape
    function is nonzero in component [first + d], a set flag comes with
    the entry of the row table for that pair, a row number below the
    number of rows, and the row index is the sentinel exactly when the
    flag is not set. *)
Theorem view_constructor_rows (dim spacedim : nat) (fe : FiniteElement) :
  fe_wf fe -> fe_primitive_wf fe ->
  forall K make,
    (K = spacedim /\ make = Vector.Vector spacedim) \/
    (K = SymmetricTensor_n_independent_components dim /\
     make = SymmetricTensor.SymmetricTensor dim) \/
    (K = dim * dim /\ make = Tensor.Tensor dim) ->
  forall first v,
    (N.of_nat (first + K) <= 2 ^ 32)%N ->
    make fe first = Ok v ->
  forall i s, shape_function_data v !! i = Some s ->
  forall d, d < K ->
    flag s d = nonzero_in fe i (first + d) /\
    (flag s d = true ->
     make_shape_function_to_row_table fe
       !! (i * n_components fe + (first + d)) = Some (row s d) /\
     (row s d < N.of_nat (total_nonzero_pairs fe))%N) /\
    (row s d = invalid_unsigned_int <-> flag s d = false).
Proof.
  intros Hwf Hprim K make Hmake first v Hnowrap Hv i s Hs d Hd.
  assert (H : make_view K fe first = Ok v)
    by (destruct Hmake as [[-> ->]|[[-> ->]|[-> ->]]]; exact Hv).
  destruct (make_view_data K fe first v i s H Hs) as [Hi Hdata].
  destruct (Hdata d Hd) as [Hflag Hrow].
  assert (Hwindow : first + K <= n_components fe).
  { unfold make_view, Assert in H.
    destruct (index_range_ok K fe first) eqn:E; [|discriminate].
    destruct (index_range_ok_window K fe first Hnowrap E); lia. }
  rewrite (component_at_window fe first K i d Hwf Hi Hwindow Hd)
    in Hflag, Hrow.
  assert (Hc : first + d < n_components fe) by lia.
  destruct (row_of_spec fe i (first + d) Hwf Hprim Hi Hc)
    as [Hset Hsentinel].
  rewrite Hflag, Hrow. auto.
Qed.

(** The rows of the vector view of [example_fe] in two space
    dimensions. *)
Lemma view_constructor_rows_witness :
  exists v, Vector.Vector 2 example_fe 0 = Ok v /\
    map row_index (shape_function_data v)
    = [[0%N; invalid_unsigned_int]; [invalid_unsigned_int; 1%N];
       [2%N; 3%N]] /\
    forall i s, shape_function_data v !! i = Some s ->
    forall d, d < 2 ->
      (row s d = invalid_unsigned_int <-> flag s d = false).
Proof.
  eexists. split; [reflexivity|]. split; [reflexivity|].
  intros i s Hs d Hd.
  destruct (view_constructor_rows 2 2 example_fe example_fe_wf
              example_fe_primitive_wf 2 (Vector.Vector 2)
              (or_introl (conj eq_refl eq_refl)) 0 _ ltac:(simpl; lia)
              eq_refl i s Hs d Hd)
    as (_ & _ & H).
  exact H.
Defined.

(** ** The vector view and the scalar views of its components *)

Section ViewsAgree.
Context {num : NumberType}.
Variable spacedim : nat.

Local Open Scope number_scope.

(** Component [d] of every entry of [out] is the entry of [sout] at the
    same quadrature point. *)
Local Abbreviation agree order d out sout :=
  (forall q v w, out !! q = Some v -> sout !! q = Some w ->
                 tensor_eq order (v d) w).

Lemma foldl_pair_invariant {A B} (P : A -> B -> Prop) (f : A -> nat -> A)
    (g : B -> nat -> B) (n : nat) (a : A) (b : B) :
  P a b ->
  (forall k a b, k < n -> P a b -> P (f a k) (g b k)) ->
  P (foldl f a (seq 0 n)) (foldl g b (seq 0 n)).
Proof.
  induction n as [|n IH]; intros H0 Hstep; [exact H0|].
  rewrite seq_S, !foldl_app. simpl.
  apply Hstep; [lia|]. apply IH; [exact H0|].
  intros k a' b' Hk. apply Hstep. lia.
Qed.

(** Adding to component [k] at every quadrature point changes component
    [d] exactly when [d] is [k]. *)
Lemma agree_add_at (order d k : nat) (x : nat -> Tensor order)
    (out : list (Tensor (S order))) (sout : list (Tensor order)) :
  agree order d out sout ->
  agree order d
    (for_each_q_point out (fun q v => tensor_add_at order k (x q) v))
    (if d =? k
     then for_each_q_point sout (fun q w => tensor_add order w (x q))
     else sout).
Proof.
  intros H q v' w'. unfold for_each_q_point. rewrite list_lookup_imap.
  destruct (out !! q) as [v|] eqn:Ev; [|discriminate]. simpl.
  intros [= <-]. unfold tensor_add_at, tensor_update_at.
  destruct (d =? k).
  - rewrite list_lookup_imap.
    destruct (sout !! q) as [w|] eqn:Ew; [|discriminate]. simpl.
    intros [= <-].
    apply tensor_add_compat; [now apply (H q)|apply tensor_eq_refl].
  - intros Hw. now apply (H q).
Qed.

(** The general path adds to component [d] when its flag is set, and
    leaves it as it is otherwise. *)
Lemma agree_multiple (order d : nat) (s : FEValuesViews.ShapeFunctionData)
    (x : nat -> nat -> Tensor order) (K : nat)
    (out : list (Tensor (S order))) (sout : list (Tensor order)) :
  agree order d out sout ->
  agree order d
    (foldl
       (fun out d0 =>
          if FEValuesViews.flag s d0
          then for_each_q_point out
                 (fun q v => tensor_add_at order d0 (x d0 q) v)
          else out)
       out (seq 0 K))
    (if (d <? K) && FEValuesViews.flag s d
     then for_each_q_point sout (fun q w => tensor_add order w (x d q))
     else sout).
Proof.
  intros H. induction K as [|K IH]; [exact H|].
  rewrite seq_S, foldl_app. simpl.
  destruct (Nat.eqb_spec d K) as [->|Hne].
  - replace (K <? K) with false in IH by (symmetry; apply Nat.ltb_ge; lia).
    replace (K <? S K) with true by (symmetry; apply Nat.ltb_lt; lia).
    simpl in *. destruct (FEValuesViews.flag s K); [|exact IH].
    pose proof (agree_add_at order K K (x K) _ _ IH) as Hadd.
    now rewrite Nat.eqb_refl in Hadd.
  - replace (d <? S K) with (d <? K)
      by (destruct (Nat.ltb_spec d K), (Nat.ltb_spec d (S K)); lia).
    destruct (FEValuesViews.flag s K); [|exact IH].
    pose proof (agree_add_at order d K (x K) _ _ IH) as Hadd.
    now replace (d =? K) with false in Hadd
      by (symmetry; apply Nat.eqb_neq; lia).
Qed.

(** The frame of the kernels of a vector view performs on component [d]
    the operations of the kernel of a scalar view whose flag and row are
    those of sub-component [d], in the same order. *)
Lemma accumulate_component (order : nat)
    (term : Number -> nat -> nat -> Tensor order)
    (dof_values : list Number)
    (shape_function_data : list FEValuesViews.ShapeFunctionData)
    (scalar_data : list FEValuesViews.ScalarShapeFunctionData)
    (d : nat) (out : list (Tensor (S order)))
    (sout : list (Tensor order)) :
  d < spacedim ->
  (forall i, i < length dof_values ->
     classifier_consistent spacedim (shape_function_data !!! i) /\
     FEValuesViews.flag (shape_function_data !!! i) d
     = FEValuesViews.scalar_is_nonzero_shape_function_component
         (scalar_data !!! i) /\
     FEValuesViews.row (shape_function_data !!! i) d
     = FEValuesViews.scalar_row_index (scalar_data !!! i)) ->
  agree order d out sout ->
  agree order d
    (Kernels.accumulate dof_values shape_function_data
       (fun value snc comp out =>
          for_each_q_point out
            (fun q v =>
               tensor_add_at order comp (term value (Z.to_nat snc) q) v))
       (fun value s out =>
          foldl
            (fun out d0 =>
               if FEValuesViews.flag s d0
               then for_each_q_point out
                      (fun q v =>
                         tensor_add_at order d0
                           (term value
                              (N.to_nat (FEValuesViews.row s d0)) q) v)
               else out)
            out (seq 0 spacedim))
       out)
    (foldl
       (fun sout i =>
          let s := scalar_data !!! i in
          if FEValuesViews.scalar_is_nonzero_shape_function_component s
          then
            let value := dof_values !!! i in
            if CheckForZero value then sout
            else
              for_each_q_point sout
                (fun q w =>
                   tensor_add order w
                     (term value
                        (N.to_nat (FEValuesViews.scalar_row_index s)) q))
          else sout)
       sout (seq 0 (length dof_values))).
Proof.
  intros Hd Hdata H0. unfold Kernels.accumulate.
  apply (foldl_pair_invariant
           (fun (out : list (Tensor (S order)))
                (sout : list (Tensor order)) => agree order d out sout));
    [exact H0|].
  clear out sout H0. intros i out sout Hi H. cbv zeta.
  destruct (Hdata i Hi) as (Hcons & Hflag & Hrow).
  set (s := shape_function_data !!! i) in *.
  set (t := scalar_data !!! i) in *.
  rewrite <- Hflag, <- Hrow.
  destruct (FEValuesViews.single_nonzero_component s =? -2)%Z eqn:E2.
  { apply Z.eqb_eq in E2. destruct Hcons as (H2 & _).
    now rewrite (proj1 H2 E2 d Hd). }
  destruct (CheckForZero (dof_values !!! i)).
  { now destruct (FEValuesViews.flag s d). }
  destruct (FEValuesViews.single_nonzero_component s =? -1)%Z eqn:E1; simpl.
  - pose proof (agree_multiple order d s
                  (fun d0 q =>
                     term (dof_values !!! i)
                       (N.to_nat (FEValuesViews.row s d0)) q)
                  spacedim out sout H) as Hm.
    now rewrite (proj2 (Nat.ltb_lt _ _) Hd) in Hm.
  - apply Z.eqb_neq in E2, E1.
    destruct (classifier_consistent_single spacedim s Hcons E2 E1)
      as (k & Hk & Ht & Huniq & Hsnc & Hidx).
    rewrite Hsnc, Hidx.
    replace (Z.to_nat (Z.of_N (FEValuesViews.row s k)))
      with (N.to_nat (FEValuesViews.row s k)) by lia.
    pose proof (agree_add_at order d k
                  (fun q =>
                     term (dof_values !!! i)
                       (N.to_nat (FEValuesViews.row s k)) q)
                  out sout H) as Ha.
    destruct (Nat.eqb_spec d k) as [->|Hne].
    + now rewrite Ht.
    + destruct (FEValuesViews.flag s d) eqn:E; [|exact Ha].
      contradiction Hne. now apply Huniq.
Qed.

Lemma agree_fill (order d : nat) (out : list (Tensor (S order)))
    (sout : list (Tensor order)) :
  agree order d (fill (tensor_zero (S order)) out)
    (fill (tensor_zero order) sout).
Proof.
  intros q v w. unfold fill.
  change (map ?f ?l) with (f <$> l). rewrite !list_lookup_fmap.
  destruct (out !! q); [|discriminate].
  destruct (sout !! q); [|discriminate].
  simpl. intros [= <-] [= <-]. apply tensor_eq_refl.
Qed.

(** A vector view and the scalar views of its components agree, whatever
    the arithmetic of the number type, rounding included. When the
    constructor of the vector view over the components that start at
    [first] returns, and computed the index of the last of them without
    wrap-around, so does the constructor of the scalar view of component
    [first + d] for every [d] of the window; and for one coefficient per
    shape function and the same tables, component [d] of the value, of
    the derivative of every order and of the Laplacian that the vector
    view computes at a quadrature point is what the scalar view computes
    there: the kernel of the vector view performs on component [d] the
    additions of the kernel of the scalar view, in the same order. *)
Theorem vector_view_agrees_with_scalar_views (fe : FiniteElement)
    (first : nat) (v : View) :
  fe_wf fe -> fe_primitive_wf fe ->
  (N.of_nat (n_dofs_per_cell fe * n_components fe) < 2 ^ 31)%N ->
  (N.of_nat (first + spacedim) <= 2 ^ 32)%N ->
  Vector.Vector spacedim fe first = Ok v ->
  forall d, d < spacedim ->
  exists sv, Scalar.Scalar fe (first + d)%nat = Ok sv /\
    forall dof_values, length dof_values = n_dofs_per_cell fe ->
      (forall shape_values values scalar_values q_point
              (value : Tensor 1) (scalar_value : Number),
         Kernels.do_function_values_Vector spacedim dof_values
           shape_values (shape_function_data v) values !! q_point
         = Some value ->
         Kernels.do_function_values_Scalar dof_values shape_values
           (scalar_shape_function_data sv) scalar_values !! q_point
         = Some scalar_value ->
         value d = scalar_value) /\
      (forall order shape_derivatives derivatives scalar_derivatives
              q_point (derivative : Tensor (S order))
              (scalar_derivative : Tensor order),
         Kernels.do_function_derivatives_Vector spacedim order dof_values
           shape_derivatives (shape_function_data v) derivatives
           !! q_point = Some derivative ->
         Kernels.do_function_derivatives_Scalar order dof_values
           shape_derivatives (scalar_shape_function_data sv)
           scalar_derivatives !! q_point = Some scalar_derivative ->
         tensor_eq order (derivative d) scalar_derivative) /\
      (forall shape_hessians laplacians scalar_laplacians q_point
              (laplacian : Tensor 1) (scalar_laplacian : Number),
         Kernels.do_function_laplacians_Vector spacedim dof_values
           shape_hessians (shape_function_data v) laplacians !! q_point
         = Some laplacian ->
         Kernels.do_function_laplacians_Scalar spacedim dof_values
           shape_hessians (scalar_shape_function_data sv)
           scalar_laplacians !! q_point = Some scalar_laplacian ->
         laplacian d = scalar_laplacian).
Proof.
  intros Hwf Hprim Hint Hnowrap Hv d Hd.
  assert (Hview : make_view spacedim fe first = Ok v) by exact Hv.
  assert (Hwindow : (first + spacedim <= n_components fe)%nat).
  { unfold make_view, Assert in Hview.
    destruct (index_range_ok spacedim fe first) eqn:E; [|discriminate].
    destruct (index_range_ok_window spacedim fe first Hnowrap E); lia. }
  assert (Hc : (first + d < n_components fe)%nat) by lia.
  destruct (Scalar.Scalar fe (first + d)%nat) as [sv|e] eqn:Hsv; cycle 1.
  { unfold Scalar.Scalar, Assert in Hsv.
    rewrite (proj2 (Nat.ltb_lt _ _) Hc) in Hsv. discriminate Hsv. }
  exists sv. split; [reflexivity|]. intros dof_values Hdofs.
  destruct (make_view_consistent spacedim fe first v Hwf Hprim Hint Hnowrap
              Hview) as (_ & Hlen & Hcons).
  pose proof (Scalar_length fe (first + d)%nat sv Hsv) as Hslen.
  assert (Hdata : forall i, i < length dof_values ->
            classifier_consistent spacedim (shape_function_data v !!! i) /\
            flag (shape_function_data v !!! i) d
            = scalar_is_nonzero_shape_function_component
                (scalar_shape_function_data sv !!! i) /\
            row (shape_function_data v !!! i) d
            = scalar_row_index (scalar_shape_function_data sv !!! i)).
  { intros i Hi.
    destruct (lookup_lt_is_Some_2 (shape_function_data v) i) as [s Hs];
      [lia|].
    destruct (lookup_lt_is_Some_2 (scalar_shape_function_data sv) i)
      as [t Ht]; [lia|].
    rewrite (list_lookup_total_correct _ _ _ Hs).
    rewrite (list_lookup_total_correct _ _ _ Ht).
    destruct (make_view_data spacedim fe first v i s Hview Hs)
      as [Hin Hflags].
    destruct (Hflags d Hd) as [Hflag Hrow].
    rewrite (component_at_window fe first spacedim i d Hwf Hin Hwindow Hd)
      in Hflag, Hrow.
    destruct (Scalar_data fe (first + d)%nat sv i t Hsv Ht)
      as (_ & Htflag & Htrow).
    split; [now destruct (Hcons i s Hs) as (_ & _ & _ & _ & H)|].
    now rewrite Hflag, Hrow, Htflag, Htrow. }
  split; [|split].
  - intros shape_values values scalar_values q value scalar_value.
    exact (accumulate_component 0
             (fun value r q => value * shape_values r q) dof_values
             (shape_function_data v) (scalar_shape_function_data sv) d
             (fill (tensor_zero 1) values) (fill 0 scalar_values) Hd Hdata
             (agree_fill 0 d values scalar_values) q value scalar_value).
  - intros order table out sout q w sw.
    exact (accumulate_component order
             (fun value r q => tensor_scale order value (table r q))
             dof_values (shape_function_data v)
             (scalar_shape_function_data sv) d
             (fill (tensor_zero (S order)) out)
             (fill (tensor_zero order) sout) Hd Hdata
             (agree_fill order d out sout) q w sw).
  - intros shape_hessians out sout q w sw.
    exact (accumulate_component 0
             (fun value r q =>
                value * Kernels.trace spacedim (shape_hessians r q))
             dof_values (shape_function_data v)
             (scalar_shape_function_data sv) d
             (fill (tensor_zero 1) out) (fill 0 sout) Hd Hdata
             (agree_fill 0 d out sout) q w sw).
Qed.

End ViewsAgree.

(** Component 1 of the gradient that the vector view of [example_fe]
    computes in double precision is the gradient that the scalar view of
    component 1 computes. *)
Lemma vector_view_agrees_with_scalar_views_witness :
  exists sv, Scalar.Scalar example_fe 1 = Ok sv /\
    forall q_point (gradient : Tensor (num := double_number) 2)
           (scalar_gradient : Tensor (num := double_number) 1),
      Kernels.do_function_derivatives_Vector (num := double_number) 2 1
        (numbers [2; 3; 5]) example_gradients example_vector_data
        [tensor_zero 2] !! q_point = Some gradient ->
      Kernels.do_function_derivatives_Scalar (num := double_number) 1
        (numbers [2; 3; 5]) example_gradients
        (scalar_shape_function_data sv)
        [tensor_zero 1] !! q_point = Some scalar_gradient ->
      tensor_eq 1 (gradient 1) scalar_gradient.
Proof.
  destruct (vector_view_agrees_with_scalar_views (num := double_number) 2
              example_fe 0 _ example_fe_wf example_fe_primitive_wf
              example_fe_fits_int ltac:(simpl; lia) eq_refl 1 ltac:(lia))
    as (sv & Hsv & H).
  exists sv. split; [exact Hsv|].
  destruct (H (numbers [2; 3; 5]) eq_refl) as (_ & Hd & _).
  intros q_point gradient scalar_gradient.
  apply (Hd 1 example_gradients [tensor_zero 2] [tensor_zero 1]).
Defined.

(** ** Shape functions that are zero in the components of a view *)

Section ZeroShapeFunctions.
Context {num : NumberType}.

Lemma foldl_ext_seq {A} (f g : A -> nat -> A) (a : A) (n : nat) :
  (forall a k, k < n -> f a k = g a k) ->
  foldl f a (seq 0 n) = foldl g a (seq 0 n).
Proof.
  induction n as [|n IH]; intros H; [reflexivity|].
  rewrite seq_S, !foldl_app. simpl. rewrite IH by (intros; apply H; lia).
  apply H. lia.
Qed.

Lemma lookup_total_insert_other (dof_values : list Number) (i k : nat)
    (x : Number) :
  k <> i -> <[i := x]> dof_values !!! k = dof_values !!! k.
Proof. intros H. apply list_lookup_total_insert_ne. congruence. Qed.

(** The frame of the kernels does not read the coefficient of a shape
    function whose classifier is -2. *)
Lemma accumulate_ignores {T} (dof_values : list Number)
    (shape_function_data : list FEValuesViews.ShapeFunctionData)
    (single : Number -> Z -> nat -> T -> T)
    (multiple : Number -> FEValuesViews.ShapeFunctionData -> T -> T)
    (out : T) (i : nat) (x : Number) :
  single_nonzero_component (shape_function_data !!! i) = (-2)%Z ->
  Kernels.accumulate (<[i := x]> dof_values) shape_function_data single
    multiple out
  = Kernels.accumulate dof_values shape_function_data single multiple out.
Proof.
  intros Hsnc. unfold Kernels.accumulate. rewrite length_insert.
  apply foldl_ext_seq. intros out0 k Hk.
  destruct (decide (k = i)) as [->|Hne].
  - now rewrite Hsnc.
  - now rewrite lookup_total_insert_other.
Qed.

Lemma accumulate_checked_ignores {T} (dof_values : list Number)
    (shape_function_data : list FEValuesViews.ShapeFunctionData)
    (single : Number -> Z -> nat -> T -> result T)
    (multiple : Number -> FEValuesViews.ShapeFunctionData -> T -> result T)
    (out : T) (i : nat) (x : Number) :
  single_nonzero_component (shape_function_data !!! i) = (-2)%Z ->
  Kernels.accumulate_checked (<[i := x]> dof_values) shape_function_data
    single multiple out
  = Kernels.accumulate_checked dof_values shape_function_data single
      multiple out.
Proof.
  intros Hsnc. unfold Kernels.accumulate_checked, for_loop.
  rewrite length_insert.
  apply foldl_ext_seq. intros r k Hk. destruct r as [out0|e]; [|reflexivity].
  simpl. destruct (decide (k = i)) as [->|Hne].
  - now rewrite Hsnc.
  - now rewrite lookup_total_insert_other.
Qed.

Section IgnoredCoefficients.
Variables dim spacedim : nat.
Variable symmetric_unrolled_to_component_indices : nat -> nat * nat.
Variable symmetric_component_to_unrolled_index : nat * nat -> nat.
Variable tensor_unrolled_to_component_indices : nat -> nat * nat.

(** The coefficient of a shape function that is zero in the components
    of a view does not influence what the view computes: replacing the
    coefficient of a shape function whose classifier is -2 (for a scalar
    view: whose flag is not set) by any number leaves the result of
    every kernel as it is, an exception included. *)
Theorem zero_shape_function_coefficient_is_ignored :
  (forall (shape_function_data : list FEValuesViews.ShapeFunctionData)
          (i : nat) (x : Number) (dof_values : list Number),
     single_nonzero_component (shape_function_data !!! i) = (-2)%Z ->
     let dof_values' := <[i := x]> dof_values in
     (forall shape_values values,
        Kernels.do_function_values_Vector spacedim dof_values'
          shape_values shape_function_data values
        = Kernels.do_function_values_Vector spacedim dof_values
            shape_values shape_function_data values) /\
     (forall order shape_derivatives derivatives,
        Kernels.do_function_derivatives_Vector spacedim order dof_values'
          shape_derivatives shape_function_data derivatives
        = Kernels.do_function_derivatives_Vector spacedim order dof_values
            shape_derivatives shape_function_data derivatives) /\
     (forall shape_gradients symmetric_gradients,
        Kernels.do_function_symmetric_gradients_Vector spacedim
          symmetric_unrolled_to_component_indices dof_values'
          shape_gradients shape_function_data symmetric_gradients
        = Kernels.do_function_symmetric_gradients_Vector spacedim
            symmetric_unrolled_to_component_indices dof_values
            shape_gradients shape_function_data symmetric_gradients) /\
     (forall shape_gradients divergences,
        Kernels.do_function_divergences_Vector spacedim dof_values'
          shape_gradients shape_function_data divergences
        = Kernels.do_function_divergences_Vector spacedim dof_values
            shape_gradients shape_function_data divergences) /\
     (forall shape_hessians laplacians,
        Kernels.do_function_laplacians_Vector spacedim dof_values'
          shape_hessians shape_function_data laplacians
        = Kernels.do_function_laplacians_Vector spacedim dof_values
            shape_hessians shape_function_data laplacians) /\
     (forall shape_gradients curls,
        Kernels.do_function_curls_Vector spacedim dof_values'
          shape_gradients shape_function_data curls
        = Kernels.do_function_curls_Vector spacedim dof_values
            shape_gradients shape_function_data curls) /\
     (forall shape_values values,
        Kernels.do_function_values_SymmetricTensor spacedim
          symmetric_unrolled_to_component_indices
          symmetric_component_to_unrolled_index dof_values' shape_values
          shape_function_data values
        = Kernels.do_function_values_SymmetricTensor spacedim
            symmetric_unrolled_to_component_indices
            symmetric_component_to_unrolled_index dof_values shape_values
            shape_function_data values) /\
     (forall shape_gradients divergences,
        Kernels.do_function_divergences_SymmetricTensor spacedim
          symmetric_unrolled_to_component_indices
          symmetric_component_to_unrolled_index dof_values'
          shape_gradients shape_function_data divergences
        = Kernels.do_function_divergences_SymmetricTensor spacedim
            symmetric_unrolled_to_component_indices
            symmetric_component_to_unrolled_index dof_values
            shape_gradients shape_function_data divergences) /\
     (forall shape_values values,
        Kernels.do_function_values_Tensor dim
          tensor_unrolled_to_component_indices dof_values' shape_values
          shape_function_data values
        = Kernels.do_function_values_Tensor dim
            tensor_unrolled_to_component_indices dof_values shape_values
            shape_function_data values) /\
     (forall shape_gradients divergences,
        Kernels.do_function_divergences_Tensor dim
          tensor_unrolled_to_component_indices dof_values'
          shape_gradients shape_function_data divergences
        = Kernels.do_function_divergences_Tensor dim
            tensor_unrolled_to_component_indices dof_values
            shape_gradients shape_function_data divergences) /\
     (forall shape_gradients gradients,
        Kernels.do_function_gradients_Tensor dim
          tensor_unrolled_to_component_indices dof_values'
          shape_gradients shape_function_data gradients
        = Kernels.do_function_gradients_Tensor dim
            tensor_unrolled_to_component_indices dof_values
            shape_gradients shape_function_data gradients)) /\
  (forall (shape_function_data :
             list FEValuesViews.ScalarShapeFunctionData)
          (i : nat) (x : Number) (dof_values : list Number),
     scalar_is_nonzero_shape_function_component (shape_function_data !!! i)
     = false ->
     let dof_values' := <[i := x]> dof_values in
     (forall shape_values values,
        Kernels.do_function_values_Scalar dof_values' shape_values
          shape_function_data values
        = Kernels.do_function_values_Scalar dof_values shape_values
            shape_function_data values) /\
     (forall order shape_derivatives derivatives,
        Kernels.do_function_derivatives_Scalar order dof_values'
          shape_derivatives shape_function_data derivatives
        = Kernels.do_function_derivatives_Scalar order dof_values
            shape_derivatives shape_function_data derivatives) /\
     (forall shape_hessians laplacians,
        Kernels.do_function_laplacians_Scalar spacedim dof_values'
          shape_hessians shape_function_data laplacians
        = Kernels.do_function_laplacians_Scalar spacedim dof_values
            shape_hessians shape_function_data laplacians)).
Proof.
  split.
  - intros data i x dof Hsnc dof'.
    repeat match goal with |- _ /\ _ => split end; intros;
      try (apply accumulate_ignores; exact Hsnc);
      try (apply accumulate_checked_ignores; exact Hsnc).
    unfold Kernels.do_function_curls_Vector.
    destruct spacedim as [|[|[|[|n]]]]; try reflexivity;
      apply accumulate_checked_ignores; exact Hsnc.
  - intros data i x dof Hflag dof'.
    repeat match goal with |- _ /\ _ => split end; intros;
      unfold Kernels.do_function_values_Scalar,
        Kernels.do_function_derivatives_Scalar,
        Kernels.do_function_laplacians_Scalar;
      unfold dof'; rewrite length_insert;
      apply foldl_ext_seq; intros out0 k Hk;
      (destruct (decide (k = i)) as [->|Hne];
       [now rewrite Hflag|now rewrite lookup_total_insert_other]).
Qed.

End IgnoredCoefficients.

End ZeroShapeFunctions.

(** The shape function of [example_tensor_fe] is zero in components 2
    and 3, and shape function 1 of [example_fe] is zero in component 0:
    the gradients of the views of these components do not depend on
    their coefficients. *)
Lemma zero_shape_function_coefficient_is_ignored_witness :
  Kernels.do_function_derivatives_Vector (num := double_number) 2 1
    (<[0 := number_of_nat 9]> (numbers [7])) example_gradients
    example_zero_data [tensor_zero 2]
  = Kernels.do_function_derivatives_Vector (num := double_number) 2 1
      (numbers [7]) example_gradients example_zero_data [tensor_zero 2] /\
  Kernels.do_function_derivatives_Scalar (num := double_number) 1
    (<[1 := number_of_nat 9]> (numbers [2; 3; 5])) example_gradients
    example_scalar_data [tensor_zero 1]
  = Kernels.do_function_derivatives_Scalar (num := double_number) 1
      (numbers [2; 3; 5]) example_gradients example_scalar_data
      [tensor_zero 1].
Proof.
  destruct (zero_shape_function_coefficient_is_ignored
              (num := double_number) 2 2 example_symmetric_unrolled
              example_symmetric_index example_tensor_unrolled)
    as [Hview Hscalar].
  split.
  - destruct (Hview example_zero_data 0 (number_of_nat 9) (numbers [7])
                eq_refl)
      as (_ & H & _).
    apply (H 1 example_gradients [tensor_zero 2]).
  - destruct (Hscalar example_scalar_data 1 (number_of_nat 9)
                (numbers [2; 3; 5]) eq_refl)
      as (_ & H & _).
    apply (H 1 example_gradients [tensor_zero 1]).
Defined.

(** ** The zero test *)

#[global] Instance never_filter_laws (num : NumberType) :
  NumberLaws num -> NumberLaws (never_filter num).
Proof.
  intros laws. split.
  - exact (@number_ring num laws).
  - exact (@num_half_half num laws).
  - intros x H. discriminate H.
Qed.

Section ZeroTest.
Context {num : NumberType} {laws : NumberLaws num}.

Variable spacedim : nat.
Variable symmetric_unrolled_to_component_indices : nat -> nat * nat.
Variable symmetric_component_to_unrolled_index : nat * nat -> nat.

(** Two arrays that contract the same coefficients with the same basis,
    one computed with the zero test of [num] and one without a zero
    test, agree. *)
Lemma contracts_agree (rank : nat) (phi : nat -> nat -> Tensor rank)
    (dof_values : list Number) (out out' : list (Tensor rank)) :
  @contracts num rank phi dof_values out ->
  @contracts (never_filter num) rank phi dof_values out' ->
  forall q w w', out !! q = Some w -> out' !! q = Some w' ->
    tensor_eq rank w w'.
Proof.
  intros H H' q w w' Hw Hw'.
  eapply tensor_eq_trans; [exact (H q w Hw)|].
  apply tensor_eq_sym. exact (H' q w' Hw').
Qed.

End ZeroTest.

(** In exact arithmetic the zero test is a shortcut that never changes a
    result: a kernel that skips the coefficients that are zero and the
    same kernel for a number type whose zero test filters nothing, as
    for the automatically differentiable numbers, return the same values
    at every quadrature point. In double precision the zero test can be
    observed: for a coefficient that is zero and a table entry that is
    infinite, the kernel with the zero test returns 0 and the kernel
    without it returns a NaN. *)
Theorem zero_test_is_neutral :
  (forall (num : NumberType), NumberLaws num ->
   forall (spacedim : nat)
          (symmetric_unrolled_to_component_indices : nat -> nat * nat)
          (symmetric_component_to_unrolled_index : nat * nat -> nat)
          (dof_values : list Number),
    (forall order shape_derivatives shape_function_data derivatives q_point
            (w w' : Tensor order),
       Kernels.do_function_derivatives_Scalar (num := num) order dof_values
         shape_derivatives shape_function_data derivatives !! q_point
       = Some w ->
       Kernels.do_function_derivatives_Scalar (num := never_filter num) order
         dof_values shape_derivatives shape_function_data derivatives
         !! q_point = Some w' ->
       tensor_eq order w w') /\
    (forall shape_values shape_function_data values q_point (w w' : Number),
       Kernels.do_function_values_Scalar (num := num) dof_values shape_values
         shape_function_data values !! q_point = Some w ->
       Kernels.do_function_values_Scalar (num := never_filter num) dof_values
         shape_values shape_function_data values !! q_point = Some w' ->
       w = w') /\
    (forall shape_hessians shape_function_data laplacians q_point
            (w w' : Number),
       Kernels.do_function_laplacians_Scalar (num := num) spacedim dof_values
         shape_hessians shape_function_data laplacians !! q_point = Some w ->
       Kernels.do_function_laplacians_Scalar (num := never_filter num)
         spacedim dof_values shape_hessians shape_function_data laplacians
         !! q_point = Some w' ->
       w = w') /\
    (forall shape_values shape_function_data values q_point (w w' : Tensor 1),
       Kernels.do_function_values_Vector (num := num) spacedim dof_values
         shape_values shape_function_data values !! q_point = Some w ->
       Kernels.do_function_values_Vector (num := never_filter num) spacedim
         dof_values shape_values shape_function_data values !! q_point
       = Some w' ->
       tensor_eq 1 w w') /\
    (forall order shape_derivatives shape_function_data derivatives q_point
            (w w' : Tensor (S order)),
       Kernels.do_function_derivatives_Vector (num := num) spacedim order
         dof_values shape_derivatives shape_function_data derivatives
         !! q_point = Some w ->
       Kernels.do_function_derivatives_Vector (num := never_filter num)
         spacedim order dof_values shape_derivatives shape_function_data
         derivatives !! q_point = Some w' ->
       tensor_eq (S order) w w') /\
    (forall shape_gradients shape_function_data symmetric_gradients q_point
            (w w' : SymmetricTensor2),
       Kernels.do_function_symmetric_gradients_Vector (num := num) spacedim
         symmetric_unrolled_to_component_indices dof_values shape_gradients
         shape_function_data symmetric_gradients !! q_point = Some w ->
       Kernels.do_function_symmetric_gradients_Vector
         (num := never_filter num) spacedim
         symmetric_unrolled_to_component_indices dof_values shape_gradients
         shape_function_data symmetric_gradients !! q_point = Some w' ->
       tensor_eq 1 w w') /\
    (forall shape_gradients shape_function_data divergences q_point
            (w w' : Number),
       Kernels.do_function_divergences_Vector (num := num) spacedim
         dof_values shape_gradients shape_function_data divergences
         !! q_point = Some w ->
       Kernels.do_function_divergences_Vector (num := never_filter num)
         spacedim dof_values shape_gradients shape_function_data divergences
         !! q_point = Some w' ->
       w = w') /\
    (forall shape_hessians shape_function_data laplacians q_point
            (w w' : Tensor 1),
       Kernels.do_function_laplacians_Vector (num := num) spacedim dof_values
         shape_hessians shape_function_data laplacians !! q_point = Some w ->
       Kernels.do_function_laplacians_Vector (num := never_filter num)
         spacedim dof_values shape_hessians shape_function_data laplacians
         !! q_point = Some w' ->
       tensor_eq 1 w w') /\
    (forall shape_values shape_function_data values q_point
            (w w' : SymmetricTensor2),
       Kernels.do_function_values_SymmetricTensor (num := num) spacedim
         symmetric_unrolled_to_component_indices
         symmetric_component_to_unrolled_index dof_values shape_values
         shape_function_data values !! q_point = Some w ->
       Kernels.do_function_values_SymmetricTensor (num := never_filter num)
         spacedim symmetric_unrolled_to_component_indices
         symmetric_component_to_unrolled_index dof_values shape_values
         shape_function_data values !! q_point = Some w' ->
       tensor_eq 1 w w')) /\
  (let shape_function_data :=
     [{| FEValuesViews.scalar_is_nonzero_shape_function_component := true;
         FEValuesViews.scalar_row_index := 0%N |}] in
   let shape_values : Table (@Number double_number) :=
     fun _ _ => PrimFloat.infinity in
   Kernels.do_function_values_Scalar (num := double_number) [0%float]
     shape_values shape_function_data [0%float] = [0%float] /\
   Kernels.do_function_values_Scalar (num := never_filter double_number)
     [0%float] shape_values shape_function_data [0%float]
   = [PrimFloat.nan]).
Proof.
  split; [|split; reflexivity].
  intros num laws spacedim symmetric_unrolled_to_component_indices
    symmetric_component_to_unrolled_index dof_values.
  repeat match goal with |- _ /\ _ => split end.
  - intros order table data out q w w' Hw Hw'.
    exact (contracts_agree order _ _ _ _
             (proj2 (do_function_derivatives_Scalar_contracts (num := num)
                       order dof_values table data out))
             (proj2 (do_function_derivatives_Scalar_contracts
                       (num := never_filter num) order dof_values table
                       data out))
             q w w' Hw Hw').
  - intros table data out q w w' Hw Hw'.
    exact (contracts_agree 0 _ _ _ _
             (proj2 (do_function_values_Scalar_contracts (num := num)
                       dof_values table data out))
             (proj2 (do_function_values_Scalar_contracts
                       (num := never_filter num) dof_values table data out))
             q w w' Hw Hw').
  - intros table data out q w w' Hw Hw'.
    exact (contracts_agree 0 _ _ _ _
             (proj2 (do_function_laplacians_Scalar_contracts (num := num)
                       spacedim dof_values table data out))
             (proj2 (do_function_laplacians_Scalar_contracts
                       (num := never_filter num) spacedim dof_values table
                       data out))
             q w w' Hw Hw').
  - intros table data out q w w' Hw Hw'.
    exact (contracts_agree 1 _ _ _ _
             (proj2 (do_function_values_Vector_contracts (num := num)
                       spacedim dof_values table data out))
             (proj2 (do_function_values_Vector_contracts
                       (num := never_filter num) spacedim dof_values table
                       data out))
             q w w' Hw Hw').
  - intros order table data out q w w' Hw Hw'.
    exact (contracts_agree (S order) _ _ _ _
             (proj2 (do_function_derivatives_Vector_contracts (num := num)
                       spacedim order dof_values table data out))
             (proj2 (do_function_derivatives_Vector_contracts
                       (num := never_filter num) spacedim order dof_values
                       table data out))
             q w w' Hw Hw').
  - intros table data out q w w' Hw Hw'.
    exact (contracts_agree 1 _ _ _ _
             (proj2 (do_function_symmetric_gradients_Vector_contracts
                       (num := num) spacedim
                       symmetric_unrolled_to_component_indices dof_values
                       table data out))
             (proj2 (do_function_symmetric_gradients_Vector_contracts
                       (num := never_filter num) spacedim
                       symmetric_unrolled_to_component_indices dof_values
                       table data out))
             q w w' Hw Hw').
  - intros table data out q w w' Hw Hw'.
    exact (contracts_agree 0 _ _ _ _
             (proj2 (do_function_divergences_Vector_contracts (num := num)
                       spacedim dof_values table data out))
             (proj2 (do_function_divergences_Vector_contracts
                       (num := never_filter num) spacedim dof_values table
                       data out))
             q w w' Hw Hw').
  - intros table data out q w w' Hw Hw'.
    exact (contracts_agree 1 _ _ _ _
             (proj2 (do_function_laplacians_Vector_contracts (num := num)
                       spacedim dof_values table data out))
             (proj2 (do_function_laplacians_Vector_contracts
                       (num := never_filter num) spacedim dof_values table
                       data out))
             q w w' Hw Hw').
  - intros table data out q w w' Hw Hw'.
    exact (contracts_agree 1 _ _ _ _
             (proj2 (component_kernel_contracts (num := num) 0
                       (SymmetricTensor_n_independent_components spacedim)
                       (fun d =>
                          symmetric_component_to_unrolled_index
                            (symmetric_unrolled_to_component_indices d))
                       table dof_values data out))
             (proj2 (component_kernel_contracts (num := never_filter num) 0
                       (SymmetricTensor_n_independent_components spacedim)
                       (fun d =>
                          symmetric_component_to_unrolled_index
                            (symmetric_unrolled_to_component_indices d))
                       table dof_values data out))
             q w w' Hw Hw').
Qed.

(** The gradient of a vector field on [example_fe] whose first
    coefficient is zero, with and without the zero test, in rational
    arithmetic. *)
Lemma zero_test_is_neutral_witness :
  tensor_eq (num := rational_number) 2
    (Kernels.do_function_derivatives_Vector (num := rational_number) 2 1
       (numbers [0; 3; 5]) example_gradients example_vector_data
       [tensor_zero 2] !!! 0)
    (Kernels.do_function_derivatives_Vector
       (num := never_filter rational_number) 2 1
       (numbers (num := rational_number) [0; 3; 5])
       (example_gradients (num := rational_number)) example_vector_data
       [tensor_zero (num := rational_number) 2] !!! 0).
Proof.
  destruct (proj1 zero_test_is_neutral rational_number _ 2
              example_symmetric_unrolled example_symmetric_index
              (numbers [0; 3; 5])) as (_ & _ & _ & _ & H & _).
  apply (H 1 example_gradients example_vector_data [tensor_zero 2] 0);
    apply list_lookup_lookup_total_lt; vm_compute; lia.
Defined.

(** ** Sequences of reinit calls *)

Section ReinitSequences.
Variables dim spacedim : nat.
Variable mesh : Mesh.
Variable fill_fe_values :
  Cell mesh -> CellSimilarity.Similarity -> CellSimilarity.Similarity.

Lemma maybe_invalidate_cell_similarity (cell : Cell mesh)
    (fev : FEValuesBase mesh) :
  cell_similarity (maybe_invalidate_previous_present_cell mesh cell fev)
  = cell_similarity fev.
Proof.
  unfold maybe_invalidate_previous_present_cell.
  destruct (present_cell fev) as [previous|]; [|reflexivity].
  now destruct (same_triangulation mesh cell previous).
Qed.

Lemma reinit_present_cell (n_threads : nat) (cell : Cell mesh)
    (fev : FEValuesBase mesh) :
  present_cell (reinit dim spacedim mesh fill_fe_values n_threads cell fev)
  = Some cell.
Proof. unfold reinit, do_reinit. simpl. now destruct (update_mapping _). Qed.

(** The classification when a cell is bound and the classification
    stored is not [invalid_next_cell]. *)
Lemma check_cell_similarity_bound (n_threads : nat) (cell previous : Cell mesh)
    (fev : FEValuesBase mesh) :
  n_threads <= 1 ->
  present_cell fev = Some previous ->
  cell_similarity fev <> CellSimilarity.invalid_next_cell ->
  cell_similarity (check_cell_similarity dim spacedim mesh n_threads cell fev)
  = if is_translation_of mesh cell previous
    then if (dim <? spacedim)
            && negb (Bool.eqb (direction_flag mesh previous)
                       (direction_flag mesh cell))
         then CellSimilarity.inverted_translation
         else CellSimilarity.translation
    else CellSimilarity.none.
Proof.
  clear fill_fe_values. intros Hn Hp Hcs. unfold check_cell_similarity.
  apply Nat.ltb_ge in Hn. rewrite Hn, Hp.
  destruct (CellSimilarity.eqb (cell_similarity fev)
              CellSimilarity.invalid_next_cell) eqn:E;
    [apply similarity_eqb_eq in E; contradiction|].
  destruct (is_translation_of mesh cell previous); simpl.
  - rewrite Hp, Bool.andb_true_r.
    destruct (dim <? spacedim); simpl; [|reflexivity].
    now destruct (negb _).
  - now rewrite Bool.andb_false_r.
Qed.

(** A reinit on a cell of another triangulation than that of the bound
    cell forgets the bound cell before it classifies: whatever the two
    cells, the number of threads and the classification stored, the
    classification handed to the mapping is [none], and it is the
    classification after the reinit when the mapping is not asked to
    fill. *)
Theorem reinit_on_another_triangulation (n_threads : nat)
    (cell previous : Cell mesh) (fev : FEValuesBase mesh) :
  present_cell fev = Some previous ->
  same_triangulation mesh cell previous = false ->
  let classified :=
    check_cell_similarity dim spacedim mesh n_threads cell
      (maybe_invalidate_previous_present_cell mesh cell fev) in
  cell_similarity classified = CellSimilarity.none /\
  cell_similarity
    (reinit dim spacedim mesh fill_fe_values n_threads cell fev)
  = (if update_mapping fev
     then fill_fe_values cell CellSimilarity.none
     else CellSimilarity.none) /\
  present_cell (reinit dim spacedim mesh fill_fe_values n_threads cell fev)
  = Some cell.
Proof.
  intros Hp Hother classified.
  assert (Hnone : cell_similarity classified = CellSimilarity.none).
  { unfold classified, maybe_invalidate_previous_present_cell,
      check_cell_similarity.
    rewrite Hp, Hother. simpl.
    destruct (1 <? n_threads); [reflexivity|].
    simpl. now rewrite Bool.andb_false_r. }
  split; [exact Hnone|]. split; [|apply reinit_present_cell].
  unfold reinit, do_reinit. fold classified. simpl.
  assert (Hu : update_mapping classified = update_mapping fev).
  { unfold classified.
    rewrite check_cell_similarity_update_mapping.
    unfold maybe_invalidate_previous_present_cell.
    rewrite Hp, Hother. reflexivity. }
  rewrite Hu. destruct (update_mapping fev); simpl; now rewrite Hnone.
Qed.

(** Two reinit calls in a row, with one thread on one triangulation: the
    second call classifies its cell against the cell of the first call.
    Unless the mapping answered the first call with
    [invalid_next_cell], the classification handed to the mapping in the
    second call is [none] when the second cell is not a translate of the
    first, [inverted_translation] when it is, the cells have codimension
    at least one and their direction flags differ, and [translation]
    otherwise. *)
Theorem consecutive_reinit (n_threads : nat) (first second : Cell mesh)
    (fev : FEValuesBase mesh) :
  n_threads <= 1 ->
  same_triangulation mesh second first = true ->
  let after_first :=
    reinit dim spacedim mesh fill_fe_values n_threads first fev in
  cell_similarity after_first <> CellSimilarity.invalid_next_cell ->
  cell_similarity
    (check_cell_similarity dim spacedim mesh n_threads second
       (maybe_invalidate_previous_present_cell mesh second after_first))
  = if is_translation_of mesh second first
    then if (dim <? spacedim)
            && negb (Bool.eqb (direction_flag mesh first)
                       (direction_flag mesh second))
         then CellSimilarity.inverted_translation
         else CellSimilarity.translation
    else CellSimilarity.none.
Proof.
  intros Hn Hsame after_first Hvalid.
  pose proof (reinit_present_cell n_threads first fev) as Hp.
  fold after_first in Hp.
  assert (Hkeep : maybe_invalidate_previous_present_cell mesh second
                    after_first = after_first).
  { unfold maybe_invalidate_previous_present_cell.
    now rewrite Hp, Hsame. }
  rewrite Hkeep.
  now apply check_cell_similarity_bound.
Qed.

End ReinitSequences.

(** A context bound to cell 2 of one triangulation, with the
    classification [translation] stored, is reinitialised on cell 100 of
    the other: the classification is [none] although the cells are
    translates. *)
Lemma reinit_on_another_triangulation_witness :
  let fev : FEValuesBase example_two_triangulations :=
    Build_FEValuesBase example_two_triangulations (Some 2)
      CellSimilarity.translation true in
  cell_similarity
    (reinit 2 3 example_two_triangulations (fun _ s => s) 1 100 fev)
  = CellSimilarity.none /\
  present_cell
    (reinit 2 3 example_two_triangulations (fun _ s => s) 1 100 fev)
  = Some 100.
Proof.
  intros fev.
  destruct (reinit_on_another_triangulation 2 3 example_two_triangulations
              (fun _ s => s) 1 100 2 fev eq_refl eq_refl)
    as (_ & Hs & Hp).
  split; [exact Hs|exact Hp].
Defined.

(** A surface mesh: after a reinit on cell 4, a reinit on cell 12, a
    translate with the other direction flag, is classified as
    [inverted_translation]. *)
Lemma consecutive_reinit_witness :
  cell_similarity
    (check_cell_similarity 2 3 example_mesh 1 12
       (maybe_invalidate_previous_present_cell example_mesh 12
          (reinit 2 3 example_mesh (fun _ s => s) 1 4
             (constructed example_mesh true))))
  = CellSimilarity.inverted_translation.
Proof.
  apply (consecutive_reinit 2 3 example_mesh (fun _ s => s) 1 4 12
           (constructed example_mesh true)).
  - lia.
  - reflexivity.
  - simpl. discriminate.
Defined.

(** ** The row table of an element with primitive shape functions *)

Lemma rows_before_primitive (fe : FiniteElement) (i : nat) :
  (forall j, j < i -> count_true (nonzero_mask fe j) = 1) ->
  rows_before fe i = i.
Proof.
  induction i as [|i IH]; intros H; [reflexivity|].
  rewrite rows_before_S, IH, H by (intros; try apply H; lia). lia.
Qed.

(** When every shape function is nonzero in exactly one component, the
    row of a shape function is its own number: the table maps the pair
    of shape function [i] and its component to [i], and every other pair
    to the sentinel. *)
Theorem row_table_of_primitive_shape_functions (fe : FiniteElement) :
  fe_wf fe ->
  (forall i, i < n_dofs_per_cell fe -> n_nonzero_components fe i = 1) ->
  forall i c, i < n_dofs_per_cell fe -> c < n_components fe ->
    make_shape_function_to_row_table fe !! (i * n_components fe + c)
    = Some (if get_nonzero_components fe i c then N.of_nat i
            else invalid_unsigned_int).
Proof.
  intros Hwf Hone i c Hi Hc.
  assert (Hcount : forall j, j < n_dofs_per_cell fe ->
            count_true (nonzero_mask fe j) = 1).
  { intros j Hj. rewrite <- (wf_count fe Hwf j Hj). now apply Hone. }
  rewrite lookup_row_table by assumption.
  destruct (get_nonzero_components fe i c) eqn:Hbit; [|reflexivity].
  rewrite rows_before_primitive by (intros; apply Hcount; lia).
  pose proof (lookup_nonzero_mask fe i c Hc) as Hl. rewrite Hbit in Hl.
  apply count_true_take_lt in Hl. rewrite Hcount in Hl by assumption.
  do 2 f_equal. lia.
Qed.

Lemma example_scalar_fe_wf : fe_wf example_scalar_fe.
Proof.
  split.
  - intros [|[|[|i]]] Hi; simpl in *; try reflexivity; lia.
  - reflexivity.
Defined.

(** The row table of [example_scalar_fe] is [0, 1, 2]. *)
Lemma row_table_of_primitive_shape_functions_witness :
  make_shape_function_to_row_table example_scalar_fe = [0; 1; 2]%N /\
  forall i c, i < 3 -> c < 1 ->
    make_shape_function_to_row_table example_scalar_fe !! (i * 1 + c)
    = Some (if c =? 0 then N.of_nat i else invalid_unsigned_int).
Proof.
  split; [reflexivity|]. intros i c Hi Hc.
  apply (row_table_of_primitive_shape_functions example_scalar_fe
           example_scalar_fe_wf (fun _ _ => eq_refl) i c Hi Hc).
Defined.

(** ** The kernels of FEValuesBase for scalar elements *)

Section ScalarElements.
Context {num : NumberType}.

Lemma scalar_element_rows (fe : FiniteElement) :
  fe_wf fe -> scalar_element fe ->
  total_nonzero_pairs fe = n_dofs_per_cell fe /\
  forall i, i < n_dofs_per_cell fe ->
    nonzero_in fe i 0 = true /\
    row_of fe (make_shape_function_to_row_table fe) i 0 true = N.of_nat i.
Proof.
  intros Hwf [Hnc Hshape].
  assert (Hcount : forall j, j < n_dofs_per_cell fe ->
            count_true (nonzero_mask fe j) = 1).
  { intros j Hj. unfold nonzero_mask. rewrite Hnc. simpl.
    now rewrite (proj1 (Hshape j Hj)). }
  split.
  - unfold total_nonzero_pairs.
    rewrite first_row_rows_before by (auto; lia).
    now apply rows_before_primitive.
  - intros i Hi. destruct (Hshape i Hi) as [Hbit Hsci]. split.
    + unfold nonzero_in. rewrite Hsci, Hbit. now destruct (_ || _).
    + unfold row_of.
      pose proof (lookup_row_table fe i 0 Hwf Hi ltac:(lia)) as Hl.
      rewrite Hbit, Hnc, Nat.mul_1_r, Nat.add_0_r in Hl.
      rewrite Hnc, Nat.mul_1_r, Nat.add_0_r.
      rewrite (list_lookup_total_correct _ _ _ Hl).
      rewrite rows_before_primitive by (intros; apply Hcount; lia).
      simpl. f_equal. lia.
Qed.

(** For a scalar element the kernels of the evaluation context and the
    kernels of the scalar view of component 0 are the same functions:
    the constructor of the view returns, and for one coefficient per
    shape function, tables with one row per shape function and any
    output array, the values, the derivatives of every order and the
    Laplacians that the context computes are those that the view
    computes. *)
Theorem scalar_element_kernels_agree (spacedim : nat) (fe : FiniteElement) :
  fe_wf fe -> scalar_element fe ->
  exists sv, Scalar.Scalar fe 0 = Ok sv /\
    forall dof_values, length dof_values = n_dofs_per_cell fe ->
      let n_rows := total_nonzero_pairs fe in
      (forall shape_values values,
         internal.do_function_values n_rows dof_values shape_values values
         = Kernels.do_function_values_Scalar dof_values shape_values
             (scalar_shape_function_data sv) values) /\
      (forall order shape_derivatives derivatives,
         internal.do_function_derivatives order n_rows dof_values
           shape_derivatives derivatives
         = Kernels.do_function_derivatives_Scalar order dof_values
             shape_derivatives (scalar_shape_function_data sv)
             derivatives) /\
      (forall shape_hessians laplacians,
         internal.do_function_laplacians spacedim n_rows dof_values
           shape_hessians laplacians
         = Kernels.do_function_laplacians_Scalar spacedim dof_values
             shape_hessians (scalar_shape_function_data sv) laplacians).
Proof.
  intros Hwf Hscalar.
  destruct (scalar_element_rows fe Hwf Hscalar) as [Htotal Hrows].
  destruct (Scalar.Scalar fe 0) as [sv|e] eqn:Hsv; cycle 1.
  { unfold Scalar.Scalar, Assert in Hsv. destruct Hscalar as [Hnc _].
    rewrite Hnc in Hsv. discriminate Hsv. }
  exists sv. split; [reflexivity|]. intros dof_values Hdofs n_rows.
  pose proof (Scalar_length fe 0 sv Hsv) as Hlen.
  assert (Hdata : forall i, i < n_dofs_per_cell fe ->
            scalar_is_nonzero_shape_function_component
              (scalar_shape_function_data sv !!! i) = true /\
            N.to_nat (scalar_row_index
                        (scalar_shape_function_data sv !!! i)) = i).
  { intros i Hi.
    destruct (lookup_lt_is_Some_2 (scalar_shape_function_data sv) i)
      as [s Hs]; [lia|].
    rewrite (list_lookup_total_correct _ _ _ Hs).
    destruct (Scalar_data fe 0 sv i s Hsv Hs) as (_ & Hflag & Hrow).
    destruct (Hrows i Hi) as [Hnz Hr].
    rewrite Hflag, Hrow, Hnz, Hr. split; [reflexivity|lia]. }
  unfold n_rows. rewrite Htotal.
  repeat match goal with |- _ /\ _ => split end; intros;
    unfold internal.do_function_values, internal.do_function_derivatives,
      internal.do_function_laplacians, Kernels.do_function_values_Scalar,
      Kernels.do_function_derivatives_Scalar,
      Kernels.do_function_laplacians_Scalar;
    cbv zeta; rewrite Hdofs;
    apply foldl_ext_seq; intros out k Hk;
    destruct (Hdata k Hk) as [Hflag Hrow]; now rewrite Hflag, Hrow.
Qed.

End ScalarElements.

Lemma example_scalar_fe_scalar : scalar_element example_scalar_fe.
Proof. split; [reflexivity|]. intros i _. split; reflexivity. Defined.

(** The values and the gradients on [example_scalar_fe], computed by
    the evaluation context and by the scalar view of component 0. *)
Lemma scalar_element_kernels_agree_witness :
  exists sv, Scalar.Scalar example_scalar_fe 0 = Ok sv /\
    internal.do_function_values (num := double_number) 3
      (numbers [2; 3; 5]) (fun r q => example_gradients r q 0)
      (numbers [0; 0])
    = Kernels.do_function_values_Scalar (num := double_number)
        (numbers [2; 3; 5]) (fun r q => example_gradients r q 0)
        (scalar_shape_function_data sv) (numbers [0; 0]) /\
    internal.do_function_derivatives (num := double_number) 1 3
      (numbers [2; 3; 5]) example_gradients [tensor_zero 1]
    = Kernels.do_function_derivatives_Scalar (num := double_number) 1
        (numbers [2; 3; 5]) example_gradients
        (scalar_shape_function_data sv) [tensor_zero 1].
Proof.
  destruct (scalar_element_kernels_agree (num := double_number) 2
              example_scalar_fe example_scalar_fe_wf
              example_scalar_fe_scalar) as (sv & Hsv & H).
  exists sv. split; [exact Hsv|].
  destruct (H (numbers [2; 3; 5]) eq_refl) as (Hv & Hd & _).
  split; [apply Hv|apply Hd].
Defined.

(** ** The kernels of FEValuesBase for elements with several components *)

Section ComponentKernels.
Context {num : NumberType}.

(** A loop that keeps an invariant indexed by the iteration. *)
Lemma foldl_invariant {A} (f : A -> nat -> A) (P : nat -> A -> Prop)
    (n : nat) (a : A) :
  P 0 a -> (forall a k, k < n -> P k a -> P (S k) (f a k)) ->
  P n (foldl f a (seq 0 n)).
Proof.
  intros H0 Hstep. induction n as [|n IH]; [exact H0|].
  rewrite seq_S, foldl_app. simpl. apply Hstep; [lia|].
  apply IH. intros a0 k Hk. apply Hstep. lia.
Qed.

Lemma has_size_alter {T} (rows columns : nat) (f : T -> T) (i j : nat)
    (values : list (list T)) :
  has_size rows columns values ->
  has_size rows columns (alter (alter f j) i values).
Proof.
  intros [Hlen Hrows]. split; [now rewrite length_alter|].
  intros k row. destruct (decide (i = k)) as [->|Hne].
  - rewrite list_lookup_alter_eq.
    destruct (values !! k) as [r|] eqn:E; [|discriminate].
    intros [= <-]. rewrite length_alter. eauto.
  - rewrite list_lookup_alter_ne by assumption. apply Hrows.
Qed.

Lemma has_size_add_row (rank : nat) (rows columns : nat) (fastest : bool)
    (n_quadrature_points comp : nat) (value : Number)
    (table : Table (Tensor rank)) (r : nat)
    (values : list (list (Tensor rank))) :
  has_size rows columns values ->
  has_size rows columns
    (internal.add_row fastest n_quadrature_points comp value table r
       values).
Proof.
  intros H. unfold internal.add_row, internal.add_at.
  destruct fastest;
    apply (foldl_invariant _ (fun _ v => has_size rows columns v));
    try assumption; intros; now apply has_size_alter.
Qed.

(** A loop that alters element [i] in iteration [i] of a list of its
    length is a map with index. *)
Lemma foldl_alter_imap {A} (g : nat -> A -> A) (data : list A) :
  foldl (fun (data : list A) i => alter (g i) i data) data
    (seq 0 (length data))
  = imap g data.
Proof.
  apply list_eq. intros i.
  rewrite lookup_foldl_alter, list_lookup_imap.
  destruct (decide (i < length data)) as [Hi|Hi]; [reflexivity|].
  now rewrite (lookup_ge_None_2 data i) by lia.
Qed.

(** A loop that alters the same element in every iteration. *)
Lemma foldl_alter_same {A} (h : nat -> A -> A) (i : nat) (l : list nat)
    (data : list A) :
  foldl (fun (data : list A) k => alter (h k) i data) data l
  = alter (fun x => foldl (fun x k => h k x) x l) i data.
Proof.
  revert data. induction l as [|k l IH]; intros data; simpl.
  - symmetry. apply list_alter_id. reflexivity.
  - rewrite IH. apply list_alter_alter_eq.
Qed.

(** When the components run fastest, adding a row to component [comp]
    changes column [comp] as the loop over the quadrature points of a
    kernel with one component does, and leaves the other columns
    alone. *)
Lemma column_add_row (rank : nat) (n_q result_components : nat)
    (comp c : nat) (value : Number) (table : Table (Tensor rank))
    (r : nat) (values : list (list (Tensor rank))) :
  has_size n_q result_components values -> c < result_components ->
  column c (internal.add_row false n_q comp value table r values)
  = if c =? comp
    then for_each_q_point (column c values)
           (fun point v =>
              tensor_add rank v (tensor_scale rank value (table r point)))
    else column c values.
Proof.
  intros [Hlen Hrows] Hc. unfold internal.add_row, internal.add_at, column.
  apply list_eq. intros p. change (map ?f ?l) with (f <$> l).
  rewrite list_lookup_fmap.
  rewrite (lookup_foldl_alter
             (fun point =>
                alter
                  (fun v =>
                     tensor_add rank v
                       (tensor_scale rank value (table r point))) comp)).
  destruct (decide (p < n_q)) as [Hp|Hp]; cycle 1.
  { rewrite (lookup_ge_None_2 values p) by lia. simpl.
    destruct (c =? comp); [|now rewrite list_lookup_fmap,
                               (lookup_ge_None_2 values p) by lia].
    unfold for_each_q_point.
    now rewrite list_lookup_imap, list_lookup_fmap,
      (lookup_ge_None_2 values p) by lia. }
  destruct (lookup_lt_is_Some_2 values p) as [row Hrow]; [lia|].
  rewrite Hrow. simpl.
  destruct (lookup_lt_is_Some_2 row c) as [v Hv];
    [rewrite (Hrows p row Hrow); lia|].
  destruct (Nat.eqb_spec c comp) as [->|Hne].
  - unfold for_each_q_point.
    rewrite list_lookup_imap, list_lookup_fmap, Hrow. simpl.
    now rewrite list_lookup_alter_eq, Hv.
  - rewrite list_lookup_fmap, Hrow. simpl.
    now rewrite list_lookup_alter_ne by congruence.
Qed.

(** When the quadrature points run fastest, adding a row to component
    [comp] changes row [comp] in the same way. *)
Lemma row_add_row (rank : nat) (n_q result_components : nat)
    (comp c : nat) (value : Number) (table : Table (Tensor rank))
    (r : nat) (values : list (list (Tensor rank)))
    (row : list (Tensor rank)) :
  has_size result_components n_q values ->
  values !! c = Some row ->
  internal.add_row true n_q comp value table r values !! c
  = Some (if c =? comp
          then for_each_q_point row
                 (fun point v =>
                    tensor_add rank v
                      (tensor_scale rank value (table r point)))
          else row).
Proof.
  intros [Hlen Hrows] Hrow. unfold internal.add_row, internal.add_at.
  rewrite (foldl_alter_same
             (fun point =>
                alter
                  (fun v =>
                     tensor_add rank v
                       (tensor_scale rank value (table r point))) point)).
  destruct (Nat.eqb_spec c comp) as [<-|Hne].
  - rewrite list_lookup_alter_eq, Hrow. simpl. f_equal.
    rewrite <- (Hrows c row Hrow).
    apply (foldl_alter_imap
             (fun point v =>
                tensor_add rank v
                  (tensor_scale rank value (table r point)))).
  - now rewrite list_lookup_alter_ne by congruence.
Qed.

Lemma has_layout_add_row (rank : nat) (fastest : bool) (n_q R : nat)
    (comp : nat) (value : Number) (table : Table (Tensor rank)) (r : nat)
    (values : list (list (Tensor rank))) :
  has_layout fastest n_q R values ->
  has_layout fastest n_q R
    (internal.add_row fastest n_q comp value table r values).
Proof.
  unfold has_layout. destruct fastest; apply has_size_add_row.
Qed.

(** Adding a row to component [comp] changes component [comp] of the
    result, in either layout, as the loop over the quadrature points of
    a kernel with one component does, and leaves the other components
    alone. *)
Lemma component_of_add_row (rank : nat) (fastest : bool) (n_q R : nat)
    (comp c : nat) (value : Number) (table : Table (Tensor rank))
    (r : nat) (values : list (list (Tensor rank))) :
  has_layout fastest n_q R values -> c < R ->
  component_of fastest c
    (internal.add_row fastest n_q comp value table r values)
  = if c =? comp
    then for_each_q_point (component_of fastest c values)
           (fun point v =>
              tensor_add rank v (tensor_scale rank value (table r point)))
    else component_of fastest c values.
Proof.
  unfold has_layout, component_of. destruct fastest; intros Hsize Hc.
  - destruct (lookup_lt_is_Some_2 values c) as [row Hrow];
      [destruct Hsize; lia|].
    rewrite (row_add_row rank n_q R comp c value table r values row
               Hsize Hrow), Hrow.
    simpl. now destruct (c =? comp).
  - now apply (column_add_row rank n_q R).
Qed.

Lemma dimensions_ok_spec {T} (fastest : bool) (n_q R : nat)
    (values : list (list T)) :
  internal.dimensions_ok fastest n_q R values = true
  <-> has_layout fastest n_q R values.
Proof.
  assert (H : forall rows columns,
            (length values =? rows)
            && forallb (fun v : list T => length v =? columns) values = true
            <-> has_size rows columns values).
  { intros rows columns. unfold has_size.
    rewrite Bool.andb_true_iff, Nat.eqb_eq, forallb_forall.
    split; intros [Hlen Hrows]; (split; [exact Hlen|]).
    - intros i row Hrow. apply Nat.eqb_eq, Hrows.
      apply list_elem_of_In. eapply list_elem_of_lookup_2; eauto.
    - intros row Hin. apply list_elem_of_In in Hin.
      apply list_elem_of_lookup_1 in Hin. destruct Hin as [i Hi].
      apply Nat.eqb_eq. eauto. }
  unfold internal.dimensions_ok, has_layout. destruct fastest; apply H.
Qed.

(** Every row that the kernels read for one coefficient per shape
    function is a row of a table of [n_rows] rows. *)
Local Abbreviation rows_in_table fe tbl n_rows :=
  (forall k, k < n_dofs_per_cell fe ->
     if is_primitive_shape fe k
     then N.lt
            (tbl !!! (k * n_components fe + system_to_component_index fe k))
            (N.of_nat n_rows)
     else forall c, c < n_components fe ->
            get_nonzero_components fe k c = true ->
            N.lt (tbl !!! (k * n_components fe + c)) (N.of_nat n_rows)).

(** The rows that the row table of an element holds for the nonzero
    components of its shape functions are rows of a table with a row for
    each pair of a shape function and a nonzero component. *)
Lemma rows_of_element (fe : FiniteElement) (n_rows : nat) :
  fe_wf fe -> fe_primitive_wf fe -> fe_component_wf fe ->
  total_nonzero_pairs fe <= n_rows ->
  rows_in_table fe (make_shape_function_to_row_table fe) n_rows.
Proof.
  intros Hwf Hprim Hcomp Hrows k Hk.
  assert (H : forall c, c < n_components fe ->
            get_nonzero_components fe k c = true ->
            N.lt
              (make_shape_function_to_row_table fe
                 !!! (k * n_components fe + c))
              (N.of_nat n_rows)).
  { intros c Hc Hbit.
    pose proof (lookup_row_table fe k c Hwf Hk Hc) as Hl.
    rewrite Hbit in Hl. rewrite (list_lookup_total_correct _ _ _ Hl).
    pose proof (row_number_lt_total fe k c Hwf Hk Hc Hbit). lia. }
  destruct (is_primitive_shape fe k) eqn:E; [|exact H].
  apply H; [now apply Hcomp|]. apply Hprim; [exact Hk|].
  rewrite E. apply Bool.orb_true_r.
Qed.

(** The loop over the components of a shape function that is not
    primitive. *)
Lemma component_of_nonprimitive (rank : nat) (fe : FiniteElement)
    (tbl : list N) (n_rows : nat) (table : Table (Tensor rank))
    (fastest : bool) (n_q : nat) (value : Number) (shape_func : nat)
    (values : list (list (Tensor rank))) :
  has_layout fastest n_q (n_components fe) values ->
  (forall c, c < n_components fe ->
     get_nonzero_components fe shape_func c = true ->
     N.lt (tbl !!! (shape_func * n_components fe + c)) (N.of_nat n_rows)) ->
  exists values',
    foldl
      (fun values c =>
         and_then values
           (fun values =>
              if negb (get_nonzero_components fe shape_func c)
              then Computed values
              else
                table_row_at n_rows
                  (tbl !!! (shape_func * n_components fe + c))
                  (Computed
                     (internal.add_row fastest n_q
                        (c + 0 * n_components fe) value table
                        (N.to_nat
                           (tbl !!! (shape_func * n_components fe + c)))
                        values))))
      (Computed values) (seq 0 (n_components fe)) = Computed values' /\
    has_layout fastest n_q (n_components fe) values' /\
    forall c, c < n_components fe ->
      component_of fastest c values'
      = if get_nonzero_components fe shape_func c
        then for_each_q_point (component_of fastest c values)
               (fun point v =>
                  tensor_add rank v
                    (tensor_scale rank value
                       (table
                          (N.to_nat
                             (tbl !!! (shape_func * n_components fe + c)))
                          point)))
        else component_of fastest c values.
Proof.
  intros Hsize Hrows.
  assert (H : exists values',
            foldl
              (fun values c =>
                 and_then values
                   (fun values =>
                      if negb (get_nonzero_components fe shape_func c)
                      then Computed values
                      else
                        table_row_at n_rows
                          (tbl !!! (shape_func * n_components fe + c))
                          (Computed
                             (internal.add_row fastest n_q
                                (c + 0 * n_components fe) value table
                                (N.to_nat
                                   (tbl !!! (shape_func * n_components fe
                                             + c)))
                                values))))
              (Computed values) (seq 0 (n_components fe))
            = Computed values' /\
            has_layout fastest n_q (n_components fe) values' /\
            forall c, c < n_components fe ->
              component_of fastest c values'
              = if c <? n_components fe
                then if get_nonzero_components fe shape_func c
                     then for_each_q_point (component_of fastest c values)
                            (fun point v =>
                               tensor_add rank v
                                 (tensor_scale rank value
                                    (table
                                       (N.to_nat
                                          (tbl !!! (shape_func
                                                    * n_components fe + c)))
                                       point)))
                     else component_of fastest c values
                else component_of fastest c values).
  { apply (foldl_invariant _
             (fun j res =>
                exists v,
                  res = Computed v /\
                  has_layout fastest n_q (n_components fe) v /\
                  forall c, c < n_components fe ->
                    component_of fastest c v
                    = if c <? j
                      then if get_nonzero_components fe shape_func c
                           then for_each_q_point
                                  (component_of fastest c values)
                                  (fun point v =>
                                     tensor_add rank v
                                       (tensor_scale rank value
                                          (table
                                             (N.to_nat
                                                (tbl !!! (shape_func
                                                          * n_components fe
                                                          + c)))
                                             point)))
                           else component_of fastest c values
                      else component_of fastest c values)
             (n_components fe) (Computed values)).
    - exists values. split; [reflexivity|]. split; [exact Hsize|].
      reflexivity.
    - intros res j Hj (v & -> & Hv & Hcomp). simpl and_then.
      rewrite ?Nat.mul_0_l, ?Nat.add_0_r.
      destruct (get_nonzero_components fe shape_func j) eqn:Hbit; simpl.
      + unfold table_row_at.
        rewrite (proj2 (N.ltb_lt _ _) (Hrows j Hj Hbit)).
        eexists. split; [reflexivity|].
        split; [now apply has_layout_add_row|]. intros c Hc.
        rewrite (component_of_add_row rank fastest n_q (n_components fe))
          by assumption.
        rewrite (Hcomp c Hc).
        destruct (Nat.eqb_spec c j) as [->|Hne].
        * rewrite Nat.ltb_irrefl.
          rewrite (proj2 (Nat.ltb_lt j (S j))) by lia.
          now rewrite Hbit.
        * destruct (Nat.ltb_spec c j), (Nat.ltb_spec c (S j));
            try lia; reflexivity.
      + exists v. split; [reflexivity|]. split; [exact Hv|].
        intros c Hc. rewrite (Hcomp c Hc).
        destruct (Nat.eq_dec c j) as [->|Hne].
        * rewrite Nat.ltb_irrefl.
          rewrite (proj2 (Nat.ltb_lt j (S j))) by lia.
          now rewrite Hbit.
        * destruct (Nat.ltb_spec c j), (Nat.ltb_spec c (S j));
            try lia; reflexivity. }
  destruct H as (v & Hv & Hlayout & Hcomp).
  exists v. split; [exact Hv|]. split; [exact Hlayout|].
  intros c Hc. rewrite (Hcomp c Hc).
  now rewrite (proj2 (Nat.ltb_lt _ _) Hc).
Qed.

(** For one coefficient per shape function, an array of the right sizes
    and rows that are rows of the table, the body of the kernels
    returns, keeps the sizes and computes each component as
    [component_step] does. *)
Lemma accumulate_components_component (rank : nat) (fe : FiniteElement)
    (tbl : list N) (dof_values : list Number) (n_rows : nat)
    (table : Table (Tensor rank)) (values : list (list (Tensor rank)))
    (fastest : bool) (n_q : nat) :
  rows_in_table fe tbl n_rows ->
  has_layout fastest n_q (n_components fe) values ->
  exists r,
    internal.accumulate_components fe tbl dof_values n_rows table values
      fastest 1 n_q = Computed r /\
    has_layout fastest n_q (n_components fe) r /\
    forall c, c < n_components fe ->
      component_of fastest c r
      = foldl (internal.component_step fe tbl dof_values table c)
          (component_of fastest c values) (seq 0 (n_dofs_per_cell fe)).
Proof.
  intros Hrows Hsize. unfold internal.accumulate_components.
  rewrite Nat.mul_1_r.
  rewrite (proj2 (dimensions_ok_spec fastest n_q (n_components fe) values))
    by assumption.
  simpl negb. cbv iota. cbn [seq foldl].
  apply (foldl_invariant _
           (fun k res =>
              exists r,
                res = Computed r /\
                has_layout fastest n_q (n_components fe) r /\
                forall c, c < n_components fe ->
                  component_of fastest c r
                  = foldl
                      (internal.component_step fe tbl dof_values table c)
                      (component_of fastest c values) (seq 0 k))
           (n_dofs_per_cell fe) (Computed values)).
  - exists values. split; [reflexivity|]. split; [exact Hsize|].
    reflexivity.
  - intros res k Hk (v & -> & Hv & Hcomp). simpl and_then.
    rewrite ?Nat.mul_0_l, ?Nat.add_0_r.
    pose proof (Hrows k Hk) as Hrow.
    destruct (CheckForZero (dof_values !!! k)) eqn:Ezero.
    { exists v. split; [reflexivity|]. split; [exact Hv|].
      intros c Hc. rewrite seq_S, foldl_app. cbn [foldl].
      change (0 + k) with k. rewrite <- (Hcomp c Hc).
      unfold internal.component_step. now rewrite Ezero. }
    destruct (is_primitive_shape fe k) eqn:Eprim.
    + unfold table_row_at. rewrite (proj2 (N.ltb_lt _ _) Hrow).
      eexists. split; [reflexivity|].
      split; [now apply has_layout_add_row|]. intros c Hc.
      rewrite seq_S, foldl_app. cbn [foldl]. change (0 + k) with k.
      rewrite <- (Hcomp c Hc). unfold internal.component_step.
      rewrite Ezero, Eprim.
      rewrite (component_of_add_row rank fastest n_q (n_components fe))
        by assumption.
      now destruct (Nat.eqb_spec c (system_to_component_index fe k))
        as [->|Hne].
    + destruct (component_of_nonprimitive rank fe tbl n_rows table fastest
                  n_q (dof_values !!! k) k v Hv Hrow)
        as (v' & Hv' & Hlayout & Hc').
      exists v'. split; [exact Hv'|]. split; [exact Hlayout|].
      intros c Hc. rewrite seq_S, foldl_app. cbn [foldl].
      change (0 + k) with k. rewrite <- (Hcomp c Hc).
      unfold internal.component_step. rewrite Ezero, Eprim.
      exact (Hc' c Hc).
Qed.

Lemma has_layout_fill_all {T} (fastest : bool) (n_q R : nat) (zero : T)
    (values : list (list T)) :
  has_layout fastest n_q R values ->
  has_layout fastest n_q R (internal.fill_all zero values).
Proof.
  assert (H : forall rows columns,
            has_size rows columns values ->
            has_size rows columns (internal.fill_all zero values)).
  { intros rows columns [Hlen Hrows]. unfold internal.fill_all, fill.
    split; [now rewrite length_map|].
    intros i row. change (map ?f ?l) with (f <$> l).
    rewrite list_lookup_fmap.
    destruct (values !! i) as [row'|] eqn:E; [|discriminate].
    intros [= <-]. rewrite length_fmap. eauto. }
  unfold has_layout. destruct fastest; apply H.
Qed.

Lemma component_of_fill_all (rank : nat) (fastest : bool) (n_q R c : nat)
    (values : list (list (Tensor rank))) :
  has_layout fastest n_q R values -> c < R ->
  component_of fastest c (internal.fill_all (tensor_zero rank) values)
  = fill (tensor_zero rank) (component_of fastest c values).
Proof.
  unfold has_layout, component_of, internal.fill_all, column, fill.
  destruct fastest; intros [Hlen Hrows] Hc.
  - change (map ?f ?l) with (f <$> l). rewrite list_lookup_fmap.
    now destruct (values !! c).
  - change (map ?f ?l) with (f <$> l).
    apply list_eq. intros p. rewrite !list_lookup_fmap.
    destruct (values !! p) as [row|] eqn:E; [|reflexivity]. simpl.
    destruct (lookup_lt_is_Some_2 row c) as [x Hx];
      [rewrite (Hrows p row E); lia|].
    change (map ?f ?l) with (f <$> l).
    now rewrite list_lookup_fmap, Hx.
Qed.

Lemma size_of_first_layout {T} (n_q R : nat) (values : list (list T)) :
  has_size R n_q values ->
  R = 0 \/ internal.size_of_first values = n_q.
Proof.
  intros [Hlen Hrows]. destruct values as [|row values]; [now left|].
  right. unfold internal.size_of_first. simpl. now apply (Hrows 0).
Qed.

Lemma has_size_no_rows {T} (columns columns' : nat)
    (values : list (list T)) :
  has_size 0 columns values -> has_size 0 columns' values.
Proof.
  intros [Hlen _]. destruct values; [|discriminate]. split; [reflexivity|].
  intros i row. now rewrite lookup_nil.
Qed.

(** The number of quadrature points that the kernels read off an array
    of the right sizes is the one of its layout. *)
Lemma layout_n_quadrature_points {T} (fastest : bool) (n_q R : nat)
    (values values' : list (list T)) :
  has_layout fastest n_q R values ->
  let n_q' :=
    if fastest then internal.size_of_first values else length values in
  (has_layout fastest n_q R values' <-> has_layout fastest n_q' R values').
Proof.
  unfold has_layout. destruct fastest; intros H; simpl.
  - destruct (size_of_first_layout _ _ _ H) as [->| ->]; [|tauto].
    split; apply has_size_no_rows.
  - destruct H as [-> _]. tauto.
Qed.

(** The kernels for elements with several components, for one
    coefficient per shape function, rows that are rows of the table and
    an array of the right sizes in either layout: they return, the
    result has the sizes of the array passed, and each of its components
    is what [component_values] accumulates. *)
Lemma do_function_derivatives_fe_component (order : nat)
    (fe : FiniteElement) (tbl : list N) (dof_values : list Number)
    (n_rows : nat) (table : Table (Tensor order))
    (derivatives : list (list (Tensor order)))
    (fastest : bool) (n_q : nat) :
  rows_in_table fe tbl n_rows ->
  has_layout fastest n_q (n_components fe) derivatives ->
  exists r,
    internal.do_function_derivatives_fe order fe tbl dof_values n_rows
      table derivatives fastest 1 = Computed r /\
    has_layout fastest n_q (n_components fe) r /\
    forall c, c < n_components fe ->
      component_of fastest c r
      = internal.component_values fe tbl dof_values table c
          (component_of fastest c derivatives).
Proof.
  intros Hrows Hsize. unfold internal.do_function_derivatives_fe.
  cbv zeta.
  pose proof (has_layout_fill_all fastest n_q (n_components fe)
                (tensor_zero order) derivatives Hsize) as Hfill.
  destruct (Nat.eqb_spec (n_dofs_per_cell fe) 0) as [Hnone|Hsome].
  - eexists. split; [reflexivity|]. split; [exact Hfill|].
    intros c Hc. unfold internal.component_values. rewrite Hnone. simpl.
    now apply (component_of_fill_all order fastest n_q (n_components fe)).
  - pose proof (layout_n_quadrature_points fastest n_q (n_components fe)
                  _ (internal.fill_all (tensor_zero order) derivatives)
                  Hfill) as Hn.
    cbv zeta in Hn.
    destruct (accumulate_components_component order fe tbl dof_values
                n_rows table _ fastest _ Hrows (proj1 Hn Hfill))
      as (r & Hr & Hlayout & Hcomp).
    exists r. split; [exact Hr|]. split.
    + apply (layout_n_quadrature_points fastest n_q (n_components fe)
               _ r Hfill). exact Hlayout.
    + intros c Hc. rewrite (Hcomp c Hc). unfold internal.component_values.
      now rewrite (component_of_fill_all order fastest n_q
                     (n_components fe)).
Qed.

(** The kernel of the values is the kernel of the derivatives of order
    zero, and so is the kernel of the Laplacians when the quadrature
    points do not run fastest, on the traces of the Hessians. *)
Lemma do_function_values_fe_order_0 (fe : FiniteElement) (tbl : list N)
    (dof_values : list Number) (n_rows : nat) (shape_values : Table Number)
    (values : list (list Number)) (fastest : bool) (m : nat) :
  internal.do_function_values_fe fe tbl dof_values n_rows shape_values
    values fastest m
  = internal.do_function_derivatives_fe 0 fe tbl dof_values n_rows
      shape_values values fastest m.
Proof. reflexivity. Qed.

Lemma do_function_laplacians_fe_order_0 (spacedim : nat)
    (fe : FiniteElement) (tbl : list N) (dof_values : list Number)
    (n_rows : nat) (shape_hessians : Table (Tensor 2))
    (laplacians : list (list Number)) (m : nat) :
  internal.do_function_laplacians_fe spacedim fe tbl dof_values n_rows
    shape_hessians laplacians false m
  = internal.do_function_derivatives_fe 0 fe tbl dof_values n_rows
      (fun r q => Kernels.trace spacedim (shape_hessians r q))
      laplacians false m.
Proof. reflexivity. Qed.

Lemma has_layout_fill_all_inv {T} (fastest : bool) (n_q R : nat) (zero : T)
    (values : list (list T)) :
  has_layout fastest n_q R (internal.fill_all zero values) ->
  has_layout fastest n_q R values.
Proof.
  assert (H : forall rows columns,
            has_size rows columns (internal.fill_all zero values) ->
            has_size rows columns values).
  { intros rows columns [Hlen Hrows]. unfold internal.fill_all, fill in *.
    split; [now rewrite length_map in Hlen|].
    intros i row Hrow.
    rewrite <- (Hrows i (map (fun _ => zero) row)); [now rewrite length_map|].
    change (map ?f values) with (f <$> values).
    now rewrite list_lookup_fmap, Hrow. }
  unfold has_layout. destruct fastest; apply H.
Qed.

Lemma size_of_first_fill_all {T} (zero : T) (values : list (list T)) :
  internal.size_of_first (internal.fill_all zero values)
  = internal.size_of_first values.
Proof.
  destruct values as [|row values]; [reflexivity|].
  unfold internal.size_of_first, internal.fill_all, fill. simpl.
  now rewrite length_map.
Qed.

Lemma length_fill_all {T} (zero : T) (values : list (list T)) :
  length (internal.fill_all zero values) = length values.
Proof. unfold internal.fill_all. now rewrite length_map. Qed.

(** The body of the kernels fails with [ExcDimensionMismatch] exactly
    when the result arrays do not pass the assertions on their sizes;
    otherwise it fails on a row that is not a row of the table or
    returns, and keeps the sizes. *)
Lemma accumulate_components_layout (rank : nat) (fe : FiniteElement)
    (tbl : list N) (dof_values : list Number) (n_rows : nat)
    (table : Table (Tensor rank)) (values : list (list (Tensor rank)))
    (fastest : bool) (m n_q : nat) :
  match
    internal.accumulate_components fe tbl dof_values n_rows table values
      fastest m n_q
  with
  | Computed r =>
      has_layout fastest n_q (n_components fe * m) values /\
      has_layout fastest n_q (n_components fe * m) r
  | ExcDimensionMismatch =>
      ~ has_layout fastest n_q (n_components fe * m) values
  | ExcTableIndexRange =>
      has_layout fastest n_q (n_components fe * m) values
  end.
Proof.
  unfold internal.accumulate_components. cbv zeta.
  pose proof (dimensions_ok_spec fastest n_q (n_components fe * m) values)
    as Hspec.
  destruct (internal.dimensions_ok fastest n_q (n_components fe * m) values);
    simpl; cycle 1.
  { intros H. apply Hspec in H. discriminate H. }
  assert (Hsize : has_layout fastest n_q (n_components fe * m) values)
    by now apply Hspec.
  pose (Q := fun res : dimension_result (list (list (Tensor rank))) =>
               match res with
               | Computed r => has_layout fastest n_q (n_components fe * m) r
               | ExcDimensionMismatch => False
               | ExcTableIndexRange => True
               end).
  assert (Hrow : forall comp value (row : N) v,
            has_layout fastest n_q (n_components fe * m) v ->
            Q (table_row_at n_rows row
                 (Computed
                    (internal.add_row fastest n_q comp value table
                       (N.to_nat row) v)))).
  { intros comp value row v Hv. unfold table_row_at.
    destruct (row <? N.of_nat n_rows)%N; simpl; [|exact I].
    now apply has_layout_add_row. }
  match goal with
  | |- match ?fold with _ => _ end =>
      assert (HQ : Q fold); [|destruct fold; simpl in HQ; tauto]
  end.
  apply (foldl_invariant _ (fun _ => Q) m (Computed values));
    [exact Hsize|].
  intros res mc _ Hres.
  apply (foldl_invariant _ (fun _ => Q) (n_dofs_per_cell fe) res);
    [exact Hres|].
  intros res' k _ Hres'.
  destruct res' as [v| |]; simpl; try exact Hres'.
  destruct (CheckForZero _); [exact Hres'|].
  destruct (is_primitive_shape fe k); [now apply Hrow|].
  apply (foldl_invariant _ (fun _ => Q) (n_components fe) (Computed v));
    [exact Hres'|].
  intros res'' j _ Hres''.
  destruct res'' as [v'| |]; simpl; try exact Hres''.
  destruct (negb _); [exact Hres''|]. now apply Hrow.
Qed.

Lemma fill_same_length {T} (zero : T) (a b : list T) :
  length a = length b -> fill zero a = fill zero b.
Proof.
  unfold fill. revert b.
  induction a as [|x a IH]; intros [|y b]; simpl; try discriminate;
    [reflexivity|].
  intros [= H]. f_equal. now apply IH.
Qed.

Lemma length_column (rank : nat) (c : nat)
    (values : list (list (Tensor rank))) :
  length (column c values) = length values.
Proof. unfold column. now rewrite length_map. Qed.

(** The step of a scalar view of component [c] is the step of the
    kernels for elements with several components in component [c]. *)
Lemma scalar_view_step (rank : nat) (fe : FiniteElement) (c : nat)
    (sv : ScalarView) (dof_values : list Number)
    (table : Table (Tensor rank)) (out : list (Tensor rank)) (k : nat) :
  fe_primitive_shapes fe ->
  Scalar.Scalar fe c = Ok sv ->
  k < n_dofs_per_cell fe ->
  (let s := scalar_shape_function_data sv !!! k in
   if scalar_is_nonzero_shape_function_component s then
     let value := dof_values !!! k in
     if CheckForZero value then out
     else
       for_each_q_point out
         (fun q_point v =>
            tensor_add rank v
              (tensor_scale rank value
                 (table (N.to_nat (scalar_row_index s)) q_point)))
   else out)
  = internal.component_step fe (make_shape_function_to_row_table fe)
      dof_values table c out k.
Proof.
  intros Hprim Hsv Hk. cbv zeta.
  pose proof (Scalar_length fe c sv Hsv) as Hlen.
  destruct (lookup_lt_is_Some_2 (scalar_shape_function_data sv) k)
    as [s Hs]; [lia|].
  rewrite (list_lookup_total_correct _ _ _ Hs).
  destruct (Scalar_data fe c sv k s Hsv Hs) as (_ & Hflag & Hrow).
  rewrite Hflag, Hrow. unfold internal.component_step, nonzero_in, row_of.
  cbv zeta.
  assert (Hp : is_primitive fe || is_primitive_shape fe k
               = is_primitive_shape fe k).
  { destruct (is_primitive fe) eqn:E; [|reflexivity]. simpl.
    symmetry. now apply Hprim. }
  rewrite Hp.
  destruct (CheckForZero (dof_values !!! k));
    destruct (if is_primitive_shape fe k
              then c =? system_to_component_index fe k
              else get_nonzero_components fe k c); reflexivity.
Qed.

Lemma has_layout_decided {T} (fastest : bool) (n_q R : nat)
    (values : list (list T)) :
  has_layout fastest n_q R values \/ ~ has_layout fastest n_q R values.
Proof.
  pose proof (dimensions_ok_spec fastest n_q R values) as H.
  destruct (internal.dimensions_ok fastest n_q R values).
  - left. now apply H.
  - right. intros Hsize. apply H in Hsize. discriminate Hsize.
Qed.


(** The two layouts of the result hold the same numbers. For one
    coefficient per shape function, the row table of the element, a
    table with a row for each pair of a shape function and a nonzero
    component, an array with a row of quadrature points for each
    component and an array with a row of components for each quadrature
    point, the kernels of the values and of the derivatives of every
    order return for both, and row [c] of the first result is column [c]
    of the second. *)
Theorem result_layouts_agree (fe : FiniteElement)
    (dof_values : list Number) (n_rows n_quadrature_points : nat) :
  fe_wf fe -> fe_primitive_wf fe -> fe_component_wf fe ->
  total_nonzero_pairs fe <= n_rows ->
  let shape_function_to_row_table := make_shape_function_to_row_table fe in
  (forall (shape_values : Table Number)
          (by_component by_point : list (list Number)),
     has_size (n_components fe) n_quadrature_points by_component ->
     has_size n_quadrature_points (n_components fe) by_point ->
     exists r_component r_point,
       internal.do_function_values_fe fe shape_function_to_row_table
         dof_values n_rows shape_values by_component true 1
       = Computed r_component /\
       internal.do_function_values_fe fe shape_function_to_row_table
         dof_values n_rows shape_values by_point false 1
       = Computed r_point /\
       forall c, c < n_components fe ->
         r_component !! c = Some (column (rank := 0) c r_point)) /\
  (forall (order : nat) (shape_derivatives : Table (Tensor order))
          (by_component by_point : list (list (Tensor order))),
     has_size (n_components fe) n_quadrature_points by_component ->
     has_size n_quadrature_points (n_components fe) by_point ->
     exists r_component r_point,
       internal.do_function_derivatives_fe order fe
         shape_function_to_row_table dof_values n_rows shape_derivatives
         by_component true 1
       = Computed r_component /\
       internal.do_function_derivatives_fe order fe
         shape_function_to_row_table dof_values n_rows shape_derivatives
         by_point false 1
       = Computed r_point /\
       forall c, c < n_components fe ->
         r_component !! c = Some (column c r_point)).
Proof.
  intros Hwf Hprim Hcomp Hrows shape_function_to_row_table.
  pose proof (rows_of_element fe n_rows Hwf Hprim Hcomp Hrows) as Hrow.
  assert (H : forall (order : nat) (shape_derivatives : Table (Tensor order))
                (by_component by_point : list (list (Tensor order))),
            has_size (n_components fe) n_quadrature_points by_component ->
            has_size n_quadrature_points (n_components fe) by_point ->
            exists r_component r_point,
              internal.do_function_derivatives_fe order fe
                shape_function_to_row_table dof_values n_rows
                shape_derivatives by_component true 1
              = Computed r_component /\
              internal.do_function_derivatives_fe order fe
                shape_function_to_row_table dof_values n_rows
                shape_derivatives by_point false 1
              = Computed r_point /\
              forall c, c < n_components fe ->
                r_component !! c = Some (column c r_point)).
  { intros order table vf vp Hf Hp.
    destruct (do_function_derivatives_fe_component order fe
                shape_function_to_row_table dof_values n_rows table vf true
                n_quadrature_points Hrow Hf) as (rf & Hrf & Hsf & Hcf).
    destruct (do_function_derivatives_fe_component order fe
                shape_function_to_row_table dof_values n_rows table vp false
                n_quadrature_points Hrow Hp) as (rp & Hrp & Hsp & Hcp).
    exists rf, rp. split; [exact Hrf|]. split; [exact Hrp|].
    intros c Hc. specialize (Hcf c Hc). specialize (Hcp c Hc).
    unfold component_of in Hcf, Hcp.
    destruct (lookup_lt_is_Some_2 rf c) as [row Hrow'];
      [destruct Hsf as [-> _]; exact Hc|].
    destruct (lookup_lt_is_Some_2 vf c) as [row' Hrow''];
      [destruct Hf as [-> _]; exact Hc|].
    rewrite Hrow' in Hcf. rewrite Hrow'' in Hcf. simpl in Hcf.
    rewrite Hrow', Hcf, Hcp. f_equal.
    unfold internal.component_values. f_equal.
    apply fill_same_length. rewrite length_column.
    destruct Hf as [_ Hf]. destruct Hp as [Hp _].
    now rewrite (Hf c row' Hrow''), Hp. }
  split.
  - intros shape_values vf vp Hf Hp.
    rewrite !do_function_values_fe_order_0.
    exact (H 0 shape_values vf vp Hf Hp).
  - exact H.
Qed.

(** For an element whose shape functions are primitive whenever the
    element says it is primitive, and tables with a row for each pair of
    a shape function and a nonzero component, the evaluation context and
    the scalar view of component [c] compute the same numbers. The
    constructor of the view returns, and for one coefficient per shape
    function and result arrays of the right sizes, component [c] of the
    values and of the derivatives of every order, in either layout, and
    column [c] of the Laplacians are what the kernels of the view
    compute from the same tables. *)
Theorem component_kernels_agree_with_scalar_views (spacedim : nat)
    (fe : FiniteElement) (c : nat) (dof_values : list Number)
    (n_rows n_quadrature_points : nat) :
  fe_wf fe -> fe_primitive_wf fe -> fe_component_wf fe ->
  total_nonzero_pairs fe <= n_rows ->
  fe_primitive_shapes fe ->
  c < n_components fe ->
  length dof_values = n_dofs_per_cell fe ->
  let table := make_shape_function_to_row_table fe in
  exists sv, Scalar.Scalar fe c = Ok sv /\
    (forall quadrature_points_fastest shape_values values,
       has_layout quadrature_points_fastest n_quadrature_points
         (n_components fe) values ->
       exists r,
         internal.do_function_values_fe fe table dof_values n_rows
           shape_values values quadrature_points_fastest 1 = Computed r /\
         component_of (rank := 0) quadrature_points_fastest c r
         = Kernels.do_function_values_Scalar dof_values shape_values
             (scalar_shape_function_data sv)
             (component_of (rank := 0) quadrature_points_fastest c
                values)) /\
    (forall quadrature_points_fastest order shape_derivatives derivatives,
       has_layout quadrature_points_fastest n_quadrature_points
         (n_components fe) derivatives ->
       exists r,
         internal.do_function_derivatives_fe order fe table dof_values
           n_rows shape_derivatives derivatives quadrature_points_fastest 1
         = Computed r /\
         component_of quadrature_points_fastest c r
         = Kernels.do_function_derivatives_Scalar order dof_values
             shape_derivatives (scalar_shape_function_data sv)
             (component_of quadrature_points_fastest c derivatives)) /\
    (forall shape_hessians laplacians,
       has_size n_quadrature_points (n_components fe) laplacians ->
       exists r,
         internal.do_function_laplacians_fe spacedim fe table dof_values
           n_rows shape_hessians laplacians false 1 = Computed r /\
         column (rank := 0) c r
         = Kernels.do_function_laplacians_Scalar spacedim dof_values
             shape_hessians (scalar_shape_function_data sv)
             (column (rank := 0) c laplacians)).
Proof.
  intros Hwf Hpwf Hcomp Hrows Hprim Hc Hdofs table.
  pose proof (rows_of_element fe n_rows Hwf Hpwf Hcomp Hrows) as Hrow.
  destruct (Scalar.Scalar fe c) as [sv|e] eqn:Hsv; cycle 1.
  { unfold Scalar.Scalar, Assert in Hsv.
    rewrite (proj2 (Nat.ltb_lt _ _) Hc) in Hsv. discriminate Hsv. }
  exists sv. split; [reflexivity|].
  assert (H : forall fastest order (shape : Table (Tensor order)) values,
            has_layout fastest n_quadrature_points (n_components fe)
              values ->
            exists r,
              internal.do_function_derivatives_fe order fe table dof_values
                n_rows shape values fastest 1 = Computed r /\
              component_of fastest c r
              = Kernels.do_function_derivatives_Scalar order dof_values
                  shape (scalar_shape_function_data sv)
                  (component_of fastest c values)).
  { intros fastest order shape values Hsize.
    destruct (do_function_derivatives_fe_component order fe table
                dof_values n_rows shape values fastest n_quadrature_points
                Hrow Hsize)
      as (r & Hr & _ & Hcomp').
    exists r. split; [exact Hr|]. rewrite (Hcomp' c Hc).
    unfold internal.component_values,
      Kernels.do_function_derivatives_Scalar.
    cbv zeta. rewrite Hdofs. apply foldl_ext_seq. intros out k Hk.
    symmetry.
    exact (scalar_view_step order fe c sv dof_values shape out k Hprim
             Hsv Hk). }
  split; [|split].
  - intros fastest shape_values values Hsize.
    rewrite do_function_values_fe_order_0.
    exact (H fastest 0 shape_values values Hsize).
  - exact H.
  - intros shape_hessians laplacians Hsize.
    rewrite do_function_laplacians_fe_order_0.
    exact (H false 0
             (fun r q => Kernels.trace spacedim (shape_hessians r q))
             laplacians Hsize).
Qed.

(** When the quadrature points run fastest, the kernel of the Laplacians
    takes the number of components, [laplacians.size()], for the number
    of quadrature points: for an element with degrees of freedom it
    returns only for an array that has as many quadrature points as
    components. The sizes are those that an [unsigned int] holds. *)
Theorem laplacians_by_component_are_square (spacedim : nat)
    (fe : FiniteElement) (shape_function_to_row_table : list N)
    (dof_values : list Number) (n_rows : nat)
    (shape_hessians : Table (Tensor 2))
    (laplacians : list (list Number)) (component_multiple : nat)
    (r : list (list Number)) :
  (N.of_nat (n_components fe * component_multiple) < 2 ^ 32)%N ->
  (N.of_nat (n_dofs_per_cell fe * component_multiple) < 2 ^ 32)%N ->
  n_dofs_per_cell fe <> 0 ->
  internal.do_function_laplacians_fe spacedim fe
    shape_function_to_row_table dof_values n_rows shape_hessians
    laplacians true component_multiple = Computed r ->
  has_size (n_components fe * component_multiple)
    (n_components fe * component_multiple) laplacians /\
  has_size (n_components fe * component_multiple)
    (n_components fe * component_multiple) r.
Proof.
  intros _ _ Hsome. unfold internal.do_function_laplacians_fe. cbv zeta.
  rewrite (proj2 (Nat.eqb_neq _ _) Hsome), length_fill_all.
  pose proof (accumulate_components_layout 0 fe
                shape_function_to_row_table dof_values n_rows
                (fun r q => Kernels.trace spacedim (shape_hessians r q))
                (internal.fill_all 0%num laplacians) true component_multiple
                (length laplacians)) as Hlayout.
  intros Hr. rewrite Hr in Hlayout. destruct Hlayout as [Hsize Hlayout].
  apply has_layout_fill_all_inv in Hsize.
  unfold has_layout in Hsize, Hlayout.
  destruct Hsize as [Hlen Hrows]. destruct Hlayout as [Hlen' Hrows'].
  split; (split; [assumption|]); intros i row Hrow.
  - etransitivity; [exact (Hrows i row Hrow)|exact Hlen].
  - etransitivity; [exact (Hrows' i row Hrow)|exact Hlen].
Qed.

End ComponentKernels.

Lemma example_fe_primitive_shapes : fe_primitive_shapes example_fe.
Proof. intros H. discriminate H. Defined.

Lemma example_fe_component_wf : fe_component_wf example_fe.
Proof.
  intros i Hi. destruct i as [|[|[|i]]]; simpl in *; try discriminate; lia.
Defined.


(** The gradients on [example_fe] at one quadrature point, stored by
    component and stored by quadrature point. *)
Lemma result_layouts_agree_witness :
  exists r_component r_point,
    internal.do_function_derivatives_fe (num := double_number) 1
      example_fe (make_shape_function_to_row_table example_fe)
      (numbers [2; 3; 5]) 4 example_gradients
      [[tensor_zero 1]; [tensor_zero 1]] true 1 = Computed r_component /\
    internal.do_function_derivatives_fe (num := double_number) 1
      example_fe (make_shape_function_to_row_table example_fe)
      (numbers [2; 3; 5]) 4 example_gradients
      [[tensor_zero 1; tensor_zero 1]] false 1 = Computed r_point /\
    forall c, c < 2 -> r_component !! c = Some (column c r_point).
Proof.
  destruct (result_layouts_agree (num := double_number) example_fe
              (numbers [2; 3; 5]) 4 1 example_fe_wf
              example_fe_primitive_wf example_fe_component_wf
              ltac:(vm_compute; lia)) as [_ H].
  apply (H 1 example_gradients [[tensor_zero 1]; [tensor_zero 1]]
           [[tensor_zero 1; tensor_zero 1]]).
  - apply (dimensions_ok_spec true 1 2). reflexivity.
  - apply (dimensions_ok_spec false 1 2). reflexivity.
Defined.

(** Component 1 of the gradients that the evaluation context computes
    on [example_fe] is what the scalar view of component 1 computes. *)
Lemma component_kernels_agree_with_scalar_views_witness :
  exists sv r,
    Scalar.Scalar example_fe 1 = Ok sv /\
    internal.do_function_derivatives_fe (num := double_number) 1
      example_fe (make_shape_function_to_row_table example_fe)
      (numbers [2; 3; 5]) 4 example_gradients
      [[tensor_zero 1; tensor_zero 1]] false 1 = Computed r /\
    column 1 r
    = Kernels.do_function_derivatives_Scalar (num := double_number) 1
        (numbers [2; 3; 5]) example_gradients
        (scalar_shape_function_data sv) [tensor_zero 1].
Proof.
  destruct (component_kernels_agree_with_scalar_views
              (num := double_number) 2 example_fe 1 (numbers [2; 3; 5]) 4 1
              example_fe_wf example_fe_primitive_wf example_fe_component_wf
              ltac:(vm_compute; lia) example_fe_primitive_shapes
              ltac:(simpl; lia) eq_refl) as (sv & Hsv & _ & H & _).
  destruct (H false 1 example_gradients [[tensor_zero 1; tensor_zero 1]])
    as (r & Hr & Hc).
  { apply (dimensions_ok_spec false 1 2). reflexivity. }
  exists sv, r. split; [exact Hsv|]. split; [exact Hr|exact Hc].
Defined.

(** On [example_fe], with two components, the Laplacians by component
    are computed for an array of two rows of two entries. *)
Lemma laplacians_by_component_are_square_witness :
  exists r,
    internal.do_function_laplacians_fe (num := double_number) 2 example_fe
      example_row_table (numbers [2; 3; 5]) 4 example_hessians
      [numbers [0; 0]; numbers [0; 0]] true 1 = Computed r /\
    has_size 2 2 r.
Proof.
  eexists. split; [reflexivity|].
  apply (laplacians_by_component_are_square (num := double_number) 2
           example_fe example_row_table (numbers [2; 3; 5]) 4
           example_hessians [numbers [0; 0]; numbers [0; 0]] 1 _ eq_refl
           eq_refl ltac:(simpl; lia) eq_refl).
Defined.

(** ** The tables of the shape functions *)

Section TablesOfShapeFunctions.

Lemma has_size_reinit_fill {T} (n_rows n_columns : nat) (nan : T) :
  has_size n_rows n_columns
    (FEValuesImplementation.reinit_fill n_rows n_columns nan).
Proof.
  unfold FEValuesImplementation.reinit_fill.
  split; [apply length_replicate|].
  intros i row Hrow. apply lookup_replicate in Hrow as [-> _].
  apply length_replicate.
Qed.

(** The sum of the counts of nonzero components does not wrap. *)
Lemma n_nonzero_shape_components_spec (fe : FiniteElement) (n : nat) :
  fe_wf fe -> n <= n_dofs_per_cell fe ->
  foldl (fun k i => wrap (k + N.of_nat (n_nonzero_components fe i)))
    0%N (seq 0 n)
  = N.of_nat (first_row fe n).
Proof.
  intros Hwf. induction n as [|n IH]; intros Hn; [reflexivity|].
  rewrite seq_S, foldl_app, IH by lia. simpl.
  assert (Hle : first_row fe (S n) <= total_nonzero_pairs fe).
  { unfold total_nonzero_pairs.
    rewrite !first_row_rows_before by (auto; lia).
    now apply rows_before_mono. }
  pose proof (total_nonzero_pairs_le fe Hwf) as Htotal.
  pose proof (wf_size fe Hwf) as Hsize.
  assert (HS : first_row fe (S n)
               = first_row fe n + n_nonzero_components fe n).
  { unfold first_row. rewrite seq_S, map_app, sum_list_with_app.
    simpl. lia. }
  unfold wrap. rewrite N.mod_small by lia. lia.
Qed.

(** [initialize] gives the tables it is asked for one row for each pair
    of a shape function and a component in which it is nonzero, and one
    column for each quadrature point. It fails with [ExcInternalError]
    exactly when there are fewer such pairs than shape functions;
    otherwise it stores the row table of the element, leaves the tables
    that are not asked for as they were, and every entry of the row
    table for a nonzero component is a row of the tables. *)
Theorem initialize_tables (value gradient hessian third_derivative : Type)
    (nan_value : value) (nan_gradient : gradient) (nan_hessian : hessian)
    (nan_third_derivative : third_derivative)
    (update_values update_gradients update_hessians
       update_3rd_derivatives : N)
    (n_quadrature_points : nat) (fe : FiniteElement) (flags : N)
    (this : FEValuesImplementation.FiniteElementRelatedData value gradient
              hessian third_derivative) :
  fe_wf fe ->
  let result :=
    FEValuesImplementation.initialize value gradient hessian
      third_derivative nan_value nan_gradient nan_hessian
      nan_third_derivative update_values update_gradients update_hessians
      update_3rd_derivatives n_quadrature_points fe flags this in
  let n_rows := total_nonzero_pairs fe in
  let sized {T} (bit : N) (get : _ -> list (list T)) data :=
    if FEValuesImplementation.has_flag flags bit
    then has_size n_rows n_quadrature_points (get data)
    else get data = get this in
  (n_rows < n_dofs_per_cell fe -> result = Err ExcInternalError) /\
  (n_dofs_per_cell fe <= n_rows ->
   exists data, result = Ok data /\
     FEValuesImplementation.shape_function_to_row_table _ _ _ _ data
     = make_shape_function_to_row_table fe /\
     sized update_values
       (FEValuesImplementation.shape_values _ _ _ _) data /\
     sized update_gradients
       (FEValuesImplementation.shape_gradients _ _ _ _) data /\
     sized update_hessians
       (FEValuesImplementation.shape_hessians _ _ _ _) data /\
     sized update_3rd_derivatives
       (FEValuesImplementation.shape_3rd_derivatives _ _ _ _) data /\
     forall i c, i < n_dofs_per_cell fe -> c < n_components fe ->
       get_nonzero_components fe i c = true ->
       exists r,
         FEValuesImplementation.shape_function_to_row_table _ _ _ _ data
           !! (i * n_components fe + c) = Some r /\
         N.to_nat r < n_rows).
Proof.
  intros Hwf result n_rows sized. unfold result, sized, n_rows.
  unfold FEValuesImplementation.initialize, Assert. cbv zeta.
  rewrite (n_nonzero_shape_components_spec fe (n_dofs_per_cell fe) Hwf)
    by lia.
  fold (total_nonzero_pairs fe). rewrite Nat2N.id.
  split.
  - intros Hlt. now rewrite (proj2 (N.leb_gt _ _)) by lia.
  - intros Hle. rewrite (proj2 (N.leb_le _ _)) by lia.
    eexists. split; [reflexivity|]. simpl.
    split; [reflexivity|].
    repeat match goal with
           | |- _ /\ _ => split
           | |- context [FEValuesImplementation.has_flag ?f ?b] =>
               destruct (FEValuesImplementation.has_flag f b)
           end;
      try reflexivity; try apply has_size_reinit_fill.
    intros i c Hi Hc Hbit. eexists. split.
    + now apply lookup_row_table.
    + rewrite Hbit, Nat2N.id. now apply row_number_lt_total.
Qed.

End TablesOfShapeFunctions.

(** The tables of [example_fe] for two quadrature points, with values
    and gradients asked for: four rows of two columns; the table of the
    Hessians is left empty. *)
Lemma initialize_tables_witness :
  exists data,
    FEValuesImplementation.initialize Z Z Z Z (-1)%Z (-2)%Z (-3)%Z (-4)%Z
      1 2 4 8 2 example_fe 3
      {| FEValuesImplementation.shape_values := [];
         FEValuesImplementation.shape_gradients := [];
         FEValuesImplementation.shape_hessians := [];
         FEValuesImplementation.shape_3rd_derivatives := [];
         FEValuesImplementation.shape_function_to_row_table := [] |}
    = Ok data /\
    has_size 4 2 (FEValuesImplementation.shape_values _ _ _ _ data) /\
    has_size 4 2 (FEValuesImplementation.shape_gradients _ _ _ _ data) /\
    FEValuesImplementation.shape_hessians _ _ _ _ data = [].
Proof.
  destruct (initialize_tables Z Z Z Z (-1)%Z (-2)%Z (-3)%Z (-4)%Z
              1 2 4 8 2 example_fe 3
              {| FEValuesImplementation.shape_values := [];
                 FEValuesImplementation.shape_gradients := [];
                 FEValuesImplementation.shape_hessians := [];
                 FEValuesImplementation.shape_3rd_derivatives := [];
                 FEValuesImplementation.shape_function_to_row_table
                   := [] |}
              example_fe_wf) as [_ Hok].
  destruct Hok as (data & Hdata & _ & Hv & Hg & Hh & _);
    [vm_compute; lia|].
  exists data. split; [exact Hdata|].
  split; [exact Hv|]. split; [exact Hg|exact Hh].
Defined.
